(** * QuantumQA: retrieval / grounding pipeline

    A shallow embedding of the Python back end ([backend/selectors.py],
    [backend/ingest.py], [backend/rag.py], [backend/script_generation.py])
    and the properties its specification states about it.

    Python text is modelled by [string]; a character stands for a code
    point below 256.  Exceptions are values of type [exn]; a computation
    that may raise has type [result A]. *)

From Stdlib Require Import Ascii String.
From stdpp Require Import base numbers option strings pretty list.

Local Open Scope string_scope.
Local Open Scope list_scope.
Local Open Scope nat_scope.
Local Set Warnings "-register-all".

(** ** Exceptions and fallible computations *)

(** The exception classes the code distinguishes.  Only
    [JSONDecodeError] is ever caught by name; every other handler is
    [except Exception]. *)
Inductive exn_class :=
  | KeyError
  | TypeError
  | AttributeError
  | IndexError
  | JSONDecodeError
  | UnicodeDecodeError
  | LibraryError.

Global Instance exn_class_eq_dec : EqDecision exn_class.
Proof. solve_decision. Defined.

(** An exception: its class and the text [str(e)] renders. *)
Record exn := Exn { exn_cls : exn_class; exn_str : string }.

Inductive result (A : Type) :=
  | Ok (a : A)
  | Raise (e : exn).
Global Arguments Ok {A} a.
Global Arguments Raise {A} e.

Global Instance result_ret : MRet result := λ A a, Ok a.
Global Instance result_bind : MBind result := λ A B k m,
  match m with
  | Ok a => k a
  | Raise e => Raise e
  end.

(** [try: m except Exception as e: h e] *)
Definition try_except {A} (m : result A) (h : exn → result A) : result A :=
  match m with
  | Ok a => Ok a
  | Raise e => h e
  end.

(** [try: m except C as e: h e], other classes propagate. *)
Definition try_except_class {A} (c : exn_class) (m : result A)
    (h : exn → result A) : result A :=
  match m with
  | Ok a => Ok a
  | Raise e => if decide (exn_cls e = c) then h e else Raise e
  end.

Definition raises {A} (m : result A) : Prop :=
  match m with Ok _ => False | Raise _ => True end.

Fixpoint mapM {A B} (f : A → result B) (l : list A) : result (list B) :=
  match l with
  | [] => Ok []
  | x :: l' => y ← f x; ys ← mapM f l'; Ok (y :: ys)
  end.

(** ** Python [str] operations *)

Definition dq : string := String (ascii_of_nat 34) "".
Definition nl : string := String (ascii_of_nat 10) "".

(** [s.startswith(p)] *)
Definition startswith (s p : string) : bool := String.prefix p s.

(** [needle in hay] for two strings. *)
Fixpoint str_in (needle hay : string) : bool :=
  String.prefix needle hay ||
  match hay with
  | "" => false
  | String _ hay' => str_in needle hay'
  end.

(** [any(k in hay for k in keywords)] *)
Definition any_in (keywords : list string) (hay : string) : bool :=
  existsb (fun k => str_in k hay) keywords.

(** [str.lower] on code points below 256: A-Z, and the Latin-1 capitals
    192..222 except the multiplication sign 215, move up by 32. *)
Definition lower_char (c : ascii) : ascii :=
  let n := nat_of_ascii c in
  if (((65 <=? n) && (n <=? 90)) ||
      ((192 <=? n) && (n <=? 222) && negb (n =? 215)))%nat
  then ascii_of_nat (n + 32) else c.

Fixpoint lower (s : string) : string :=
  match s with
  | "" => ""
  | String c s' => String (lower_char c) (lower s')
  end.

(** [str.isspace] on code points below 256. *)
Definition is_space (c : ascii) : bool :=
  let n := nat_of_ascii c in
  (((9 <=? n) && (n <=? 13)) || ((28 <=? n) && (n <=? 32)) ||
   (n =? 133) || (n =? 160))%nat.

Fixpoint lstrip (s : string) : string :=
  match s with
  | "" => ""
  | String c s' => if is_space c then lstrip s' else s
  end.

Fixpoint rstrip (s : string) : string :=
  match s with
  | "" => ""
  | String c s' =>
      match rstrip s' with
      | "" => if is_space c then "" else String c ""
      | r => String c r
      end
  end.

(** [s.strip()] *)
Definition strip (s : string) : string := rstrip (lstrip s).

(** Left-to-right, non-overlapping replacement; [skip] counts the
    characters of a match still to be dropped. *)
Fixpoint replace_go (old new : string) (skip : nat) (s : string) : string :=
  match s with
  | "" => ""
  | String c s' =>
      match skip with
      | S k => replace_go old new k s'
      | O =>
          if String.prefix old s
          then new +:+ replace_go old new (String.length old - 1) s'
          else String c (replace_go old new 0 s')
      end
  end.

Fixpoint intersperse_str (new s : string) : string :=
  match s with
  | "" => ""
  | String c s' => String c (new +:+ intersperse_str new s')
  end.

(** [s.replace(old, new)] *)
Definition replace (s old new : string) : string :=
  match old with
  | "" => new +:+ intersperse_str new s
  | _ => replace_go old new 0 s
  end.

(** [sep.join(parts)] *)
Definition join (sep : string) (parts : list string) : string :=
  String.concat sep parts.

(** The characters of a string, as one-character strings (what iterating a
    Python [str] yields). *)
Fixpoint chars (s : string) : list string :=
  match s with
  | "" => []
  | String c s' => String c "" :: chars s'
  end.

(** [s[:n]] *)
Fixpoint slice_to (n : nat) (s : string) : string :=
  match n, s with
  | S n', String c s' => String c (slice_to n' s')
  | _, _ => ""
  end.

(** Truthiness of a string. *)
Definition nonempty (s : string) : bool :=
  match s with "" => false | _ => true end.

(** ** Python values (what [json.loads] can build) *)

(** A float is carried by the text [repr] gives for it: the code only
    renders floats and tests their type. *)
Inductive pyval :=
  | PyNone
  | PyBool (b : bool)
  | PyInt (z : Z)
  | PyFloat (repr : string)
  | PyStr (s : string)
  | PyList (items : list pyval)
  | PyDict (entries : list (string * pyval)).

(** Dictionaries keep insertion order; [entries] lists the keys in that
    order and lookup takes the first entry of a key. *)
Definition pydict := list (string * pyval).

Fixpoint dict_lookup (k : string) (d : pydict) : option pyval :=
  match d with
  | [] => None
  | (k', v) :: d' => if String.eqb k k' then Some v else dict_lookup k d'
  end.

(** [k in d] *)
Definition dict_has (k : string) (d : pydict) : bool :=
  match dict_lookup k d with Some _ => true | None => false end.

(** [d.get(k, default)] *)
Definition dict_get (k : string) (default : pyval) (d : pydict) : pyval :=
  match dict_lookup k d with Some v => v | None => default end.

(** [d[k]] *)
Definition dict_getitem (k : string) (d : pydict) : result pyval :=
  match dict_lookup k d with
  | Some v => Ok v
  | None => Raise (Exn KeyError ("'" +:+ k +:+ "'"))
  end.

(** [type(v).__name__] *)
Definition type_name (v : pyval) : string :=
  match v with
  | PyNone => "NoneType"
  | PyBool _ => "bool"
  | PyInt _ => "int"
  | PyFloat _ => "float"
  | PyStr _ => "str"
  | PyList _ => "list"
  | PyDict _ => "dict"
  end.

Definition is_container (v : pyval) : bool :=
  match v with PyDict _ | PyList _ => true | _ => false end.

(** [str(v)], also what an f-string field renders.  The text of a list or
    a dictionary is Python's [repr], which is left to the interpreter
    ([container_repr]); no property below depends on it. *)
Definition py_str (container_repr : pyval → string) (v : pyval) : string :=
  match v with
  | PyNone => "None"
  | PyBool true => "True"
  | PyBool false => "False"
  | PyInt z => pretty z
  | PyFloat r => r
  | PyStr s => s
  | PyList _ | PyDict _ => container_repr v
  end.

(** ** External collaborators

    Libraries the back end calls and does not implement.  They are kept
    abstract: every theorem holds for any behaviour of theirs. *)

(** An attribute value as BeautifulSoup stores it: a string, or a list of
    tokens for a multi-valued attribute such as [class]. *)
Inductive attr :=
  | AStr (s : string)
  | AList (tokens : list string).

(** A parsed element ([bs4.Tag]) seen through what the code reads of it:
    its name, the attributes [id], [name], [class], [type], [data-test]
    (absent ones are [None]) and [get_text(strip=True)].  With the
    [html.parser] tree builder only [class] may hold a list. *)
Record Tag := {
  tag_name : string;
  attr_id : option string;
  attr_name : option string;
  attr_class : option attr;
  attr_type : option string;
  attr_data_test : option string;
  tag_text : string
}.

(** What [collection.query] returns: one inner list per query embedding.
    An entry stored without metadata comes back as [None]; a distance is
    carried by its text, as a [PyFloat] is. *)
Record query_result := {
  documents : option (list (list string));
  metadatas : option (list (list (option pydict)));
  distances : option (list (list string))
}.

Class Environment := {
  (** [repr] of a list or dictionary *)
  container_repr : pyval → string;
  (** [pathlib.Path(s).suffix] and [pathlib.Path(s).stem] *)
  path_suffix : string → string;
  path_stem : string → string;
  (** [json.loads]; it raises [JSONDecodeError] on malformed text *)
  json_loads : string → result pyval;
  (** [json.dumps(v, indent=2)] *)
  json_dumps : pyval → string;
  (** [BeautifulSoup(html, 'html.parser').find_all()], document order *)
  soup_find_all : string → list Tag;
  (** [BeautifulSoup(html, 'html.parser').get_text(separator, strip=True)] *)
  soup_get_text : string → string;
  (** [BeautifulSoup(markdown.markdown(s), 'html.parser').get_text()] *)
  markdown_get_text : string → string;
  (** PyMuPDF: the text of every page, in page order *)
  fitz_get_text : list Byte.byte → result string;
  (** [bytes.decode('utf-8')] *)
  decode_utf8 : list Byte.byte → result string;
  (** [bytes.decode('utf-8', errors='ignore')] *)
  decode_utf8_ignore : list Byte.byte → string;
  (** [RecursiveCharacterTextSplitter(...).split_text] *)
  split_text : string → list string;
  (** [model.generate_content([system, user]).text] of the Gemini client *)
  generate_content : string → string → result string;
  (** the sentence-transformer: one embedding per text *)
  Embedding : Type;
  encode : list string → result (list Embedding);
  (** a ChromaDB collection, [collection.add(ids, embeddings, documents,
      metadatas)] (the store it leaves, and the exception if it raises) and
      [collection.query(query_embeddings=[q], n_results=n, where=w)] *)
  Collection : Type;
  collection_add : Collection → list string → list Embedding → list string →
                   list pydict → Collection * option exn;
  collection_query : Collection → Embedding → nat → option pydict →
                     result query_result
}.

(** [l[0]] *)
Definition getitem0 {A} (l : list A) : result A :=
  match l with
  | x :: _ => Ok x
  | [] => Raise (Exn IndexError "list index out of range")
  end.

(** * backend/selectors.py *)
Module selectors.

Inductive selector_type := ids | names | classes | data_test.

Inductive bucket :=
  | buttons | inputs | forms | cart_elements | payment_elements
  | shipping_elements | discount_elements | validation_elements.

Global Instance selector_type_eq_dec : EqDecision selector_type.
Proof. solve_decision. Defined.
Global Instance bucket_eq_dec : EqDecision bucket.
Proof. solve_decision. Defined.

(** The [element_info] dictionary: keys [tag], [selectors], and [id],
    [name] when the element has them. *)
Record element_info := {
  ei_tag : string;
  ei_selectors : list string;
  ei_id : option string;
  ei_name : option string
}.

Global Instance element_info_eq_dec : EqDecision element_info.
Proof. solve_decision. Defined.

(** The [selectors_data] dictionary; [by_type] and [semantic] are its two
    inner dictionaries, whose key sets are fixed. *)
Record selectors_data := {
  all_selectors : list string;
  by_type : selector_type → list string;
  semantic : bucket → list element_info
}.

Definition empty_selectors_data : selectors_data :=
  {| all_selectors := []; by_type := λ _, []; semantic := λ _, [] |}.

(** The three appends every attribute branch performs. *)
Definition record_selector (ty : selector_type) (selector : string)
    (st : selectors_data * element_info) : selectors_data * element_info :=
  let '(sd, info) := st in
  ({| all_selectors := all_selectors sd ++ [selector];
      by_type := λ ty', if decide (ty' = ty) then by_type sd ty' ++ [selector]
                        else by_type sd ty';
      semantic := semantic sd |},
   {| ei_tag := ei_tag info; ei_selectors := ei_selectors info ++ [selector];
      ei_id := ei_id info; ei_name := ei_name info |}).

Definition set_id (v : string) (st : selectors_data * element_info) :=
  let '(sd, info) := st in
  (sd, {| ei_tag := ei_tag info; ei_selectors := ei_selectors info;
          ei_id := Some v; ei_name := ei_name info |}).

Definition set_name (v : string) (st : selectors_data * element_info) :=
  let '(sd, info) := st in
  (sd, {| ei_tag := ei_tag info; ei_selectors := ei_selectors info;
          ei_id := ei_id info; ei_name := Some v |}).

(** [selectors_data['semantic'][b].append(element_info)] *)
Definition append_bucket (b : bucket) (info : element_info)
    (sd : selectors_data) : selectors_data :=
  {| all_selectors := all_selectors sd;
     by_type := by_type sd;
     semantic := λ b', if decide (b' = b) then semantic sd b' ++ [info]
                       else semantic sd b' |}.

Definition append_if (c : bool) (b : bucket) (info : element_info)
    (sd : selectors_data) : selectors_data :=
  if c then append_bucket b info sd else sd.

(** [' '.join(element.get('class', []))]: a string is joined character by
    character. *)
Definition class_text (e : Tag) : string :=
  join " " match attr_class e with
           | None => []
           | Some (AList l) => l
           | Some (AStr s) => chars s
           end.

Definition ids_text (e : Tag) : string :=
  lower (default "" (attr_id e)) +:+ lower (default "" (attr_name e))
    +:+ lower (class_text e).

Definition _categorize_semantic (element : Tag) (info : element_info)
    (sd : selectors_data) : selectors_data :=
  let text_content := lower (tag_text element) in
  let element_class := lower (class_text element) in
  let attrs := ids_text element in
  let sd := append_if (String.eqb (tag_name element) "button"
                       || bool_decide (attr_type element = Some "button")
                       || bool_decide (attr_type element = Some "submit"))
              buttons info sd in
  let sd := append_if (String.eqb (tag_name element) "input"
                       || String.eqb (tag_name element) "textarea"
                       || String.eqb (tag_name element) "select")
              inputs info sd in
  let sd := append_if (String.eqb (tag_name element) "form") forms info sd in
  let sd := append_if (any_in ["cart"; "add to cart"; "quantity"] text_content)
              cart_elements info sd in
  let sd := append_if (any_in ["cart"; "qty"; "quantity"; "total"] attrs)
              cart_elements info sd in
  let sd := append_if (any_in ["payment"; "pay"; "credit"; "paypal"] text_content)
              payment_elements info sd in
  let sd := append_if (any_in ["payment"; "pay"] attrs)
              payment_elements info sd in
  let sd := append_if (any_in ["shipping"; "standard"; "express"; "delivery"] text_content)
              shipping_elements info sd in
  let sd := append_if (any_in ["shipping"; "delivery"] attrs)
              shipping_elements info sd in
  let sd := append_if (any_in ["discount"; "coupon"; "promo"] text_content)
              discount_elements info sd in
  let sd := append_if (any_in ["discount"; "coupon"; "promo"; "code"] attrs)
              discount_elements info sd in
  append_if (any_in ["error"; "invalid"; "validation"] element_class)
    validation_elements info sd.

(** Truthiness of [element.get('class')] and the tokens it is read as. *)
Definition class_tokens (e : Tag) : list string :=
  match attr_class e with
  | None => []
  | Some (AList l) => l
  | Some (AStr s) => if nonempty s then [s] else []
  end.

Definition truthy (o : option string) : option string :=
  match o with
  | Some v => if nonempty v then Some v else None
  | None => None
  end.

(** The body of the loop over [all_elements]: the selectors and the
    [element_info] of one element. *)
Definition element_step (sd : selectors_data) (element : Tag)
    : selectors_data * element_info :=
  let st := (sd, {| ei_tag := tag_name element; ei_selectors := [];
                     ei_id := None; ei_name := None |}) in
  let st := match truthy (attr_id element) with
            | Some v => set_id v (record_selector ids ("#" +:+ v) st)
            | None => st
            end in
  let st := match truthy (attr_name element) with
            | Some v => set_name v (record_selector names ("[name='" +:+ v +:+ "']") st)
            | None => st
            end in
  let st := foldl (λ st cls, record_selector classes ("." +:+ cls) st)
              st (class_tokens element) in
  match truthy (attr_data_test element) with
  | Some v => record_selector data_test ("[data-test='" +:+ v +:+ "']") st
  | None => st
  end.

Definition extract_element (sd : selectors_data) (element : Tag) : selectors_data :=
  let '(sd, info) := element_step sd element in
  _categorize_semantic element info sd.

(** [list(set(l))]: the order Python gives is unspecified; the first
    occurrences are kept here. *)
Definition list_set (l : list string) : list string := remove_dups l.

Definition extract_selectors `{Environment} (html_content : string) : selectors_data :=
  let sd := foldl extract_element empty_selectors_data (soup_find_all html_content) in
  {| all_selectors := list_set (all_selectors sd);
     by_type := by_type sd;
     semantic := semantic sd |}.

Definition bucket_lines (sd : selectors_data) (b : bucket) : list string :=
  map (λ info, "  " +:+ ei_tag info +:+ ": " +:+ join ", " (ei_selectors info))
      (semantic sd b).

Definition format_for_storage (sd : selectors_data) : string :=
  join nl
    (["=== HTML SELECTORS ===" +:+ nl;
      "Total unique selectors: " +:+ pretty (length (all_selectors sd)) +:+ nl]
     ++ [nl +:+ "--- Buttons ---"] ++ bucket_lines sd buttons
     ++ [nl +:+ "--- Input Fields ---"] ++ bucket_lines sd inputs
     ++ [nl +:+ "--- Cart Elements ---"] ++ bucket_lines sd cart_elements
     ++ [nl +:+ "--- Payment Elements ---"] ++ bucket_lines sd payment_elements
     ++ [nl +:+ "--- Shipping Elements ---"] ++ bucket_lines sd shipping_elements
     ++ [nl +:+ "--- Discount Elements ---"] ++ bucket_lines sd discount_elements).

End selectors.

(** * backend/ingest.py *)
Module ingest.

Inductive doc_type := spec | api | ui_ux | html_dom.

Global Instance doc_type_eq_dec : EqDecision doc_type.
Proof. solve_decision. Defined.

(** The string the code uses for each tag. *)
Definition doc_type_str (t : doc_type) : string :=
  match t with
  | spec => "spec" | api => "api" | ui_ux => "ui_ux" | html_dom => "html_dom"
  end.

(** A chunk dictionary; [has_selectors] is set on [html_dom] chunks only. *)
Record chunk := {
  chunk_id : string;
  text : string;
  source_document : string;
  chunk_doc_type : doc_type;
  chunk_index : nat;
  has_selectors : option bool
}.

(** The mutable part of a [DocumentIngestion] object.  [produced] is a
    history variable, not a field of the class: it lists every chunk
    [chunk_text] has returned so far, oldest first. *)
Record ingestion `{Environment} := {
  chunk_counter : nat;
  collection : Collection;
  produced : list chunk
}.

(** [DocumentIngestion.__init__] leaves [chunk_counter] at 0. *)
Definition init `{Environment} (c : Collection) : ingestion :=
  {| chunk_counter := 0; collection := c; produced := [] |}.

(** ** Parsing *)

Definition _parse_pdf `{Environment} (file_content : list Byte.byte) : result string :=
  fitz_get_text file_content.

Definition _parse_markdown `{Environment} (content : string) : string :=
  markdown_get_text content.

(** The entries [_flatten_json] appends to [lines], then joined. *)
Fixpoint _flatten_json `{Environment} (data : pyval) (prefix : string) : string :=
  join nl
    match data with
    | PyDict entries =>
        flat_map (λ '(key, value),
          let new_prefix := if nonempty prefix then prefix +:+ "." +:+ key else key in
          match value with
          | PyDict _ | PyList _ =>
              [new_prefix +:+ ":"; _flatten_json value new_prefix]
          | _ => [new_prefix +:+ ": " +:+ py_str container_repr value]
          end) entries
    | PyList items =>
        (fix go (idx : nat) (items : list pyval) : list string :=
           match items with
           | [] => []
           | item :: rest =>
               let new_prefix := prefix +:+ "[" +:+ pretty idx +:+ "]" in
               match item with
               | PyDict _ | PyList _ => _flatten_json item new_prefix
               | _ => new_prefix +:+ ": " +:+ py_str container_repr item
               end :: go (S idx) rest
           end) 0 items
    | _ => [py_str container_repr data]
    end.

Definition _parse_json `{Environment} (content : string) : result string :=
  try_except_class JSONDecodeError
    (data ← json_loads content; Ok (_flatten_json data ""))
    (λ _, Ok content).

Definition _parse_html `{Environment} (content : string) : string :=
  let text_content := soup_get_text content in
  let selectors_data := selectors.extract_selectors content in
  let selector_text := selectors.format_for_storage selectors_data in
  text_content +:+ nl +:+ nl +:+ selector_text.

Definition parse_document `{Environment} (file_path : string)
    (file_content : list Byte.byte) (filename : string) : result (string * doc_type) :=
  let ext := lower (path_suffix filename) in
  if String.eqb ext ".pdf" then
    t ← _parse_pdf file_content; Ok (t, spec)
  else if String.eqb ext ".md" then
    s ← decode_utf8 file_content; Ok (_parse_markdown s, spec)
  else if String.eqb ext ".txt" then
    s ← decode_utf8 file_content;
    Ok (s, if str_in "ui" (lower filename) || str_in "ux" (lower filename)
           then ui_ux else spec)
  else if String.eqb ext ".json" then
    s ← decode_utf8 file_content; t ← _parse_json s; Ok (t, api)
  else if String.eqb ext ".html" || String.eqb ext ".htm" then
    s ← decode_utf8 file_content; Ok (_parse_html s, html_dom)
  else
    Ok (decode_utf8_ignore file_content, spec).

(** ** Chunking and storing

    Methods that touch [self] run in a state-and-exception monad: the
    mutations made before an exception is raised stay. *)
Definition method `{Environment} (A : Type) : Type :=
  ingestion → ingestion * result A.

Global Instance method_ret `{Environment} : MRet method := λ A a st, (st, Ok a).
Global Instance method_bind `{Environment} : MBind method := λ A B k m st,
  match m st with
  | (st', Ok a) => k a st'
  | (st', Raise e) => (st', Raise e)
  end.

Definition lift `{Environment} {A} (r : result A) : method A := λ st, (st, r).

(** [try: m except Exception as e: h e] *)
Definition try_method `{Environment} {A} (m : method A) (h : exn → method A)
    : method A := λ st,
  match m st with
  | (st', Ok a) => (st', Ok a)
  | (st', Raise e) => h e st'
  end.

(** [self.chunk_counter += 1], giving the new value. *)
Definition next_counter `{Environment} : method nat := λ st,
  ({| chunk_counter := S (chunk_counter st); collection := collection st;
      produced := produced st |},
   Ok (S (chunk_counter st))).

Definition log_produced `{Environment} (chunks : list chunk) : method unit := λ st,
  ({| chunk_counter := chunk_counter st; collection := collection st;
      produced := produced st ++ chunks |},
   Ok ()).

(** The loop of [chunk_text] over [enumerate(chunks)], from index [idx]. *)
Fixpoint chunk_loop `{Environment} (source_document : string) (ty : doc_type)
    (idx : nat) (pieces : list string) : method (list chunk) :=
  match pieces with
  | [] => mret []
  | piece :: rest =>
      counter ← next_counter;
      let chunk_dict :=
        {| chunk_id := path_stem source_document +:+ "_" +:+ pretty counter;
           text := piece;
           source_document := source_document;
           chunk_doc_type := ty;
           chunk_index := idx;
           has_selectors :=
             if decide (ty = html_dom)
             then Some (str_in "SELECTOR" piece || str_in "#" piece
                        || str_in "class=" piece)
             else None |} in
      chunk_dicts ← chunk_loop source_document ty (S idx) rest;
      mret (chunk_dict :: chunk_dicts)
  end.

Definition chunk_text `{Environment} (text : string) (source_document : string)
    (ty : doc_type) : method (list chunk) :=
  chunk_dicts ← chunk_loop source_document ty 0 (split_text text);
  _ ← log_produced chunk_dicts;
  mret chunk_dicts.

Definition chunk_metadata (c : chunk) : pydict :=
  [("source_document", PyStr (source_document c));
   ("doc_type", PyStr (doc_type_str (chunk_doc_type c)));
   ("chunk_index", PyInt (Z.of_nat (chunk_index c)))].

Definition embed_and_store `{Environment} (chunks : list chunk) : method nat :=
  match chunks with
  | [] => mret 0
  | _ =>
      let texts := map text chunks in
      embeddings ← lift (encode texts);
      let ids := map chunk_id chunks in
      let metadatas := map chunk_metadata chunks in
      _ ← (λ st,
             let '(c, err) := collection_add (collection st) ids embeddings
                                texts metadatas in
             ({| chunk_counter := chunk_counter st; collection := c;
                 produced := produced st |},
              match err with Some e => Raise e | None => Ok () end))
          : method unit;
      mret (length chunks)
  end.

(** ** The ingestion pipeline *)

(** An element of [stats['files_processed']]. *)
Inductive file_entry :=
  | Processed (filename : string) (ty : doc_type) (chunks : nat)
  | Failed (filename : string) (error : string).

Definition entry_filename (e : file_entry) : string :=
  match e with Processed f _ _ | Failed f _ => f end.

Record stats := {
  total_files : nat;
  total_chunks : nat;
  files_processed : list file_entry;
  doc_types : list (doc_type * nat)
}.

(** [d[k] = d.get(k, 0) + 1] on the [doc_types] dictionary. *)
Fixpoint bump (k : doc_type) (d : list (doc_type * nat)) : list (doc_type * nat) :=
  match d with
  | [] => [(k, 1)]
  | (k', n) :: d' => if decide (k' = k) then (k', n + 1) :: d' else (k', n) :: bump k d'
  end.

(** An uploaded file: [(file_path, file_content, filename)]. *)
Definition upload : Type := string * list Byte.byte * string.

(** The statements of the [try] block that can raise: parsing, chunking
    and storing one file. *)
Definition file_body `{Environment} (file : upload) : method (doc_type * nat) :=
  let '(file_path, file_content, filename) := file in
  '(text_content, ty) ← lift (parse_document file_path file_content filename);
  chunks ← chunk_text text_content filename ty;
  num_stored ← embed_and_store chunks;
  mret (ty, num_stored).

(** The body of the loop of [ingest_documents] for one file. *)
Definition ingest_file `{Environment} (st : stats) (file : upload) : method stats :=
  try_method
    ('(ty, num_stored) ← file_body file;
     mret {| total_files := total_files st + 1;
             total_chunks := total_chunks st + num_stored;
             files_processed := files_processed st ++ [Processed file.2 ty num_stored];
             doc_types := bump ty (doc_types st) |})
    (λ e, mret {| total_files := total_files st;
                  total_chunks := total_chunks st;
                  files_processed := files_processed st ++ [Failed file.2 (exn_str e)];
                  doc_types := doc_types st |}).

Fixpoint ingest_loop `{Environment} (st : stats) (files : list upload) : method stats :=
  match files with
  | [] => mret st
  | file :: rest => st' ← ingest_file st file; ingest_loop st' rest
  end.

Definition ingest_documents `{Environment} (uploaded_files : list upload) : method stats :=
  ingest_loop {| total_files := 0; total_chunks := 0; files_processed := [];
                 doc_types := [] |} uploaded_files.

End ingest.

(** * backend/rag.py *)
Module rag.

Definition system_prompt : string :=
  "You are an expert QA automation engineer specializing in documentation-grounded test case generation.

CRITICAL RULES:
1. Generate test cases ONLY based on features explicitly mentioned in the provided documentation
2. Every test case MUST reference its source document(s) in the " +:+ dq +:+ "Grounded_In" +:+ dq +:+ " field
3. Do NOT hallucinate features, functionality, or behaviors not described in the docs
4. If information is insufficient, generate fewer test cases rather than making assumptions
5. Include both positive and negative test cases where documentation supports them
6. Use actual UI element names and flows from the documentation

IMPORTANT: You MUST respond with ONLY valid JSON. No explanation, no markdown, no code blocks. Just pure JSON.

OUTPUT FORMAT:
Return a valid JSON array of test case objects. Each test case must have:
[
  {
    " +:+ dq +:+ "Test_ID" +:+ dq +:+ ": " +:+ dq +:+ "TC-001" +:+ dq +:+ ",
    " +:+ dq +:+ "Feature" +:+ dq +:+ ": " +:+ dq +:+ "Feature name from docs" +:+ dq +:+ ",
    " +:+ dq +:+ "Test_Scenario" +:+ dq +:+ ": " +:+ dq +:+ "Clear scenario description" +:+ dq +:+ ",
    " +:+ dq +:+ "Steps" +:+ dq +:+ ": [" +:+ dq +:+ "Step 1" +:+ dq +:+ ", " +:+ dq +:+ "Step 2" +:+ dq +:+ "],
    " +:+ dq +:+ "Expected_Result" +:+ dq +:+ ": " +:+ dq +:+ "Expected outcome based on docs" +:+ dq +:+ ",
    " +:+ dq +:+ "Grounded_In" +:+ dq +:+ ": [" +:+ dq +:+ "document_name.md" +:+ dq +:+ "]
  }
]

RESPONSE: Start with [ and end with ] only. No markdown formatting.".

Definition user_prompt (user_query context : string) (source_docs : list string)
    : string :=
  "Based on the following documentation excerpts, "
    +:+ user_query
    +:+ "

DOCUMENTATION CONTEXT:
"
    +:+ context
    +:+ "

AVAILABLE SOURCE DOCUMENTS:
"
    +:+ join ", " source_docs
    +:+ "

Generate test cases as a JSON array. Remember:
- Only use features explicitly mentioned in the documentation
- Reference source documents in " +:+ dq +:+ "Grounded_In" +:+ dq +:+ "
- Include test IDs starting from TC-001
- Focus on quality over quantity".

(** [results['metadatas'][0][idx]] *)
Definition metadata_at (results : query_result) (idx : nat) : result pyval :=
  match metadatas results with
  | None => Raise (Exn TypeError "'NoneType' object is not subscriptable")
  | Some [] => Raise (Exn IndexError "list index out of range")
  | Some (mds :: _) =>
      match mds !! idx with
      | None => Raise (Exn IndexError "list index out of range")
      | Some None => Ok PyNone
      | Some (Some md) => Ok (PyDict md)
      end
  end.

(** [results['distances'][0][idx] if results.get('distances') else None] *)
Definition distance_at (results : query_result) (idx : nat) : result pyval :=
  match distances results with
  | None | Some [] => Ok PyNone
  | Some (ds :: _) =>
      match ds !! idx with
      | None => Raise (Exn IndexError "list index out of range")
      | Some d => Ok (PyFloat d)
      end
  end.

(** The loop of [retrieve_context] over [range(len(documents[0]))]. *)
Fixpoint retrieved_from (results : query_result) (idx : nat) (docs : list string)
    : result (list pydict) :=
  match docs with
  | [] => Ok []
  | doc :: rest =>
      metadata ← metadata_at results idx;
      distance ← distance_at results idx;
      chunks ← retrieved_from results (S idx) rest;
      Ok ([("text", PyStr doc); ("metadata", metadata); ("distance", distance)]
          :: chunks)
  end.

Definition retrieve_context `{Environment} (collection : Collection)
    (query : string) (top_k : nat) : result (list pydict) :=
  embeddings ← encode [query];
  query_embedding ← getitem0 embeddings;
  results ← collection_query collection query_embedding top_k None;
  match documents results with
  | Some (docs :: _) => retrieved_from results 0 docs
  | _ => Ok []
  end.

(** [v.get(k, default)]; only a dictionary has the method. *)
Definition method_get (v : pyval) (k : string) (default : pyval) : result pyval :=
  match v with
  | PyDict d => Ok (dict_get k default d)
  | _ => Raise (Exn AttributeError
                  ("'" +:+ type_name v +:+ "' object has no attribute 'get'"))
  end.

(** [chunk['metadata'].get(k, 'unknown')] *)
Definition metadata_get (chunk : pydict) (k : string) : result pyval :=
  md ← dict_getitem "metadata" chunk;
  method_get md k (PyStr "unknown").

(** The loop of [compile_context] over [enumerate(chunks, 1)], from [idx]. *)
Fixpoint context_parts `{Environment} (idx : nat) (chunks : list pydict)
    : result (list string) :=
  match chunks with
  | [] => Ok []
  | chunk :: rest =>
      source ← metadata_get chunk "source_document";
      doc_type ← metadata_get chunk "doc_type";
      text ← dict_getitem "text" chunk;
      parts ← context_parts (S idx) rest;
      Ok (("[Source " +:+ pretty idx +:+ ": " +:+ py_str container_repr source
           +:+ " (" +:+ py_str container_repr doc_type +:+ ")]" +:+ nl
           +:+ py_str container_repr text +:+ nl) :: parts)
  end.

Definition compile_context `{Environment} (chunks : list pydict) : result string :=
  parts ← context_parts 1 chunks;
  Ok (join (nl +:+ "---" +:+ nl) parts).

(** The strings among [vs] when all of them are strings. *)
Fixpoint all_str (vs : list pyval) : option (list string) :=
  match vs with
  | [] => Some []
  | PyStr s :: vs' => cons s <$> all_str vs'
  | _ => None
  end.

(** The strings of [vs] before its first item that is not a string. *)
Fixpoint leading_strs (vs : list pyval) : list string :=
  match vs with
  | PyStr s :: vs' => s :: leading_strs vs'
  | _ => []
  end.

Definition is_str (v : pyval) : bool :=
  match v with PyStr _ => true | _ => false end.

(** [source_docs], as [', '.join(source_docs)] needs it.  The values are
    collected first; [set] raises [TypeError] on the first list or
    dictionary among them, which it cannot hash, and the join raises
    [TypeError] on an item that is not a string.  The set is listed here
    in order of first occurrence.  Python's order follows the hashes: the
    names are the same, but the position in the text of the join's
    exception (and the type it names, when several items are not strings)
    is the one of this order. *)
Definition source_docs (chunks : list pydict) : result (list string) :=
  sources ← mapM (λ chunk, metadata_get chunk "source_document") chunks;
  match List.find is_container sources with
  | Some v => Raise (Exn TypeError ("unhashable type: '" +:+ type_name v +:+ "'"))
  | None =>
      match all_str sources with
      | Some names => Ok (remove_dups names)
      | None =>
          let idx := length (remove_dups (leading_strs sources)) in
          let item := default PyNone (List.find (λ v, negb (is_str v)) sources) in
          Raise (Exn TypeError ("sequence item " +:+ pretty idx
                                +:+ ": expected str instance, " +:+ type_name item
                                +:+ " found"))
      end
  end.

Definition required_fields : list string :=
  ["Test_ID"; "Feature"; "Test_Scenario"; "Expected_Result"; "Grounded_In"].

(** [field in v]: key lookup on a dictionary, membership on a list,
    substring test on a string, [TypeError] on anything else. *)
Definition py_in (field : string) (v : pyval) : result bool :=
  match v with
  | PyDict d => Ok (dict_has field d)
  | PyList l => Ok (existsb (λ x, match x with
                                  | PyStr s => String.eqb s field
                                  | _ => false
                                  end) l)
  | PyStr s => Ok (str_in field s)
  | _ => Raise (Exn TypeError
                  ("argument of type '" +:+ type_name v +:+ "' is not iterable"))
  end.

(** [all(field in v for field in fields)], left to right. *)
Fixpoint all_in (fields : list string) (v : pyval) : result bool :=
  match fields with
  | [] => Ok true
  | field :: rest =>
      b ← py_in field v;
      if b : bool then all_in rest v else Ok false
  end.

Definition _validate_test_case (test_case : pyval) : result bool :=
  all_in required_fields test_case.

(** What [for tc in v] ranges over. *)
Definition py_iter (v : pyval) : result (list pyval) :=
  match v with
  | PyList l => Ok l
  | PyDict d => Ok (map (λ kv, PyStr kv.1) d)
  | PyStr s => Ok (map PyStr (chars s))
  | _ => Raise (Exn TypeError ("'" +:+ type_name v +:+ "' object is not iterable"))
  end.

(** The validation loop. *)
Fixpoint validated_cases (test_cases : list pyval) : result (list pyval) :=
  match test_cases with
  | [] => Ok []
  | tc :: rest =>
      ok ← _validate_test_case tc;
      kept ← validated_cases rest;
      Ok (if ok : bool then tc :: kept else kept)
  end.

(** Lines 125-128: the markdown fences are removed. *)
Definition clean_content (content : string) : string :=
  if startswith content "```json" then
    strip (replace (replace content "```json" "") "```" "")
  else if startswith content "```" then
    strip (replace content "```" "")
  else content.

(** Lines 132-139: the candidates taken from the parsed value. *)
Definition select_test_cases (parsed : pyval) : pyval :=
  match parsed with
  | PyDict d =>
      match dict_lookup "test_cases" d, dict_lookup "testCases" d with
      | Some v, _ => v
      | None, Some v => v
      | None, None => PyList [parsed]
      end
  | PyList _ => parsed
  | _ => PyList []
  end.

Definition parse_error_case (je : exn) (content : string) : pyval :=
  PyDict
    [("Test_ID", PyStr "ERROR");
     ("Feature", PyStr "Parse Error");
     ("Test_Scenario", PyStr ("Failed to parse LLM response: " +:+ exn_str je));
     ("Steps", PyList [PyStr "Check LLM output format";
                       PyStr ("Raw content: " +:+ slice_to 200 content)]);
     ("Expected_Result", PyStr "Valid JSON");
     ("Grounded_In", PyList [PyStr "system_error"])].

Definition generation_error_case (e : exn) : pyval :=
  PyDict
    [("Test_ID", PyStr "ERROR");
     ("Feature", PyStr "Generation Error");
     ("Test_Scenario", PyStr ("Failed to generate test cases: " +:+ exn_str e));
     ("Steps", PyList [PyStr "Check API key"; PyStr "Check connection"]);
     ("Expected_Result", PyStr "Successful generation");
     ("Grounded_In", PyList [PyStr "system_error"])].

(** The inner [try], given the cleaned content. *)
Definition parse_and_validate `{Environment} (content : string)
    : result (list pyval) :=
  try_except_class JSONDecodeError
    (parsed ← json_loads content;
     test_cases ← py_iter (select_test_cases parsed);
     validated_cases test_cases)
    (λ je, Ok [parse_error_case je content]).

(** Lines 71-114, which run before the [try]: the context, the source
    names and the user prompt. *)
Definition build_prompt `{Environment} (user_query : string)
    (retrieved_chunks : list pydict) : result string :=
  context ← compile_context retrieved_chunks;
  docs ← source_docs retrieved_chunks;
  Ok (user_prompt user_query context docs).

Definition generate_test_cases `{Environment} (user_query : string)
    (retrieved_chunks : list pydict) : result (list pyval) :=
  prompt ← build_prompt user_query retrieved_chunks;
  try_except
    (content ← generate_content system_prompt prompt;
     parse_and_validate (clean_content content))
    (λ e, Ok [generation_error_case e]).

(** [test_case.get("Grounded_In", [])] *)
Definition get_sources_for_test_case (test_case : pydict) : pyval :=
  dict_get "Grounded_In" (PyList []) test_case.

End rag.

(** * backend/script_generation.py *)
Module script_generation.

Definition system_prompt : string :=
  "You are an expert Selenium automation engineer specializing in writing clean, production-ready test scripts.

CRITICAL REQUIREMENTS:
1. Use ONLY selectors found in the provided HTML selector context
2. Implement WebDriverWait for all element interactions (explicit waits)
3. Include proper error handling and logging
4. Use modular functions with clear docstrings
5. Add comments linking steps back to documentation
6. Use Chrome WebDriver with proper initialization
7. Make scripts runnable and self-contained
8. Follow Python best practices (PEP 8)

SCRIPT STRUCTURE:
- Import statements
- Helper functions
- Main test function (run_test)
- WebDriver setup with proper configuration
- Clean teardown

OUTPUT:
Generate a complete, runnable Python script. Do not add markdown code fences or explanations - just pure Python code.".

Definition user_prompt (test_case_str selector_context doc_context : string)
    : string :=
  "Generate a Selenium Python script for this test case:

TEST CASE:
"
    +:+ test_case_str
    +:+ "

HTML SELECTORS (use these exact selectors):
"
    +:+ selector_context
    +:+ "

DOCUMENTATION CONTEXT:
"
    +:+ doc_context
    +:+ "

Requirements:
- Use WebDriverWait with explicit waits (10-20 seconds timeout)
- Match selectors from the HTML context exactly
- Include comments referencing the source documents from Grounded_In
- Implement the test steps precisely as described
- Add assertions for the expected result
- Handle potential errors gracefully
- Make the script production-ready and executable

Generate the complete Python script now.".

Definition header (test_id feature grounded_in : string) : string :=
  "#!/usr/bin/env python3
# Auto-generated Selenium test script
# Test ID: "
    +:+ test_id
    +:+ "
# Feature: "
    +:+ feature
    +:+ "
# Grounded in: "
    +:+ grounded_in
    +:+ "

".

Definition error_script (e : exn) (test_id feature : string) : string :=
  "#!/usr/bin/env python3
# ERROR: Failed to generate script
# Error: "
    +:+ exn_str e
    +:+ "

from selenium import webdriver
from selenium.webdriver.common.by import By
from selenium.webdriver.support.ui import WebDriverWait
from selenium.webdriver.support import expected_conditions as EC

def run_test():
    '''
    Test ID: "
    +:+ test_id
    +:+ "
    Feature: "
    +:+ feature
    +:+ "
    
    ERROR: Script generation failed. Please check:
    1. Gemini API key is set correctly
    2. Network connection is stable
    3. API quota is available
    
    Error details: "
    +:+ exn_str e
    +:+ "
    '''
    print(" +:+ dq +:+ "ERROR: Script generation failed" +:+ dq +:+ ")
    print(" +:+ dq +:+ "Error details: "
    +:+ exn_str e
    +:+ "" +:+ dq +:+ ")

if __name__ == " +:+ dq +:+ "__main__" +:+ dq +:+ ":
    run_test()
".

(** [results['documents'][0]] when [results['documents']] is a non-empty
    list, nothing otherwise. *)
Definition first_documents (results : query_result) : list string :=
  match documents results with
  | Some (docs :: _) => docs
  | _ => []
  end.

(** [self.collection] is [None] when the knowledge base does not exist. *)
Definition retrieve_html_selectors `{Environment} (collection : option Collection)
    : result string :=
  match collection with
  | None => Ok ""
  | Some c =>
      let query := "HTML selectors buttons inputs forms cart payment shipping discount" in
      embeddings ← encode [query];
      query_embedding ← getitem0 embeddings;
      results ← collection_query c query_embedding 5
                  (Some [("doc_type", PyStr "html_dom")]);
      Ok (foldl (λ selector_context doc, selector_context +:+ doc +:+ nl +:+ nl)
                "" (first_documents results))
  end.

(** [results['metadatas'][0][idx].get('source_document', 'unknown')] *)
Definition source_at (results : query_result) (idx : nat) : result pyval :=
  match metadatas results with
  | None => Raise (Exn TypeError "'NoneType' object is not subscriptable")
  | Some [] => Raise (Exn IndexError "list index out of range")
  | Some (mds :: _) =>
      match mds !! idx with
      | None => Raise (Exn IndexError "list index out of range")
      | Some None =>
          Raise (Exn AttributeError "'NoneType' object has no attribute 'get'")
      | Some (Some md) => Ok (dict_get "source_document" (PyStr "unknown") md)
      end
  end.

(** The loop of [retrieve_relevant_docs] over [enumerate(documents[0])]. *)
Fixpoint doc_context_loop `{Environment} (results : query_result) (idx : nat)
    (docs : list string) (doc_context : string) : result string :=
  match docs with
  | [] => Ok doc_context
  | doc :: rest =>
      source ← source_at results idx;
      doc_context_loop results (S idx) rest
        (doc_context +:+ "[" +:+ py_str container_repr source +:+ "]" +:+ nl
           +:+ doc +:+ nl +:+ nl)
  end.

Definition retrieve_relevant_docs `{Environment} (collection : option Collection)
    (test_case : pydict) : result string :=
  match collection with
  | None => Ok ""
  | Some c =>
      let query := py_str container_repr (dict_get "Feature" (PyStr "") test_case)
                   +:+ " " +:+
                   py_str container_repr (dict_get "Test_Scenario" (PyStr "") test_case) in
      embeddings ← encode [query];
      query_embedding ← getitem0 embeddings;
      results ← collection_query c query_embedding 3 None;
      doc_context_loop results 0 (first_documents results) ""
  end.

(** The first item that is not a string, with its position. *)
Fixpoint first_non_str (idx : nat) (items : list pyval) : option (nat * pyval) :=
  match items with
  | [] => None
  | PyStr _ :: rest => first_non_str (S idx) rest
  | v :: _ => Some (idx, v)
  end.

(** [', '.join(v)]: [v] must be iterable, with its own text for the
    [TypeError] when it is not, and every item must be a string. *)
Definition join_value (sep : string) (v : pyval) : result string :=
  items ← try_except (rag.py_iter v)
             (λ _, Raise (Exn TypeError "can only join an iterable"));
  match rag.all_str items, first_non_str 0 items with
  | Some strs, _ => Ok (join sep strs)
  | None, Some (idx, item) =>
      Raise (Exn TypeError ("sequence item " +:+ pretty idx
                            +:+ ": expected str instance, " +:+ type_name item
                            +:+ " found"))
  | None, None => Raise (Exn TypeError "expected str instance")
  end.

(** Lines 125-128: the markdown fences are removed. *)
Definition clean_script (script : string) : string :=
  if startswith script "```python" then
    strip (replace (replace script "```python" "") "```" "")
  else if startswith script "```" then
    strip (replace script "```" "")
  else script.

Definition generate_script `{Environment} (collection : option Collection)
    (test_case : pydict) : result string :=
  selector_context ← retrieve_html_selectors collection;
  doc_context ← retrieve_relevant_docs collection test_case;
  let test_case_str := json_dumps (PyDict test_case) in
  let prompt := user_prompt test_case_str selector_context doc_context in
  let test_id := py_str container_repr (dict_get "Test_ID" (PyStr "Unknown") test_case) in
  let feature := py_str container_repr (dict_get "Feature" (PyStr "Unknown") test_case) in
  try_except
    (script ← generate_content system_prompt prompt;
     let script := clean_script script in
     grounded_in ← join_value ", " (dict_get "Grounded_In" (PyList []) test_case);
     Ok (header test_id feature grounded_in +:+ script))
    (λ e, Ok (error_script e test_id feature)).

End script_generation.

(** * A reference environment

    One concrete choice of the external collaborators, used to run the
    model on examples. *)
Module reference.

(** The split of a file name at its last dot. *)
Fixpoint last_dot (s : string) : option (string * string) :=
  match s with
  | "" => None
  | String c s' =>
      match last_dot s' with
      | Some (a, b) => Some (String c a, b)
      | None => if Ascii.eqb c "." then Some ("", s) else None
      end
  end.

(** [pathlib]: the suffix starts at the last dot of the name, unless that
    dot is the first or the last character. *)
Definition split_ext (name : string) : string * string :=
  match last_dot name with
  | Some (String c a, String d (String e b)) => (String c a, String d (String e b))
  | _ => (name, "")
  end.

Definition pay_button_html : string :=
  "<button id=" +:+ dq +:+ "pay-btn" +:+ dq +:+ " class=" +:+ dq +:+ "cart-btn"
    +:+ dq +:+ ">Pay</button>".

Definition pay_button : Tag :=
  {| tag_name := "button"; attr_id := Some "pay-btn"; attr_name := None;
     attr_class := Some (AList ["cart-btn"]); attr_type := None;
     attr_data_test := None; tag_text := "Pay" |}.

Definition zip_code_input : Tag :=
  {| tag_name := "input"; attr_id := Some "zip-code"; attr_name := None;
     attr_class := None; attr_type := Some "text";
     attr_data_test := None; tag_text := "" |}.

Definition valid_case : pydict :=
  [("Test_ID", PyStr "TC-001"); ("Feature", PyStr "Cart");
   ("Test_Scenario", PyStr "Add an item"); ("Steps", PyList [PyStr "Click add"]);
   ("Expected_Result", PyStr "Item is in the cart");
   ("Grounded_In", PyList [PyStr "spec.md"])].

(** The same record without [Grounded_In]. *)
Definition ungrounded_case : pydict :=
  [("Test_ID", PyStr "TC-002"); ("Feature", PyStr "Cart");
   ("Test_Scenario", PyStr "Remove an item");
   ("Expected_Result", PyStr "Cart is empty")].

(** JSON text of a value whose strings need no escape. *)
Fixpoint render (v : pyval) : string :=
  match v with
  | PyNone => "null"
  | PyBool true => "true"
  | PyBool false => "false"
  | PyInt z => pretty z
  | PyFloat r => r
  | PyStr s => dq +:+ s +:+ dq
  | PyList items => "[" +:+ join ", " (map render items) +:+ "]"
  | PyDict entries =>
      "{" +:+ join ", " (map (λ '(k, v), dq +:+ k +:+ dq +:+ ": " +:+ render v) entries)
        +:+ "}"
  end.

(** The values the reference JSON reader recognises. *)
Definition known_values : list pyval :=
  [PyList [];
   PyList [PyDict valid_case; PyDict ungrounded_case];
   PyList [PyDict valid_case; PyInt 5];
   PyDict [("test_cases", PyList [PyDict valid_case])]].

(** A JSON reader that knows the texts of [known_values] and rejects every
    other text. *)
Definition loads (s : string) : result pyval :=
  match List.find (λ v, String.eqb (render v) s) known_values with
  | Some v => Ok v
  | None => Raise (Exn JSONDecodeError "Expecting value: line 1 column 1 (char 0)")
  end.

(** The environment in which the text-generation backend is [backend] and
    the vector store answers [store_query]. *)
Definition env (backend : string → string → result string)
    (store_query : result query_result) : Environment :=
  {| container_repr := λ _, "[...]";
     path_suffix := λ s, (split_ext s).2;
     path_stem := λ s, (split_ext s).1;
     json_loads := loads;
     json_dumps := render;
     soup_find_all := λ html,
       if String.eqb html pay_button_html then [pay_button]
       else if String.eqb html "zip" then [pay_button; zip_code_input]
       else [];
     soup_get_text := λ html, html;
     markdown_get_text := λ s, s;
     fitz_get_text := λ _, Raise (Exn LibraryError "cannot open broken document");
     decode_utf8 := λ b, Ok (string_of_list_byte b);
     decode_utf8_ignore := string_of_list_byte;
     split_text := String.words;
     generate_content := backend;
     Embedding := unit;
     encode := λ texts, Ok (map (λ _, ()) texts);
     Collection := list string;
     collection_add := λ c ids _ _ _, (c ++ ids, None);
     collection_query := λ _ _ _ _, store_query |}.

Definition empty_store : list string := [].

Definition no_results : query_result :=
  {| documents := Some [[]]; metadatas := Some [[]]; distances := Some [[]] |}.

(** One hit, whose entry was stored without metadata. *)
Definition orphan_hit : query_result :=
  {| documents := Some [["Pay now"]]; metadatas := Some [[None]];
     distances := Some [["0.5"]] |}.

(** The backend is down. *)
Definition offline : Environment :=
  env (λ _ _, Raise (Exn LibraryError "429 quota exceeded")) (Ok no_results).

(** The backend answers [reply]. *)
Definition replying (reply : string) : Environment :=
  env (λ _ _, Ok reply) (Ok no_results).

(** The backend is down and the store answers [orphan_hit]. *)
Definition orphaned : Environment :=
  env (λ _ _, Raise (Exn LibraryError "429 quota exceeded")) (Ok orphan_hit).

(** The vector store raises on every query. *)
Definition store_down : Environment :=
  env (λ _ _, Ok "pass") (Raise (Exn LibraryError "collection does not exist")).

End reference.

(** * Vocabulary of the statements *)

Section vocabulary.
Context `{Environment}.
Import selectors ingest rag.

(** The line [_flatten_json] writes for a scalar entry at top level. *)
Definition flat_line (kv : string * pyval) : string :=
  kv.1 +:+ ": " +:+ py_str container_repr kv.2.

(** An object none of whose values is an object or an array. *)
Definition flat_object (d : pydict) : Prop :=
  Forall (λ kv, is_container kv.2 = false) d.

(** The [element_info] built for an element; it does not depend on the
    catalogue collected so far. *)
Definition info_of (e : Tag) : element_info :=
  (element_step empty_selectors_data e).2.

(** [needle] occurs in [s] up to letter case. *)
Definition contains_ci (needle s : string) : Prop :=
  ∃ a w b, s = a +:+ w +:+ b ∧ lower w = lower needle.

(** The extensions [parse_document] has a branch for. *)
Definition supported : list string :=
  [".pdf"; ".md"; ".txt"; ".json"; ".html"; ".htm"].

(** What running [file_body] on a file leaves in [files_processed]. *)
Definition entry_for (file : upload) (r : result (doc_type * nat)) : file_entry :=
  match r with
  | Ok (ty, n) => Processed file.2 ty n
  | Raise e => Failed file.2 (exn_str e)
  end.

(** The entries a batch leaves, each file run from the state the files
    before it have left. *)
Fixpoint entries_of (files : list upload) (s : ingestion) : list file_entry :=
  match files with
  | [] => []
  | file :: rest =>
      entry_for file (file_body file s).2 :: entries_of rest (file_body file s).1
  end.

(** The state a batch leaves. *)
Fixpoint state_after (files : list upload) (s : ingestion) : ingestion :=
  match files with
  | [] => s
  | file :: rest => state_after rest (file_body file s).1
  end.

(** [c] occurs in [s]. *)
Fixpoint has_char (c : ascii) (s : string) : bool :=
  match s with
  | "" => false
  | String x s' => Ascii.eqb x c || has_char c s'
  end.

(** The identifier [{stem}_{counter}]. *)
Definition make_id (k : string * nat) : string := k.1 +:+ "_" +:+ pretty k.2.

(** An identifier list produced with pairwise distinct counter values, none
    above the current counter. *)
Definition counted (s : ingestion) : Prop :=
  ∃ ks : list (string * nat),
    map chunk_id (produced s) = map make_id ks
    ∧ NoDup (map snd ks)
    ∧ Forall (λ k, k.2 ≤ chunk_counter s) ks.

(** No occurrence of [old] begins inside [body] when [rest] follows it. *)
Fixpoint no_match_in (old body rest : string) : bool :=
  match body with
  | "" => true
  | String _ body' =>
      negb (String.prefix old (body +:+ rest)) && no_match_in old body' rest
  end.

(** Text made of blank characters only. *)
Fixpoint blank (s : string) : bool :=
  match s with
  | "" => true
  | String c s' => is_space c && blank s'
  end.

(** A reply wrapped in a markdown fence, and the text inside the fence:
    the reply starts with the opening fence, with or without the [json]
    tag, the closing fence is the first fence marker after it, and only
    blank space follows the closing fence. *)
Inductive fenced : string → string → Prop :=
  | fenced_json body tail :
      no_match_in "```" body "```" = true →
      blank tail = true →
      fenced ("```json" +:+ body +:+ "```" +:+ tail) body
  | fenced_plain body tail :
      no_match_in "```" body "```" = true →
      blank tail = true →
      startswith ("```" +:+ body +:+ "```" +:+ tail) "```json" = false →
      fenced ("```" +:+ body +:+ "```" +:+ tail) body.

(** The number of backticks a text starts with. *)
Fixpoint ticks (s : string) : nat :=
  match s with
  | "" => 0
  | String c s' => if ascii_dec "`" c then S (ticks s') else 0
  end.


(** The test [_validate_test_case] makes where it does not raise. *)
Definition has_fields (v : pyval) : bool :=
  match rag._validate_test_case v with
  | Ok b => b
  | Raise _ => false
  end.

(** The values on which [field in v] is defined. *)
Definition iterable (v : pyval) : bool :=
  match v with
  | PyDict _ | PyList _ | PyStr _ => true
  | _ => false
  end.

(** A chunk as [retrieve_context] builds it from the knowledge base this
    code writes: a text and a metadata dictionary whose source document,
    when present, is a string. *)
Definition well_formed_chunk (chunk : pydict) : Prop :=
  ∃ md source text,
    dict_lookup "metadata" chunk = Some (PyDict md)
    ∧ dict_get "source_document" (PyStr "unknown") md = PyStr source
    ∧ dict_lookup "text" chunk = Some text.

(** The diagnostic test case for failure [e]: its [Test_Scenario] ends with
    the text of [e] and its [Grounded_In] is [["system_error"]]. *)
Definition diagnostic_for (e : exn) (v : pyval) : Prop :=
  ∃ d intro,
    v = PyDict d
    ∧ dict_lookup "Test_Scenario" d = Some (PyStr (intro +:+ exn_str e))
    ∧ dict_lookup "Grounded_In" d = Some (PyList [PyStr "system_error"]).

(** How many times [_categorize_semantic] appends an element to a bucket:
    once per check of the bucket that fires. *)
Definition hits (b : bucket) (e : Tag) : nat :=
  match b with
  | buttons =>
      Nat.b2n (String.eqb (tag_name e) "button"
               || bool_decide (attr_type e = Some "button")
               || bool_decide (attr_type e = Some "submit"))
  | inputs =>
      Nat.b2n (String.eqb (tag_name e) "input"
               || String.eqb (tag_name e) "textarea"
               || String.eqb (tag_name e) "select")
  | forms => Nat.b2n (String.eqb (tag_name e) "form")
  | cart_elements =>
      Nat.b2n (any_in ["cart"; "add to cart"; "quantity"] (lower (tag_text e)))
      + Nat.b2n (any_in ["cart"; "qty"; "quantity"; "total"] (ids_text e))
  | payment_elements =>
      Nat.b2n (any_in ["payment"; "pay"; "credit"; "paypal"] (lower (tag_text e)))
      + Nat.b2n (any_in ["payment"; "pay"] (ids_text e))
  | shipping_elements =>
      Nat.b2n (any_in ["shipping"; "standard"; "express"; "delivery"]
                 (lower (tag_text e)))
      + Nat.b2n (any_in ["shipping"; "delivery"] (ids_text e))
  | discount_elements =>
      Nat.b2n (any_in ["discount"; "coupon"; "promo"] (lower (tag_text e)))
      + Nat.b2n (any_in ["discount"; "coupon"; "promo"; "code"] (ids_text e))
  | validation_elements =>
      Nat.b2n (any_in ["error"; "invalid"; "validation"] (lower (class_text e)))
  end.

(** The selectors of one element, by attribute. *)
Definition id_selectors (e : Tag) : list string :=
  match truthy (attr_id e) with Some v => ["#" +:+ v] | None => [] end.

Definition name_selectors (e : Tag) : list string :=
  match truthy (attr_name e) with
  | Some v => ["[name='" +:+ v +:+ "']"]
  | None => []
  end.

Definition class_selectors (e : Tag) : list string :=
  map (λ cls, "." +:+ cls) (class_tokens e).

Definition data_test_selectors (e : Tag) : list string :=
  match truthy (attr_data_test e) with
  | Some v => ["[data-test='" +:+ v +:+ "']"]
  | None => []
  end.

(** All the selectors of an element, in the order the code records them. *)
Definition element_selectors (e : Tag) : list string :=
  id_selectors e ++ name_selectors e ++ class_selectors e ++ data_test_selectors e.

(** The three lists [record_selector] extends, read off a loop state. *)
Definition recorded (st : selectors_data * element_info) (ty : selector_type)
    : list string * list string * list string :=
  (all_selectors st.1, by_type st.1 ty, ei_selectors st.2).

Definition selectors_of (ty : selector_type) (e : Tag) : list string :=
  match ty with
  | ids => id_selectors e
  | names => name_selectors e
  | classes => class_selectors e
  | data_test => data_test_selectors e
  end.

(** The number of files a list of entries reports as processed, the
    chunks it reports as stored, and the files it reports under a tag. *)
Definition count_processed (entries : list file_entry) : nat :=
  length (List.filter (λ e, match e with Processed _ _ _ => true | _ => false end)
            entries).

Fixpoint stored_chunks (entries : list file_entry) : nat :=
  match entries with
  | [] => 0
  | Processed _ _ n :: rest => n + stored_chunks rest
  | Failed _ _ :: rest => stored_chunks rest
  end.

Definition count_tagged (ty : doc_type) (entries : list file_entry) : nat :=
  length (List.filter (λ e, match e with
                            | Processed _ ty' _ => bool_decide (ty' = ty)
                            | _ => false
                            end) entries).

(** [d.get(k, 0)] on the [doc_types] dictionary. *)
Fixpoint doc_count (k : doc_type) (d : list (doc_type * nat)) : nat :=
  match d with
  | [] => 0
  | (k', n) :: d' => if decide (k' = k) then n else doc_count k d'
  end.

(** The statistics agree with the entries of [files_processed]. *)
Definition consistent (st : stats) : Prop :=
  total_files st = count_processed (files_processed st)
  ∧ total_chunks st = stored_chunks (files_processed st)
  ∧ NoDup (map fst (doc_types st))
  ∧ ∀ ty, doc_count ty (doc_types st) = count_tagged ty (files_processed st).

(** The line [_flatten_json] writes for a scalar entry under a prefix, and
    for a scalar item of an array. *)
Definition dotted_line (prefix : string) (kv : string * pyval) : string :=
  prefix +:+ "." +:+ kv.1 +:+ ": " +:+ py_str container_repr kv.2.

Definition indexed_line (prefix : string) (idx : nat) (item : pyval) : string :=
  prefix +:+ "[" +:+ pretty idx +:+ "]" +:+ ": " +:+ py_str container_repr item.

(** A chunk [compile_context] can render: it has a text and a metadata
    dictionary. *)
Definition compilable (chunk : pydict) : Prop :=
  ∃ md text, dict_lookup "metadata" chunk = Some (PyDict md)
             ∧ dict_lookup "text" chunk = Some text.

(** The block of the context for the chunk at rank [idx]; a missing source
    or tag reads [unknown]. *)
Definition chunk_block (idx : nat) (chunk : pydict) : string :=
  let md := match dict_lookup "metadata" chunk with
            | Some (PyDict md) => md
            | _ => []
            end in
  "[Source " +:+ pretty idx +:+ ": "
    +:+ py_str container_repr (dict_get "source_document" (PyStr "unknown") md)
    +:+ " ("
    +:+ py_str container_repr (dict_get "doc_type" (PyStr "unknown") md)
    +:+ ")]" +:+ nl
    +:+ py_str container_repr (default PyNone (dict_lookup "text" chunk)) +:+ nl.

(** A chunk as [retrieve_context] builds it: the three keys, in this
    order, with a string for the text. *)
Definition retrieved_shape (chunk : pydict) : Prop :=
  ∃ doc md dist,
    chunk = [("text", PyStr doc); ("metadata", md); ("distance", dist)]
    ∧ (md = PyNone ∨ ∃ d, md = PyDict d)
    ∧ (dist = PyNone ∨ ∃ r, dist = PyFloat r).

(** The block [retrieve_relevant_docs] writes for the document at rank
    [idx], given the metadata list of the answer. *)
Definition doc_block (mds : list (option pydict)) (idx : nat) (doc : string)
    : string :=
  let md := match mds !! idx with Some (Some md) => md | _ => [] end in
  "[" +:+ py_str container_repr (dict_get "source_document" (PyStr "unknown") md)
    +:+ "]" +:+ nl +:+ doc +:+ nl +:+ nl.

(** The query [retrieve_relevant_docs] embeds for a test case. *)
Definition docs_query (test_case : pydict) : string :=
  py_str container_repr (dict_get "Feature" (PyStr "") test_case) +:+ " " +:+
  py_str container_repr (dict_get "Test_Scenario" (PyStr "") test_case).

(** Two objects that have counted and produced the same chunks. *)
Definition same_chunks (s s' : ingestion) : Prop :=
  chunk_counter s = chunk_counter s' ∧ produced s = produced s'.

(** The metadata and the distances an answer gives for its first query:
    no metadata when the list is missing or empty, no distances when
    [results.get('distances')] is falsy. *)
Definition first_metadatas (results : query_result) : list (option pydict) :=
  match metadatas results with
  | Some (mds :: _) => mds
  | _ => []
  end.

Definition first_distances (results : query_result) : option (list string) :=
  match distances results with
  | Some (ds :: _) => Some ds
  | _ => None
  end.

(** The chunk for the document at rank [i] of an answer: the document, the
    metadata of that rank ([None] for an entry stored without) and the
    distance of that rank ([None] when the answer has no distances). *)
Definition ranked_chunk (results : query_result) (i : nat) (doc : string)
    : pydict :=
  [("text", PyStr doc);
   ("metadata", match first_metadatas results !! i with
                | Some (Some md) => PyDict md
                | _ => PyNone
                end);
   ("distance", match first_distances results with
                | Some ds => from_option PyFloat PyNone (ds !! i)
                | None => PyNone
                end)].

End vocabulary.

(** Sample data for runs in the reference environment. *)

Definition retrieved_chunk : pydict :=
  [("text", PyStr "The cart shows a total.");
   ("metadata", PyDict [("source_document", PyStr "spec.md");
                        ("doc_type", PyStr "spec"); ("chunk_index", PyInt 0)]);
   ("distance", PyFloat "0.25")].

(** A chunk whose entry was stored without metadata. *)
Definition orphan_chunk : pydict :=
  [("text", PyStr "Pay now"); ("metadata", PyNone); ("distance", PyFloat "0.5")].





(** An empty array in a fence whose tag is in capitals. *)
Definition capital_tag_reply : string :=
  "```JSON" +:+ nl +:+ "[]" +:+ nl +:+ "```".

(** A chunk as [chunk_text] builds it, and the answer of a store that
    holds it as [embed_and_store] writes it. *)
Definition stored_chunk : ingest.chunk :=
  {| ingest.chunk_id := "spec_1"; ingest.text := "The cart shows a total.";
     ingest.source_document := "spec.md"; ingest.chunk_doc_type := ingest.spec;
     ingest.chunk_index := 0; ingest.has_selectors := None |}.

Definition stored_hit : query_result :=
  {| documents := Some [[ingest.text stored_chunk]];
     metadatas := Some [[Some (ingest.chunk_metadata stored_chunk)]];
     distances := Some [["0.25"]] |}.

(** The backend is down and the store answers [stored_hit]. *)
Definition stocked : Environment :=
  reference.env (λ _ _, Raise (Exn LibraryError "429 quota exceeded"))
    (Ok stored_hit).

(** A record whose sources are not all strings. *)
Definition numbered_sources_case : pydict :=
  [("Test_ID", PyStr "TC-003"); ("Feature", PyStr "Cart");
   ("Grounded_In", PyList [PyStr "spec.md"; PyInt 3])].

(** An array with a complete record and one without [Grounded_In]. *)
Definition two_records_reply : string :=
  reference.render (PyList [PyDict reference.valid_case;
                            PyDict reference.ungrounded_case]).

(** An array with a complete record and a number. *)
Definition record_and_number_reply : string :=
  reference.render (PyList [PyDict reference.valid_case; PyInt 5]).

(** * Properties *)

(** ** Strings *)

Lemma app_cons_str (x : ascii) (a b : string) :
  String x a +:+ b = String x (a +:+ b).
Proof. done. Qed.

Lemma app_nil_l_str (a : string) : "" +:+ a = a.
Proof. done. Qed.

Lemma app_assoc_str (a b c : string) : (a +:+ b) +:+ c = a +:+ (b +:+ c).
Proof.
  induction a as [|x a IH]; [done|]. by rewrite !app_cons_str, IH.
Qed.

Lemma app_nil_r_str (a : string) : a +:+ "" = a.
Proof. induction a as [|x a IH]; [done|]. by rewrite app_cons_str, IH. Qed.

Lemma lower_app (a b : string) : lower (a +:+ b) = lower a +:+ lower b.
Proof.
  induction a as [|x a IH]; [done|].
  rewrite app_cons_str. simpl. by rewrite IH.
Qed.

Lemma prefix_app (p s : string) : String.prefix p (p +:+ s) = true.
Proof.
  induction p as [|x p IH]; [by destruct s|].
  rewrite app_cons_str. simpl. destruct (ascii_dec x x); [done|congruence].
Qed.

Lemma prefix_split (p s : string) :
  String.prefix p s = true → ∃ r, s = p +:+ r.
Proof.
  revert s. induction p as [|x p IH]; intros s Hp.
  - by exists s.
  - destruct s as [|y s]; simpl in Hp; [done|].
    destruct (ascii_dec x y) as [->|]; [|done].
    destruct (IH _ Hp) as [r ->]. by exists r.
Qed.

Lemma str_in_nil (needle : string) :
  str_in needle "" = String.prefix needle "" || false.
Proof. done. Qed.

Lemma str_in_cons (needle : string) (c : ascii) (hay : string) :
  str_in needle (String c hay) =
  String.prefix needle (String c hay) || str_in needle hay.
Proof. done. Qed.

(** [needle in hay] holds exactly when [hay] has [needle] as a factor. *)
Lemma str_in_spec (needle hay : string) :
  str_in needle hay = true ↔ ∃ a b, hay = a +:+ needle +:+ b.
Proof.
  split.
  - induction hay as [|c hay IH]; intros Hin.
    + rewrite str_in_nil in Hin.
      apply orb_true_iff in Hin as [Hin|Hin]; [|done].
      apply prefix_split in Hin as [r ->]. by exists "", r.
    + rewrite str_in_cons in Hin.
      apply orb_true_iff in Hin as [Hin|Hin].
      * apply prefix_split in Hin as [r Hr]. exists "", r. by rewrite Hr.
      * destruct (IH Hin) as (a & b & ->). by exists (String c a), b.
  - intros (a & b & ->). induction a as [|c a IH].
    + rewrite app_nil_l_str.
      destruct (needle +:+ b) eqn:E.
      * by rewrite str_in_nil, <-E, prefix_app.
      * by rewrite str_in_cons, <-E, prefix_app.
    + rewrite app_cons_str, str_in_cons, IH. apply orb_true_r.
Qed.

Lemma str_in_app_r (needle a b : string) :
  str_in needle b = true → str_in needle (a +:+ b) = true.
Proof.
  rewrite !str_in_spec. intros (x & y & ->).
  exists (a +:+ x), y. by rewrite app_assoc_str.
Qed.

Lemma str_in_app_l (needle a b : string) :
  str_in needle a = true → str_in needle (a +:+ b) = true.
Proof.
  rewrite !str_in_spec. intros (x & y & ->).
  exists x, (y +:+ b). by rewrite !app_assoc_str.
Qed.

Lemma lower_split (s x y : string) :
  lower s = x +:+ y → ∃ s1 s2, s = s1 +:+ s2 ∧ lower s1 = x ∧ lower s2 = y.
Proof.
  revert s. induction x as [|c x IH]; intros s Hs.
  - by exists "", s.
  - destruct s as [|d s]; [done|].
    rewrite app_cons_str in Hs. simpl in Hs. injection Hs as Hc Hs.
    destruct (IH _ Hs) as (s1 & s2 & -> & <- & <-).
    exists (String d s1), s2. by rewrite app_cons_str, <-Hc.
Qed.

(** The test [needle in s.lower()] of the code decides [contains_ci]. *)
Lemma str_in_lower (needle s : string) :
  str_in (lower needle) (lower s) = true ↔ contains_ci needle s.
Proof.
  rewrite str_in_spec. split.
  - intros (a' & b' & Hs).
    apply lower_split in Hs as (a & r & -> & _ & Hr).
    apply lower_split in Hr as (w & b & -> & Hw & _).
    by exists a, w, b.
  - intros (a & w & b & -> & Hw).
    exists (lower a), (lower b). by rewrite !lower_app, Hw.
Qed.

(** ** JSON flattening *)

Section flatten.
Context `{Environment}.

Lemma flatten_object_unfold (d : pydict) (prefix : string) :
  ingest._flatten_json (PyDict d) prefix =
  join nl (flat_map (λ '(key, value),
    let new_prefix := if nonempty prefix then prefix +:+ "." +:+ key else key in
    match value with
    | PyDict _ | PyList _ =>
        [new_prefix +:+ ":"; ingest._flatten_json value new_prefix]
    | _ => [new_prefix +:+ ": " +:+ py_str container_repr value]
    end) d).
Proof. done. Qed.

Lemma flat_map_singletons {A B} (f : A → list B) (g : A → B) (l : list A) :
  Forall (λ x, f x = [g x]) l → flat_map f l = map g l.
Proof.
  induction 1 as [|x l Hx _ IH]; [done|].
  simpl. by rewrite Hx, IH.
Qed.

(** C6. Flattening an object with no nested object or array writes one
    [key: value] entry per key, in the order of the keys, joined by
    newlines; the object [{"a": 1}] flattens to [a: 1]. *)
Theorem flatten_flat_object (d : pydict) :
  flat_object d →
  ingest._flatten_json (PyDict d) "" = join nl (map flat_line d)
  ∧ length (map flat_line d) = length d
  ∧ ingest._flatten_json (PyDict [("a", PyInt 1)]) "" = "a: 1".
Proof.
  intros Hd. split_and!.
  - rewrite flatten_object_unfold. f_equal.
    apply flat_map_singletons. eapply Forall_impl; [exact Hd|].
    intros [k v] Hv. by destruct v.
  - by rewrite length_map.
  - done.
Qed.

End flatten.

Lemma flatten_flat_object_witness :
  let E := reference.offline in
  let d := [("a", PyInt 1); ("name", PyStr "checkout"); ("ok", PyBool true)] in
  flat_object d ∧
  ingest._flatten_json (PyDict d) "" = "a: 1" +:+ nl +:+ "name: checkout" +:+ nl +:+ "ok: True".
Proof.
  intros E d.
  assert (Hd : flat_object d) by (repeat constructor).
  split; [exact Hd|].
  exact (proj1 (flatten_flat_object d Hd)).
Defined.

(** ** Selector extraction *)

Section selectors_facts.
Import selectors.

Lemma record_selector_snd ty s st st' :
  st.2 = st'.2 → (record_selector ty s st).2 = (record_selector ty s st').2.
Proof. destruct st, st'; simpl; by intros ->. Qed.

Lemma set_id_snd v st st' : st.2 = st'.2 → (set_id v st).2 = (set_id v st').2.
Proof. destruct st, st'; simpl; by intros ->. Qed.

Lemma set_name_snd v st st' : st.2 = st'.2 → (set_name v st).2 = (set_name v st').2.
Proof. destruct st, st'; simpl; by intros ->. Qed.

Lemma record_classes_snd tokens st st' :
  st.2 = st'.2 →
  (foldl (λ st cls, record_selector classes ("." +:+ cls) st) st tokens).2 =
  (foldl (λ st cls, record_selector classes ("." +:+ cls) st) st' tokens).2.
Proof.
  revert st st'. induction tokens as [|cls tokens IH]; intros st st' Hst; [done|].
  simpl. by apply IH, record_selector_snd.
Qed.

Lemma element_step_snd sd e : (element_step sd e).2 = info_of e.
Proof.
  unfold info_of, element_step.
  repeat (case_match; try apply record_selector_snd);
    try apply record_classes_snd;
    repeat (case_match; try apply set_name_snd; try apply record_selector_snd);
    repeat (try apply set_id_snd; try apply record_selector_snd); done.
Qed.

Lemma record_selector_semantic ty s st :
  semantic (record_selector ty s st).1 = semantic st.1.
Proof. by destruct st. Qed.

Lemma record_classes_semantic tokens st :
  semantic (foldl (λ st cls, record_selector classes ("." +:+ cls) st) st tokens).1
  = semantic st.1.
Proof.
  revert st. induction tokens as [|cls tokens IH]; intros st; [done|].
  simpl. by rewrite IH, record_selector_semantic.
Qed.

(** Recording the selectors of an element leaves every bucket as it was. *)
Lemma element_step_semantic sd e : semantic (element_step sd e).1 = semantic sd.
Proof.
  unfold element_step.
  assert (Hid : ∀ v st, semantic (set_id v st).1 = semantic st.1) by (by intros ? []).
  assert (Hname : ∀ v st, semantic (set_name v st).1 = semantic st.1) by (by intros ? []).
  repeat case_match;
    rewrite ?record_selector_semantic, ?record_classes_semantic,
      ?Hname, ?record_selector_semantic, ?Hid, ?record_selector_semantic; done.
Qed.

Lemma append_if_keeps c b info sd b' (x : element_info) :
  x ∈ semantic sd b' → x ∈ semantic (append_if c b info sd) b'.
Proof.
  destruct c; simpl; [|done]. case_decide; [|done].
  intros Hx. apply elem_of_app. by left.
Qed.

Lemma append_if_adds b info sd :
  info ∈ semantic (append_if true b info sd) b.
Proof.
  simpl. rewrite decide_True by done. apply elem_of_app. right. by left.
Qed.

(** Buckets only grow. *)
Lemma categorize_keeps e info sd b (x : element_info) :
  x ∈ semantic sd b → x ∈ semantic (_categorize_semantic e info sd) b.
Proof. intros Hx. unfold _categorize_semantic. by do 12 apply append_if_keeps. Qed.

Lemma extract_element_keeps sd e b (x : element_info) :
  x ∈ semantic sd b → x ∈ semantic (extract_element sd e) b.
Proof.
  intros Hx. unfold extract_element.
  destruct (element_step sd e) as [sd' info] eqn:Hstep.
  apply categorize_keeps.
  change sd' with (sd', info).1. by rewrite <-Hstep, element_step_semantic.
Qed.

Lemma extract_all_keeps sd es b (x : element_info) :
  x ∈ semantic sd b → x ∈ semantic (foldl extract_element sd es) b.
Proof.
  revert sd. induction es as [|e es IH]; intros sd Hx; [done|].
  simpl. by apply IH, extract_element_keeps.
Qed.

Lemma any_in_last (kw : string) (kws : list string) (hay : string) :
  str_in kw hay = true → any_in (kws ++ [kw]) hay = true.
Proof.
  intros Hin. unfold any_in. rewrite existsb_app. simpl.
  rewrite Hin. by rewrite orb_true_r.
Qed.

(** The attribute check of the discount bucket fires on [code]. *)
Lemma categorize_code e info sd :
  str_in "code" (ids_text e) = true →
  info ∈ semantic (_categorize_semantic e info sd) discount_elements.
Proof.
  intros Hcode. unfold _categorize_semantic.
  apply append_if_keeps.
  assert (any_in ["discount"; "coupon"; "promo"; "code"] (ids_text e) = true)
    as -> by exact (any_in_last "code" ["discount"; "coupon"; "promo"] _ Hcode).
  apply append_if_adds.
Qed.

Lemma extract_element_code sd e :
  str_in "code" (ids_text e) = true →
  info_of e ∈ semantic (extract_element sd e) discount_elements.
Proof.
  intros Hcode. unfold extract_element.
  destruct (element_step sd e) as [sd' info] eqn:Hstep.
  rewrite <-(element_step_snd sd e), Hstep. by apply categorize_code.
Qed.

Lemma extract_all_code sd es e :
  e ∈ es → str_in "code" (ids_text e) = true →
  info_of e ∈ semantic (foldl extract_element sd es) discount_elements.
Proof.
  intros He Hcode. revert sd.
  induction es as [|e' es IH]; intros sd; [by apply elem_of_nil in He|].
  apply elem_of_cons in He as [->|He]; simpl.
  - by apply extract_all_keeps, extract_element_code.
  - by apply IH.
Qed.

Context `{Environment}.

(** C10. Whatever the page, an element whose [id], [name] and class tokens,
    concatenated, contain [code] in any letter case is put in the
    [discount_elements] bucket, whatever its visible text. *)
Theorem code_attribute_is_discount (html : string) (e : Tag) :
  e ∈ soup_find_all html →
  contains_ci "code"
    (default "" (attr_id e) +:+ default "" (attr_name e) +:+ class_text e) →
  info_of e ∈ semantic (extract_selectors html) discount_elements.
Proof.
  intros He Hcode. unfold extract_selectors. simpl.
  apply extract_all_code; [done|].
  apply str_in_lower in Hcode.
  unfold ids_text. by rewrite <-!lower_app.
Qed.

(** C7. For the page [<button id="pay-btn" class="cart-btn">Pay</button>]
    the selectors include [#pay-btn] and [.cart-btn], and the element is in
    the buckets [buttons], [payment_elements] (its text [Pay] matches a
    payment keyword) and [cart_elements] (its class token contains
    [cart]): the buckets do not exclude one another. *)
Theorem pay_button_buckets :
  soup_find_all reference.pay_button_html = [reference.pay_button] →
  let sd := extract_selectors reference.pay_button_html in
  let info := {| ei_tag := "button"; ei_selectors := ["#pay-btn"; ".cart-btn"];
                 ei_id := Some "pay-btn"; ei_name := None |} in
  "#pay-btn" ∈ all_selectors sd ∧ ".cart-btn" ∈ all_selectors sd
  ∧ info ∈ semantic sd buttons
  ∧ info ∈ semantic sd payment_elements
  ∧ info ∈ semantic sd cart_elements
  ∧ any_in ["payment"; "pay"; "credit"; "paypal"]
      (lower (tag_text reference.pay_button)) = true
  ∧ str_in "cart" (lower (class_text reference.pay_button)) = true
  ∧ any_in ["cart"; "qty"; "quantity"; "total"]
      (ids_text reference.pay_button) = true.
Proof.
  intros Hparse sd info. unfold sd, extract_selectors. rewrite Hparse.
  vm_compute. split_and!; try done; repeat constructor.
Qed.

End selectors_facts.

Lemma code_attribute_is_discount_witness :
  let E := reference.offline in
  reference.zip_code_input ∈ soup_find_all "zip"
  ∧ str_in "discount" (lower (tag_text reference.zip_code_input)) = false
  ∧ info_of reference.zip_code_input
      ∈ selectors.semantic (selectors.extract_selectors "zip")
          selectors.discount_elements.
Proof.
  intros E.
  assert (He : reference.zip_code_input ∈ soup_find_all "zip")
    by (right; left).
  split_and!; [exact He|reflexivity|].
  assert (Hcode : contains_ci "code"
            (default "" (attr_id reference.zip_code_input)
             +:+ default "" (attr_name reference.zip_code_input)
             +:+ selectors.class_text reference.zip_code_input))
    by (exists "zip-", "code", ""; split; reflexivity).
  exact (code_attribute_is_discount "zip" reference.zip_code_input He Hcode).
Defined.

Lemma pay_button_buckets_witness :
  let E := reference.offline in
  soup_find_all reference.pay_button_html = [reference.pay_button]
  ∧ info_of reference.pay_button
      ∈ selectors.semantic (selectors.extract_selectors reference.pay_button_html)
          selectors.payment_elements.
Proof.
  intros E. split; [reflexivity|].
  exact (proj1 (proj2 (proj2 (proj2 (pay_button_buckets eq_refl))))).
Defined.

(** ** Document normalisation *)

Section normalisation.
Context `{Environment}.
Import ingest.

Lemma parse_document_unsupported file_path content filename :
  lower (path_suffix filename) ∉ supported →
  parse_document file_path content filename = Ok (decode_utf8_ignore content, spec).
Proof.
  intros Hext. unfold parse_document.
  repeat match goal with
  | |- context [String.eqb ?a ?b] =>
      destruct (String.eqb_spec a b) as [Heq|_];
      [exfalso; apply Hext; rewrite Heq; repeat constructor|]
  end.
  done.
Qed.

Lemma parse_document_txt file_path content filename :
  lower (path_suffix filename) = ".txt" →
  parse_document file_path content filename =
  s ← decode_utf8 content;
  Ok (s, if str_in "ui" (lower filename) || str_in "ux" (lower filename)
         then ui_ux else spec).
Proof. intros Hext. unfold parse_document. by rewrite Hext. Qed.

Lemma ingest_file_returns st file s :
  ∃ st', ingest_file st file s = ((file_body file s).1, Ok st')
         ∧ files_processed st' =
           files_processed st ++ [entry_for file (file_body file s).2].
Proof.
  unfold ingest_file, try_method, mbind, method_bind.
  destruct (file_body file s) as [s' [[ty n]|e]]; simpl; eauto.
Qed.

Lemma ingest_loop_returns st files s :
  ∃ st', ingest_loop st files s = (state_after files s, Ok st')
         ∧ files_processed st' = files_processed st ++ entries_of files s.
Proof.
  revert st s. induction files as [|file rest IH]; intros st s.
  - exists st. by rewrite app_nil_r.
  - destruct (ingest_file_returns st file s) as (st1 & Hrun & Hst1).
    destruct (IH st1 (file_body file s).1) as (st' & Hrest & Hst').
    exists st'. split.
    + simpl. unfold mbind, method_bind. by rewrite Hrun.
    + rewrite Hst', Hst1, <-app_assoc. done.
Qed.

Lemma ingest_documents_returns files s :
  ∃ st, ingest_documents files s = (state_after files s, Ok st)
        ∧ files_processed st = entries_of files s.
Proof. apply ingest_loop_returns. Qed.

Lemma entries_of_app before after s :
  entries_of (before ++ after) s =
  entries_of before s ++ entries_of after (state_after before s).
Proof.
  revert s. induction before as [|file before IH]; intros s; [done|].
  simpl. by rewrite IH.
Qed.

Lemma length_entries_of files s : length (entries_of files s) = length files.
Proof.
  revert s. induction files as [|file files IH]; intros s; [done|].
  simpl. by rewrite IH.
Qed.

(** The tag of the other supported extensions. *)
Lemma parse_document_tag file_path content filename text ty :
  parse_document file_path content filename = Ok (text, ty) →
  (lower (path_suffix filename) = ".pdf" ∨ lower (path_suffix filename) = ".md"
     → ty = spec)
  ∧ (lower (path_suffix filename) = ".json" → ty = api)
  ∧ (lower (path_suffix filename) = ".html" ∨ lower (path_suffix filename) = ".htm"
     → ty = html_dom).
Proof.
  intros Hrun. unfold parse_document in Hrun.
  split_and!; intros Hext; try destruct Hext as [Hext|Hext];
    rewrite Hext in Hrun; simpl in Hrun; unfold mbind, result_bind in Hrun;
    repeat case_match; congruence.
Qed.

(** C5. The extension of the file name selects the branch of
    [parse_document].  The tag of a [.txt] file is [ui_ux] exactly when its
    name contains [ui] or [ux] in any letter case, and [spec] otherwise; a
    file whose extension is not supported is decoded leniently and tagged
    [spec] without raising, and no batch containing it makes
    [ingest_documents] raise. *)
Theorem normalisation_by_extension file_path content filename :
  let ext := lower (path_suffix filename) in
  (∀ text ty, parse_document file_path content filename = Ok (text, ty) →
     (ext = ".pdf" ∨ ext = ".md" → ty = spec)
     ∧ (ext = ".json" → ty = api)
     ∧ (ext = ".html" ∨ ext = ".htm" → ty = html_dom))
  ∧ (ext = ".txt" →
     (∀ text, decode_utf8 content = Ok text →
        ∃ ty, parse_document file_path content filename = Ok (text, ty))
     ∧ ∀ text ty, parse_document file_path content filename = Ok (text, ty) →
        (ty = ui_ux ↔ contains_ci "ui" filename ∨ contains_ci "ux" filename)
        ∧ (ty ≠ ui_ux → ty = spec))
  ∧ (ext ∉ supported →
       parse_document file_path content filename
         = Ok (decode_utf8_ignore content, spec)
       ∧ ∀ before after s, ∃ st,
           ingest_documents (before ++ (file_path, content, filename) :: after) s
           = (state_after (before ++ (file_path, content, filename) :: after) s,
              Ok st)).
Proof.
  intros ext. split; [apply parse_document_tag|]. split.
  - intros Hext. split.
    + intros text Htext. rewrite parse_document_txt by done.
      rewrite Htext. simpl. eauto.
    + intros text ty. rewrite parse_document_txt by done.
      destruct (decode_utf8 content) as [s|e]; simpl; [|done].
      intros [= -> <-].
      rewrite <-!(str_in_lower _ filename).
      change (lower "ui") with "ui". change (lower "ux") with "ux".
      destruct (str_in "ui" (lower filename)), (str_in "ux" (lower filename));
        simpl; split; try done; intuition (auto; discriminate).
  - intros Hext. split; [by apply parse_document_unsupported|].
    intros before after s.
    destruct (ingest_documents_returns
                (before ++ (file_path, content, filename) :: after) s)
      as (st & Hst & _).
    eauto.
Qed.

(** C9. [ingest_documents] returns its statistics for every batch.
    [files_processed] holds one entry per file, in order; the entry of a
    file whose processing raised is its name with the text of the
    exception, and the files after it are processed from the state it
    left. *)
Theorem ingestion_isolates_failures before file after s :
  let files := before ++ file :: after in
  let s_file := state_after before s in
  ∃ st, ingest_documents files s = (state_after files s, Ok st)
    ∧ map entry_filename (files_processed st) = map (λ f, f.2) files
    ∧ files_processed st =
        entries_of before s ++ entry_for file (file_body file s_file).2
          :: entries_of after (file_body file s_file).1
    ∧ (∀ e, (file_body file s_file).2 = Raise e →
         files_processed st !! length before = Some (Failed file.2 (exn_str e))).
Proof.
  intros files s_file.
  destruct (ingest_documents_returns files s) as (st & Hrun & Hst).
  exists st. split; [done|].
  assert (Hsplit : files_processed st =
    entries_of before s ++ entry_for file (file_body file s_file).2
      :: entries_of after (file_body file s_file).1).
  { rewrite Hst. unfold files. by rewrite entries_of_app. }
  split_and!; [|done|].
  - rewrite Hst. clear. revert s.
    induction files as [|f files IH]; intros s; [done|].
    simpl. rewrite IH. f_equal.
    by destruct (file_body f s) as [? [[??]|?]].
  - intros e He. rewrite Hsplit, He.
    rewrite lookup_app_r by (by rewrite length_entries_of).
    by rewrite length_entries_of, Nat.sub_diag.
Qed.

End normalisation.

Lemma normalisation_by_extension_witness :
  let E := reference.offline in
  let notes := list_byte_of_string "tap the cart" in
  lower (path_suffix "UX_notes.TXT") = ".txt"
  ∧ ingest.parse_document "/tmp/a" notes "UX_notes.TXT"
      = Ok ("tap the cart", ingest.ui_ux)
  ∧ (contains_ci "ui" "UX_notes.TXT" ∨ contains_ci "ux" "UX_notes.TXT")
  ∧ (lower (path_suffix "dump.bin") ∉ supported)
  ∧ ingest.parse_document "/tmp/b" notes "dump.bin"
      = Ok ("tap the cart", ingest.spec).
Proof.
  intros E notes.
  assert (Hbin : lower (path_suffix "dump.bin") ∉ supported).
  { intros Hin. vm_compute in Hin.
    repeat (apply elem_of_cons in Hin as [Hin|Hin]; [discriminate|]).
    by apply elem_of_nil in Hin. }
  assert (Htxt : lower (path_suffix "UX_notes.TXT") = ".txt") by reflexivity.
  assert (Hrun : ingest.parse_document "/tmp/a" notes "UX_notes.TXT"
                 = Ok ("tap the cart", ingest.ui_ux)) by reflexivity.
  split_and!; [exact Htxt|exact Hrun| |exact Hbin|].
  - exact (proj1 (proj1 (proj2 (proj1 (proj2
             (normalisation_by_extension "/tmp/a" notes "UX_notes.TXT")) Htxt)
             _ _ Hrun)) eq_refl).
  - exact (proj1 (proj2 (proj2
             (normalisation_by_extension "/tmp/b" notes "dump.bin")) Hbin)).
Defined.

(** A batch whose first file cannot be read still processes the second. *)
Lemma ingestion_isolates_failures_witness :
  let E := reference.offline in
  let broken : ingest.upload := ("/tmp/a", list_byte_of_string "%PDF", "broken.pdf") in
  let notes : ingest.upload := ("/tmp/b", list_byte_of_string "tap the cart", "ui.txt") in
  let fresh : ingest.ingestion := ingest.init reference.empty_store in
  ∃ st, ingest.ingest_documents [broken; notes] fresh
          = (state_after [broken; notes] fresh, Ok st)
    ∧ ingest.files_processed st
        = [ingest.Failed "broken.pdf" "cannot open broken document";
           ingest.Processed "ui.txt" ingest.ui_ux 3].
Proof.
  intros E broken notes fresh.
  destruct (ingestion_isolates_failures [] broken [notes] fresh)
    as (st & Hrun & _ & Hst & _).
  exists st. split; [exact Hrun|exact Hst].
Defined.

(** ** Chunk identifiers *)

Lemma has_char_app c a b : has_char c (a +:+ b) = has_char c a || has_char c b.
Proof.
  induction a as [|x a IH]; [done|].
  rewrite app_cons_str. simpl. by rewrite IH, orb_assoc.
Qed.

Lemma has_char_here c s : has_char c (String c s) = true.
Proof. simpl. by rewrite Ascii.eqb_refl. Qed.

(** The text after the last occurrence of a character is determined. *)
Lemma after_last_char c s1 s2 d1 d2 :
  has_char c d1 = false → has_char c d2 = false →
  s1 +:+ String c d1 = s2 +:+ String c d2 → d1 = d2.
Proof.
  intros Hd1 Hd2. revert s2. induction s1 as [|x s1 IH]; intros [|y s2] Heq.
  - by injection Heq.
  - rewrite app_nil_l_str, app_cons_str in Heq. injection Heq as _ ->.
    by rewrite has_char_app, has_char_here, orb_true_r in Hd1.
  - rewrite app_nil_l_str, app_cons_str in Heq. injection Heq as _ <-.
    by rewrite has_char_app, has_char_here, orb_true_r in Hd2.
  - rewrite !app_cons_str in Heq. injection Heq as _ Heq. by eapply IH.
Qed.

Lemma pretty_N_char_not_underscore x : Ascii.eqb (pretty_N_char x) "_" = false.
Proof. unfold pretty_N_char. by repeat case_match. Qed.

Lemma pretty_N_go_no_underscore x s :
  has_char "_" s = false → has_char "_" (pretty_N_go x s) = false.
Proof.
  revert s. induction (N.lt_wf_0 x) as [x _ IH]; intros s Hs.
  destruct (decide (x = 0)%N) as [->|Hx]; [by rewrite pretty_N_go_0|].
  rewrite pretty_N_go_step by lia.
  apply IH; [apply N.div_lt; lia|].
  simpl. by rewrite pretty_N_char_not_underscore.
Qed.

(** The decimal text of a counter has no underscore. *)
Lemma pretty_nat_no_underscore (k : nat) : has_char "_" (pretty k) = false.
Proof.
  unfold pretty, pretty_nat, pretty, pretty_N.
  case_decide; [done|]. by apply pretty_N_go_no_underscore.
Qed.

(** The counter can be read back from an identifier, whatever the stem. *)
Lemma make_id_counter k1 k2 : make_id k1 = make_id k2 → k1.2 = k2.2.
Proof.
  unfold make_id. intros Heq.
  apply (inj (pretty : nat → string)).
  eapply (after_last_char "_" k1.1 k2.1); [apply pretty_nat_no_underscore..|].
  exact Heq.
Qed.

Lemma make_id_NoDup (ks : list (string * nat)) :
  NoDup (map snd ks) → NoDup (map make_id ks).
Proof.
  induction ks as [|k ks IH]; simpl; [constructor|].
  intros Hnd. inversion_clear Hnd as [|? ? Hk Hks].
  constructor; [|by apply IH].
  rewrite list_elem_of_In, in_map_iff. intros (k' & Heq & Hk').
  apply Hk. rewrite list_elem_of_In, in_map_iff.
  exists k'. split; [|done].
  symmetry. by apply make_id_counter.
Qed.

Section chunking.
Context `{Environment}.
Import ingest.

(** The chunks [chunk_loop] builds from counter value [counter]. *)
Lemma chunk_loop_run source ty pieces idx s :
  ∃ chunks,
    chunk_loop source ty idx pieces s =
      ({| chunk_counter := chunk_counter s + length pieces;
          collection := collection s; produced := produced s |}, Ok chunks)
    ∧ length chunks = length pieces
    ∧ ∀ i c, chunks !! i = Some c →
        chunk_id c = make_id (path_stem source, chunk_counter s + i + 1)
        ∧ chunk_index c = idx + i ∧ source_document c = source
        ∧ pieces !! i = Some (text c).
Proof.
  revert idx s. induction pieces as [|piece rest IH]; intros idx s.
  - exists []. split_and!; [|done|done].
    simpl. unfold mret, method_ret. rewrite Nat.add_0_r. by destruct s.
  - simpl. unfold mbind, method_bind, next_counter.
    match goal with
    | |- context [chunk_loop source ty (S idx) rest ?s1] =>
        destruct (IH (S idx) s1) as (chunks & -> & Hlen & Hchunks)
    end.
    eexists. split_and!.
    + simpl. unfold mret, method_ret. do 2 f_equal. lia.
    + simpl. by rewrite Hlen.
    + intros [|i] c Hc.
      * injection Hc as <-. simpl. unfold make_id. simpl.
        rewrite Nat.add_0_r, Nat.add_1_r. split_and!; [done|lia|done|done].
      * destruct (Hchunks i c Hc) as (Hid & Hidx & Hsrc & Hpiece).
        simpl in Hid. split_and!; [|lia|done|done].
        rewrite Hid. f_equal. f_equal. lia.
Qed.

Lemma counted_init c : counted (init c).
Proof. exists []. split_and!; [done|constructor|constructor]. Qed.

Lemma chunk_text_run text source ty s :
  ∃ chunks,
    chunk_text text source ty s =
      ({| chunk_counter := chunk_counter s + length chunks;
          collection := collection s;
          produced := produced s ++ chunks |}, Ok chunks)
    ∧ length chunks = length (split_text text)
    ∧ ∀ i c, chunks !! i = Some c →
        chunk_id c = make_id (path_stem source, chunk_counter s + i + 1)
        ∧ chunk_index c = i ∧ source_document c = source
        ∧ split_text text !! i = Some (ingest.text c).
Proof.
  destruct (chunk_loop_run source ty (split_text text) 0 s)
    as (chunks & Hrun & Hlen & Hchunks).
  exists chunks. split_and!; [|done|done].
  unfold chunk_text, mbind, method_bind. rewrite Hrun. simpl.
  by rewrite Hlen.
Qed.

Lemma chunk_ids_seq (chunks : list chunk) (stem : string) (c : nat) :
  (∀ i ch, chunks !! i = Some ch → chunk_id ch = make_id (stem, c + i + 1)) →
  map chunk_id chunks = map make_id (map (λ k, (stem, k)) (seq (S c) (length chunks))).
Proof.
  revert c. induction chunks as [|ch chunks IH]; intros c Hids; [done|].
  simpl. f_equal.
  - rewrite (Hids 0 ch eq_refl). do 2 f_equal. lia.
  - apply IH. intros i ch' Hi. rewrite (Hids (S i) ch' Hi). do 2 f_equal. lia.
Qed.

Lemma chunk_text_counted text source ty s :
  counted s →
  counted (chunk_text text source ty s).1
  ∧ chunk_counter s ≤ chunk_counter (chunk_text text source ty s).1.
Proof.
  intros (ks & Hids & Hnodup & Hle).
  destruct (chunk_text_run text source ty s) as (chunks & -> & _ & Hchunks).
  simpl. split; [|lia].
  exists (ks ++ map (λ k, (path_stem source, k))
                  (seq (S (chunk_counter s)) (length chunks))).
  simpl. split_and!.
  - rewrite !map_app, Hids. f_equal. apply chunk_ids_seq.
    intros i c Hc. by destruct (Hchunks i c Hc).
  - rewrite map_app, map_map. simpl. rewrite map_id.
    apply NoDup_app. split_and!; [done| |apply NoDup_seq].
    intros k Hk Hk'. apply elem_of_seq in Hk'.
    apply list_elem_of_fmap in Hk as (k' & -> & Hk).
    rewrite Forall_forall in Hle. apply Hle in Hk. lia.
  - apply Forall_app. split.
    + eapply Forall_impl; [exact Hle|]. simpl. intros; lia.
    + apply Forall_fmap, Forall_forall. intros k Hk.
      apply elem_of_seq in Hk. simpl. lia.
Qed.

(** Storing changes neither the counter nor the chunks produced. *)
Lemma embed_and_store_frame chunks s :
  chunk_counter (embed_and_store chunks s).1 = chunk_counter s
  ∧ produced (embed_and_store chunks s).1 = produced s.
Proof.
  unfold embed_and_store. destruct chunks as [|c chunks]; [done|].
  unfold mbind, method_bind, lift.
  destruct (encode _) as [embeddings|e]; [|done].
  destruct (collection_add _ _ _ _ _) as [c' [e|]]; done.
Qed.

Lemma counted_frame s s' :
  chunk_counter s' = chunk_counter s → produced s' = produced s →
  counted s → counted s'.
Proof. intros Hc Hp (ks & ? & ? & ?). exists ks. by rewrite Hc, Hp. Qed.

Lemma file_body_counted file s :
  counted s →
  counted (file_body file s).1 ∧ chunk_counter s ≤ chunk_counter (file_body file s).1.
Proof.
  intros Hs. destruct file as [[file_path content] filename].
  unfold file_body, mbind, method_bind, lift.
  destruct (parse_document file_path content filename) as [[text ty]|e]; [|done].
  destruct (chunk_text_counted text filename ty s Hs) as [Hcounted Hle].
  destruct (chunk_text_run text filename ty s) as (chunks & Hrun & _).
  rewrite Hrun in Hcounted, Hle |- *. simpl in Hcounted, Hle.
  match goal with
  | |- context [embed_and_store chunks ?s1] =>
      destruct (embed_and_store_frame chunks s1) as [Hc Hp];
      destruct (embed_and_store chunks s1) as [s2 [n|e]]
  end; unfold mret, method_ret; simpl;
    (split; [eapply counted_frame; [exact Hc|exact Hp|exact Hcounted]
            |simpl in Hc; lia]).
Qed.

Lemma state_after_counted files s :
  counted s →
  counted (state_after files s) ∧ chunk_counter s ≤ chunk_counter (state_after files s).
Proof.
  revert s. induction files as [|file files IH]; intros s Hs; [done|].
  destruct (file_body_counted file s Hs) as [Hs' Hle].
  destruct (IH _ Hs') as [Hs'' Hle']. simpl. split; [done|lia].
Qed.

(** C4. Each chunk [chunk_text] returns is named by the stem of the source
    document, an underscore and the running counter, which goes up by one
    per chunk and is never set back, whatever the document; so the
    identifiers of all chunks produced in a batch started on a new
    [DocumentIngestion] are pairwise distinct. *)
Theorem chunk_ids_distinct :
  (∀ text source ty s, ∃ chunks,
     chunk_text text source ty s =
       ({| chunk_counter := chunk_counter s + length chunks;
           collection := collection s;
           produced := produced s ++ chunks |}, Ok chunks)
     ∧ ∀ i c, chunks !! i = Some c →
         chunk_id c = path_stem source +:+ "_" +:+ pretty (chunk_counter s + i + 1)
         ∧ chunk_index c = i)
  ∧ (∀ file s, chunk_counter s ≤ chunk_counter (file_body file s).1)
  ∧ (∀ files store,
       ∃ st, ingest_documents files (init store)
             = (state_after files (init store), Ok st)
         ∧ NoDup (map chunk_id (produced (state_after files (init store))))).
Proof.
  split_and!.
  - intros text source ty s.
    destruct (chunk_text_run text source ty s) as (chunks & Hrun & _ & Hchunks).
    exists chunks. split; [done|]. intros i c Hc.
    destruct (Hchunks i c Hc) as (Hid & Hidx & _). done.
  - intros [[file_path content] filename] s.
    unfold file_body, mbind, method_bind, lift.
    destruct (parse_document file_path content filename) as [[text ty]|e]; [|done].
    destruct (chunk_text_run text filename ty s) as (chunks & -> & _).
    match goal with
    | |- context [embed_and_store chunks ?s1] =>
        destruct (embed_and_store_frame chunks s1) as [Hc _];
        destruct (embed_and_store chunks s1) as [s2 [n|e]]
    end; unfold mret, method_ret; simpl in *; lia.
  - intros files store.
    destruct (ingest_documents_returns files (init store)) as (st & Hrun & _).
    exists st. split; [done|].
    destruct (state_after_counted files (init store) (counted_init store))
      as [(ks & -> & Hnodup & _) _].
    by apply make_id_NoDup.
Qed.

End chunking.

(** ** Grounded generation *)

(** *** Removing the fences *)

Lemma prefix_trans_false (p q s : string) :
  String.prefix p q = true → String.prefix p s = false → String.prefix q s = false.
Proof.
  intros Hpq Hps. destruct (String.prefix q s) eqn:Hqs; [|done].
  apply prefix_split in Hpq as [r ->]. apply prefix_split in Hqs as [t ->].
  by rewrite app_assoc_str, prefix_app in Hps.
Qed.

Lemma replace_go_cons old new c s :
  replace_go old new 0 (String c s) =
  if String.prefix old (String c s)
  then new +:+ replace_go old new (String.length old - 1) s
  else String c (replace_go old new 0 s).
Proof. done. Qed.

Lemma no_match_in_cons old x body rest :
  no_match_in old (String x body) rest = true ↔
  String.prefix old (String x (body +:+ rest)) = false
  ∧ no_match_in old body rest = true.
Proof.
  change (no_match_in old (String x body) rest)
    with (negb (String.prefix old (String x (body +:+ rest)))
          && no_match_in old body rest).
  by rewrite andb_true_iff, negb_true_iff.
Qed.

(** Text in which no occurrence of [old] begins is copied. *)
Lemma replace_go_copy old new body rest :
  no_match_in old body rest = true →
  replace_go old new 0 (body +:+ rest) = body +:+ replace_go old new 0 rest.
Proof.
  induction body as [|x body IH]; intros Hbody; [done|].
  apply no_match_in_cons in Hbody as [Hx Hbody].
  by rewrite !app_cons_str, replace_go_cons, Hx, IH.
Qed.

(** A longer marker does not begin where a shorter one does not. *)
Lemma no_match_in_longer old old' body rest :
  String.prefix old old' = true →
  no_match_in old body rest = true → no_match_in old' body rest = true.
Proof.
  intros Hold. induction body as [|x body IH]; [done|].
  rewrite !no_match_in_cons.
  intros [Hx Hbody]. split; [|by apply IH].
  by eapply prefix_trans_false.
Qed.

Lemma replace_go_skip old new p rest :
  replace_go old new (String.length p) (p +:+ rest) = replace_go old new 0 rest.
Proof. induction p as [|x p IH]; [done|]. by rewrite app_cons_str. Qed.

(** An occurrence at the head is replaced. *)
Lemma replace_go_match c old new rest :
  replace_go (String c old) new 0 (String c old +:+ rest) =
  new +:+ replace_go (String c old) new 0 rest.
Proof.
  rewrite app_cons_str, replace_go_cons, <-app_cons_str, prefix_app.
  simpl. by rewrite Nat.sub_0_r, replace_go_skip.
Qed.

Lemma prefix_nil (s : string) : String.prefix "" s = true.
Proof. by destruct s. Qed.

Lemma length_app_str (a b : string) :
  String.length (a +:+ b) = String.length a + String.length b.
Proof. induction a as [|x a IH]; [done|]. rewrite app_cons_str. simpl. by rewrite IH. Qed.

(** What follows a text as long as the marker does not matter. *)
Lemma prefix_app_long (p s t : string) :
  String.length p ≤ String.length s →
  String.prefix p (s +:+ t) = String.prefix p s.
Proof.
  revert s. induction p as [|a p IH]; intros s Hlen.
  - by rewrite !prefix_nil.
  - destruct s as [|b s]; simpl in Hlen; [lia|].
    rewrite app_cons_str. simpl. destruct (ascii_dec a b); [apply IH; lia|done].
Qed.

Lemma no_match_in_tail old body rest tail :
  String.length old ≤ String.length rest →
  no_match_in old body rest = true → no_match_in old body (rest +:+ tail) = true.
Proof.
  intros Hlen. induction body as [|x body IH]; [done|].
  rewrite !no_match_in_cons. intros [Hx Hbody]. split; [|by apply IH].
  rewrite <-app_assoc_str, <-app_cons_str, prefix_app_long; [done|].
  simpl. rewrite length_app_str. lia.
Qed.

(** Blank space holds no marker and is trimmed away. *)
Lemma prefix_blank (c : ascii) (p t : string) :
  is_space c = false → blank t = true → String.prefix (String c p) t = false.
Proof.
  intros Hc. destruct t as [|x t]; [done|]. simpl.
  intros [Hx _]%andb_true_iff. destruct (ascii_dec c x) as [->|]; [congruence|done].
Qed.

Lemma replace_go_blank c old new t :
  is_space c = false → blank t = true → replace_go (String c old) new 0 t = t.
Proof.
  intros Hc. induction t as [|x t IH]; [done|]. intros Ht.
  rewrite replace_go_cons, (prefix_blank c old _ Hc Ht).
  simpl in Ht. apply andb_true_iff in Ht as [_ Ht]. by rewrite IH.
Qed.

Lemma prefix_cons_same (c : ascii) (p s : string) :
  String.prefix (String c p) (String c s) = String.prefix p s.
Proof. simpl. by destruct (ascii_dec c c). Qed.

Lemma replace_go_json_close tail :
  blank tail = true →
  replace_go "```json" "" 0 ("```" +:+ tail) = "```" +:+ tail.
Proof.
  intros Ht. rewrite !app_cons_str, app_nil_l_str.
  rewrite replace_go_cons, !prefix_cons_same, (prefix_blank "j" _ _ eq_refl Ht).
  rewrite replace_go_cons, !prefix_cons_same, (prefix_blank "`" _ _ eq_refl Ht).
  rewrite replace_go_cons, !prefix_cons_same, (prefix_blank "`" _ _ eq_refl Ht).
  by rewrite (replace_go_blank "`" _ _ _ eq_refl Ht).
Qed.

Lemma lstrip_blank t : blank t = true → lstrip t = "".
Proof.
  induction t as [|c t IH]; [done|]. simpl.
  intros [-> Ht]%andb_true_iff. by apply IH.
Qed.

Lemma rstrip_blank t : blank t = true → rstrip t = "".
Proof.
  induction t as [|c t IH]; [done|]. simpl.
  intros [Hc Ht]%andb_true_iff. by rewrite IH, Hc.
Qed.

Lemma rstrip_app_blank a t : blank t = true → rstrip (a +:+ t) = rstrip a.
Proof.
  intros Ht. induction a as [|c a IH]; [by apply rstrip_blank|].
  rewrite app_cons_str. simpl. by rewrite IH.
Qed.

Lemma lstrip_app a t :
  lstrip (a +:+ t) = if nonempty (lstrip a) then lstrip a +:+ t else lstrip t.
Proof.
  induction a as [|c a IH]; [done|].
  rewrite app_cons_str. simpl. by destruct (is_space c).
Qed.

Lemma strip_app_blank a t : blank t = true → strip (a +:+ t) = strip a.
Proof.
  intros Ht. unfold strip. rewrite lstrip_app.
  destruct (lstrip a) as [|c r]; simpl nonempty; cbv iota.
  - by rewrite (lstrip_blank t Ht).
  - by apply rstrip_app_blank.
Qed.

(** Trimming keeps a factor of the text. *)
Lemma lstrip_suffix s : ∃ a, s = a +:+ lstrip s.
Proof.
  induction s as [|c s [a IH]]; [by exists ""|]. simpl.
  destruct (is_space c); [|by exists ""].
  exists (String c a). by rewrite app_cons_str, <-IH.
Qed.

Lemma rstrip_prefix s : ∃ b, s = rstrip s +:+ b.
Proof.
  induction s as [|c s [b IH]]; [by exists ""|]. simpl.
  destruct (rstrip s) as [|d r].
  - destruct (is_space c); [by exists (String c s)|by exists s].
  - exists b. by rewrite app_cons_str, <-IH.
Qed.

Lemma str_in_strip needle s :
  str_in needle (strip s) = true → str_in needle s = true.
Proof.
  unfold strip. intros Hin.
  destruct (lstrip_suffix s) as [a Ha]. destruct (rstrip_prefix (lstrip s)) as [b Hb].
  rewrite Ha. apply str_in_app_r. rewrite Hb. by apply str_in_app_l.
Qed.

(** Removing the fence markers leaves none: of a run of backticks, fewer
    than three are left. *)
Lemma prefix_cons (a b : ascii) (p s : string) :
  String.prefix (String a p) (String b s) =
  if ascii_dec a b then String.prefix p s else false.
Proof. done. Qed.

Lemma ticks_cons (c : ascii) (s : string) :
  ticks (String c s) = if ascii_dec "`" c then S (ticks s) else 0.
Proof. done. Qed.

Lemma prefix_fence_ticks s : String.prefix "```" s = true ↔ 3 ≤ ticks s.
Proof.
  destruct s as [|a [|b [|c s]]]; rewrite ?prefix_cons, ?ticks_cons;
    repeat (destruct (ascii_dec _ _)); rewrite ?prefix_nil;
    change (ticks "") with 0 in *; split; intros; (done || lia).
Qed.

Lemma replace_go_fence_free n s :
  String.length s ≤ n →
  ticks (replace_go "```" "" 0 s) = (ticks s) mod 3
  ∧ str_in "```" (replace_go "```" "" 0 s) = false.
Proof.
  revert s. induction n as [|n IH]; intros s Hn.
  { destruct s; [done|]. simpl in Hn. lia. }
  destruct s as [|c s]; [done|].
  destruct (String.prefix "```" (String c s)) eqn:Hp.
  - apply prefix_split in Hp as [r Hr]. rewrite Hr.
    rewrite (replace_go_match "`" "``" "" r), app_nil_l_str.
    destruct (IH r) as [Ht Hin].
    { apply (f_equal String.length) in Hr. rewrite length_app_str in Hr.
      simpl in Hr, Hn. lia. }
    split; [|done]. rewrite Ht.
    change (ticks ("```" +:+ r)) with (3 + ticks r).
    replace (3 + ticks r) with (ticks r + 1 * 3) by lia.
    by rewrite Nat.Div0.mod_add.
  - rewrite replace_go_cons, Hp.
    destruct (IH s) as [Ht Hin]; [simpl in Hn; lia|].
    assert (Hlt : ticks (String c s) < 3).
    { destruct (decide (3 ≤ ticks (String c s))) as [H3|]; [|lia].
      apply prefix_fence_ticks in H3. congruence. }
    assert (Hsame : ticks (String c (replace_go "```" "" 0 s)) = ticks (String c s)).
    { rewrite ticks_cons in Hlt. rewrite !ticks_cons.
      destruct (ascii_dec "`" c); [|done].
      rewrite Ht, Nat.mod_small; lia. }
    split.
    + rewrite Hsame. symmetry. apply Nat.mod_small. lia.
    + rewrite str_in_cons, Hin, orb_false_r.
      destruct (String.prefix "```" (String c (replace_go "```" "" 0 s))) eqn:Hp';
        [|done].
      apply prefix_fence_ticks in Hp'. lia.
Qed.

Lemma clean_content_fence_free content :
  startswith content "```" = true →
  str_in "```" (rag.clean_content content) = false.
Proof.
  intros Hs. unfold rag.clean_content. rewrite Hs.
  destruct (startswith content "```json");
    (destruct (str_in "```" (strip _)) eqn:Hin; [|done]);
    apply str_in_strip in Hin; unfold replace in Hin;
    by rewrite (proj2 (replace_go_fence_free _ _ (le_n _))) in Hin.
Qed.

Lemma clean_content_fenced content body :
  fenced content body → rag.clean_content content = strip body.
Proof.
  intros [b t Hb Ht|b t Hb Ht Hplain]; unfold rag.clean_content.
  - assert (Hb' : no_match_in "```" b ("```" +:+ t) = true)
      by (apply no_match_in_tail; [simpl; lia|done]).
    unfold startswith. rewrite prefix_app.
    rewrite <-(strip_app_blank b t Ht). f_equal.
    unfold replace.
    rewrite (replace_go_match "`" "``json" "" (b +:+ "```" +:+ t)), app_nil_l_str.
    rewrite (replace_go_copy "```json" "" b ("```" +:+ t))
      by (by apply (no_match_in_longer "```")).
    rewrite (replace_go_json_close t Ht).
    rewrite (replace_go_copy "```" "" b ("```" +:+ t) Hb').
    rewrite (replace_go_match "`" "``" "" t), app_nil_l_str.
    by rewrite (replace_go_blank "`" "``" "" t eq_refl Ht).
  - assert (Hb' : no_match_in "```" b ("```" +:+ t) = true)
      by (apply no_match_in_tail; [simpl; lia|done]).
    rewrite Hplain. unfold startswith. rewrite prefix_app.
    rewrite <-(strip_app_blank b t Ht). f_equal.
    unfold replace.
    rewrite (replace_go_match "`" "``" "" (b +:+ "```" +:+ t)), app_nil_l_str.
    rewrite (replace_go_copy "```" "" b ("```" +:+ t) Hb').
    rewrite (replace_go_match "`" "``" "" t), app_nil_l_str.
    by rewrite (replace_go_blank "`" "``" "" t eq_refl Ht).
Qed.

Lemma clean_content_unfenced content :
  startswith content "```" = false → rag.clean_content content = content.
Proof.
  intros Hno. unfold rag.clean_content, startswith in *.
  by rewrite (prefix_trans_false "```" "```json" content eq_refl Hno), Hno.
Qed.

(** *** The candidate list *)


(** *** Validation *)

Lemma py_in_class field v e : rag.py_in field v = Raise e → exn_cls e = TypeError.
Proof. destruct v; simpl; intros [= <-]; done. Qed.

Lemma all_in_class fields v e : rag.all_in fields v = Raise e → exn_cls e = TypeError.
Proof.
  induction fields as [|f fields IH]; simpl; [done|].
  unfold mbind, result_bind.
  destruct (rag.py_in f v) as [[]|e'] eqn:Hin; [done|done|].
  intros [= <-]. by eapply py_in_class.
Qed.

Lemma validated_cases_class cases e :
  rag.validated_cases cases = Raise e → exn_cls e = TypeError.
Proof.
  induction cases as [|tc cases IH]; simpl; [done|].
  unfold mbind, result_bind, rag._validate_test_case.
  destruct (rag.all_in rag.required_fields tc) as [ok|e'] eqn:Hv.
  - destruct (rag.validated_cases cases) as [kept|e'']; [done|].
    intros [= <-]. by apply IH.
  - intros [= <-]. by eapply all_in_class.
Qed.

Lemma py_iter_class v e : rag.py_iter v = Raise e → exn_cls e = TypeError.
Proof. destruct v; simpl; intros [= <-]; done. Qed.

Lemma validate_iterable v :
  iterable v = true → rag._validate_test_case v = Ok (has_fields v).
Proof.
  intros Hv. unfold has_fields.
  destruct (rag._validate_test_case v) as [b|e] eqn:Hval; [done|].
  exfalso. unfold rag._validate_test_case, rag.required_fields in Hval.
  destruct v; try done; simpl in Hval; unfold mbind, result_bind in Hval;
    repeat (match type of Hval with
            | context [if ?b then _ else _] => destruct b
            end; try done).
Qed.

Lemma validated_cases_filter cases :
  Forall (λ v, iterable v = true) cases →
  rag.validated_cases cases = Ok (List.filter has_fields cases).
Proof.
  induction 1 as [|tc cases Htc _ IH]; [done|].
  simpl. rewrite validate_iterable, IH by done. simpl. done.
Qed.

Lemma has_fields_dict d :
  has_fields (PyDict d) = true ↔
  ∀ field, field ∈ rag.required_fields → dict_has field d = true.
Proof.
  unfold has_fields, rag._validate_test_case, rag.required_fields.
  simpl. unfold mbind, result_bind. split.
  - intros Hall field Hfield.
    repeat (apply elem_of_cons in Hfield as [->|Hfield];
            [by repeat (destruct (dict_has _ d); try done)|]).
    by apply elem_of_nil in Hfield.
  - intros Hall.
    rewrite !Hall by (repeat constructor). done.
Qed.

Lemma length_filter_split {A} (f : A → bool) (l : list A) :
  length (List.filter f l) + length (List.filter (λ x, negb (f x)) l) = length l.
Proof.
  induction l as [|x l IH]; [done|]. simpl. destruct (f x); simpl; lia.
Qed.

Section generation.
Context `{Environment}.
Import rag.

Lemma generate_unfold q chunks prompt :
  build_prompt q chunks = Ok prompt →
  generate_test_cases q chunks =
  try_except
    (content ← generate_content system_prompt prompt;
     parse_and_validate (clean_content content))
    (λ e, Ok [generation_error_case e]).
Proof. intros Hp. unfold generate_test_cases. by rewrite Hp. Qed.

Lemma parse_and_validate_parsed content parsed :
  json_loads content = Ok parsed →
  parse_and_validate content =
  cases ← py_iter (select_test_cases parsed); validated_cases cases.
Proof.
  intros Hparsed. unfold parse_and_validate. rewrite Hparsed. simpl.
  destruct (py_iter (select_test_cases parsed)) as [cases|e] eqn:Hiter; simpl.
  - destruct (validated_cases cases) as [kept|e] eqn:Hval; simpl; [done|].
    by rewrite (validated_cases_class _ _ Hval).
  - by rewrite (py_iter_class _ _ Hiter).
Qed.

Lemma parse_and_validate_failed content je :
  json_loads content = Raise je →
  parse_and_validate content =
  if decide (exn_cls je = JSONDecodeError)
  then Ok [parse_error_case je content] else Raise je.
Proof. intros Hje. unfold parse_and_validate. by rewrite Hje. Qed.


(** Validation where the field test is defined.  When every candidate is
    an object, an array or a string, the result is the candidates that pass
    the field test, in order: an object is kept exactly when it has the
    five mandatory keys, nothing is repaired, and the result is shorter
    than the candidate list by the number of candidates that fail the
    test. *)
Theorem validation_keeps_complete_records q chunks prompt content parsed cases :
  build_prompt q chunks = Ok prompt →
  generate_content system_prompt prompt = Ok content →
  json_loads (clean_content content) = Ok parsed →
  py_iter (select_test_cases parsed) = Ok cases →
  Forall (λ v, iterable v = true) cases →
  let kept := List.filter has_fields cases in
  generate_test_cases q chunks = Ok kept
  ∧ (∀ d, PyDict d ∈ cases →
       (PyDict d ∈ kept ↔
        ∀ field, field ∈ required_fields → dict_has field d = true))
  ∧ (∀ d, dict_has "Grounded_In" d = false → PyDict d ∉ kept)
  ∧ length kept + length (List.filter (λ v, negb (has_fields v)) cases)
    = length cases.
Proof.
  intros Hprompt Hreply Hparsed Hiter Hcases kept.
  assert (Hin : ∀ d, PyDict d ∈ kept ↔ PyDict d ∈ cases ∧ has_fields (PyDict d) = true).
  { intros d. unfold kept. by rewrite !list_elem_of_In, filter_In. }
  split_and!.
  - rewrite (generate_unfold _ _ _ Hprompt), Hreply. simpl.
    rewrite (parse_and_validate_parsed _ _ Hparsed), Hiter. simpl.
    by rewrite validated_cases_filter.
  - intros d Hd. rewrite Hin, has_fields_dict. tauto.
  - intros d Hd. rewrite Hin, has_fields_dict. intros [_ Hall].
    rewrite Hall in Hd; [done|]. repeat constructor.
  - apply length_filter_split.
Qed.

Lemma metadata_get_ok chunk md k :
  dict_lookup "metadata" chunk = Some (PyDict md) →
  metadata_get chunk k = Ok (dict_get k (PyStr "unknown") md).
Proof. intros Hmd. unfold metadata_get, dict_getitem. by rewrite Hmd. Qed.

Lemma context_parts_ok idx chunks :
  Forall well_formed_chunk chunks → ∃ parts, context_parts idx chunks = Ok parts.
Proof.
  intros Hwf. revert idx.
  induction Hwf as [|chunk chunks (md & source & text & Hmd & _ & Htext) _ IH];
    intros idx; [by eexists|].
  destruct (IH (S idx)) as [parts Hparts].
  simpl. rewrite !(metadata_get_ok _ _ _ Hmd). simpl.
  unfold dict_getitem. rewrite Htext. simpl.
  rewrite Hparts. simpl. by eexists.
Qed.

Lemma source_docs_ok chunks :
  Forall well_formed_chunk chunks → ∃ docs, source_docs chunks = Ok docs.
Proof.
  intros Hwf. unfold source_docs.
  assert (∃ names, mapM (λ chunk, metadata_get chunk "source_document") chunks
                   = Ok (map PyStr names)) as [names ->].
  { induction Hwf as [|chunk chunks (md & source & text & Hmd & Hsrc & _) _ IH].
    - by exists [].
    - destruct IH as [names IH]. exists (source :: names).
      simpl. rewrite (metadata_get_ok _ _ _ Hmd). simpl.
      rewrite Hsrc, IH. done. }
  simpl.
  assert (List.find is_container (map PyStr names) = None) as ->.
  { by induction names. }
  assert (all_str (map PyStr names) = Some names) as ->.
  { induction names as [|n names IH]; [done|]. simpl. by rewrite IH. }
  by eexists.
Qed.

Lemma build_prompt_ok q chunks :
  Forall well_formed_chunk chunks → ∃ prompt, build_prompt q chunks = Ok prompt.
Proof.
  intros Hwf. unfold build_prompt, compile_context.
  destruct (context_parts_ok 1 chunks Hwf) as [parts ->].
  destruct (source_docs_ok chunks Hwf) as [docs ->].
  by eexists.
Qed.

Lemma generation_error_diagnostic e : diagnostic_for e (generation_error_case e).
Proof. by eexists _, _. Qed.

Lemma parse_error_diagnostic je content :
  diagnostic_for je (parse_error_case je content).
Proof. by eexists _, _. Qed.

(** C1, as the code has it.  On chunks that have a text and a metadata
    dictionary naming its source by a string, [generate_test_cases]
    returns a list; when the backend call raises, and when the answer is
    not JSON, the list is one diagnostic test case carrying the failure in
    [Test_Scenario], with [Grounded_In] equal to [["system_error"]]. *)
Theorem generation_failures_are_diagnostics q chunks :
  Forall well_formed_chunk chunks →
  ∃ prompt cases,
    build_prompt q chunks = Ok prompt
    ∧ generate_test_cases q chunks = Ok cases
    ∧ (∀ e, generate_content system_prompt prompt = Raise e →
         cases = [generation_error_case e]
         ∧ ∃ v, cases = [v] ∧ diagnostic_for e v)
    ∧ (∀ content je,
         generate_content system_prompt prompt = Ok content →
         json_loads (clean_content content) = Raise je →
         ∃ v, cases = [v] ∧ diagnostic_for je v).
Proof.
  intros Hwf. destruct (build_prompt_ok q chunks Hwf) as [prompt Hprompt].
  exists prompt.
  rewrite (generate_unfold _ _ _ Hprompt).
  destruct (generate_content system_prompt prompt) as [content|e] eqn:Hreply.
  - simpl.
    destruct (json_loads (clean_content content)) as [parsed|je] eqn:Hparsed.
    + destruct (parse_and_validate (clean_content content)) as [cases|e];
        eexists;
        (split_and!; [done|done|done|intros ? ? [= <-] ?; congruence]).
    + rewrite (parse_and_validate_failed _ _ Hparsed).
      case_decide; simpl; eexists; (split_and!; [done|done|done|]);
        intros ? je' [= <-] Hje; assert (je' = je) as -> by congruence;
        eexists; (split; [done|]).
      * apply parse_error_diagnostic.
      * apply generation_error_diagnostic.
  - simpl. eexists. split_and!; [done|done| |done].
    intros ? [= <-]. split; [done|].
    eexists. split; [done|]. apply generation_error_diagnostic.
Qed.

End generation.

(** ** Script synthesis *)

Lemma app_nonempty (a b : string) : nonempty a = true → a +:+ b ≠ "".
Proof. destruct a; [done|]. by rewrite app_cons_str. Qed.

Section synthesis.
Context `{Environment}.
Import script_generation.

Lemma header_nonempty test_id feature grounded_in script :
  header test_id feature grounded_in +:+ script ≠ "".
Proof. unfold header. rewrite app_assoc_str. by apply app_nonempty. Qed.

Lemma error_script_nonempty e test_id feature :
  error_script e test_id feature ≠ "".
Proof. unfold error_script. by apply app_nonempty. Qed.

(** The fallback script names the failure and says that generation failed. *)
Lemma error_script_documents e test_id feature :
  str_in (exn_str e) (error_script e test_id feature) = true
  ∧ str_in "ERROR: Script generation failed" (error_script e test_id feature) = true.
Proof.
  unfold error_script. split.
  - apply str_in_spec. by eexists _, _.
  - do 6 apply str_in_app_r. by apply str_in_app_l.
Qed.

(** C8, as the code has it.  Once the two retrievals from the knowledge
    base have returned, with whatever selector evidence, even none,
    [generate_script] returns a script that is not empty: the header and
    the cleaned answer, or, when the backend call raises, the fallback
    script, which documents the failure. *)
Theorem script_is_never_empty collection test_case selector_context doc_context :
  retrieve_html_selectors collection = Ok selector_context →
  retrieve_relevant_docs collection test_case = Ok doc_context →
  let prompt := user_prompt (json_dumps (PyDict test_case))
                  selector_context doc_context in
  let test_id := py_str container_repr
                   (dict_get "Test_ID" (PyStr "Unknown") test_case) in
  let feature := py_str container_repr
                   (dict_get "Feature" (PyStr "Unknown") test_case) in
  ∃ script,
    generate_script collection test_case = Ok script
    ∧ script ≠ ""
    ∧ (∀ e, generate_content system_prompt prompt = Raise e →
         script = error_script e test_id feature
         ∧ str_in (exn_str e) script = true
         ∧ str_in "ERROR: Script generation failed" script = true)
    ∧ (∀ reply grounded_in,
         generate_content system_prompt prompt = Ok reply →
         join_value ", " (dict_get "Grounded_In" (PyList []) test_case)
           = Ok grounded_in →
         script = header test_id feature grounded_in +:+ clean_script reply).
Proof.
  intros Hsel Hdoc prompt test_id feature.
  unfold generate_script. rewrite Hsel, Hdoc. simpl.
  fold prompt test_id feature.
  destruct (generate_content system_prompt prompt) as [reply|e]; simpl.
  - destruct (join_value ", " (dict_get "Grounded_In" (PyList []) test_case))
      as [grounded_in|e]; simpl; eexists; (split; [done|]).
    + split_and!; [apply header_nonempty|done|]. by intros ? ? [= <-] [= <-].
    + split_and!; [apply error_script_nonempty|done|done].
  - eexists. split; [done|].
    split_and!; [apply error_script_nonempty| |done].
    intros ? [= <-]. split; [done|]. apply error_script_documents.
Qed.

End synthesis.

(** ** Runs in the reference environment *)



Lemma validation_keeps_complete_records_witness :
  let E := reference.replying two_records_reply in
  let prompt := rag.user_prompt "list the cart tests" "" [] in
  let cases := [PyDict reference.valid_case; PyDict reference.ungrounded_case] in
  rag.py_iter (rag.select_test_cases (PyList cases)) = Ok cases
  ∧ Forall (λ v, iterable v = true) cases
  ∧ rag.generate_test_cases "list the cart tests" [] = Ok [PyDict reference.valid_case]
  ∧ PyDict reference.ungrounded_case ∉ List.filter has_fields cases.
Proof.
  intros E prompt cases.
  assert (Hcases : Forall (λ v, iterable v = true) cases) by (by repeat constructor).
  assert (Hprompt : rag.build_prompt "list the cart tests" [] = Ok prompt)
    by reflexivity.
  assert (Hreply : generate_content rag.system_prompt prompt = Ok two_records_reply)
    by reflexivity.
  assert (Hparsed : json_loads (rag.clean_content two_records_reply)
                    = Ok (PyList cases)) by reflexivity.
  assert (Hiter : rag.py_iter (rag.select_test_cases (PyList cases)) = Ok cases)
    by reflexivity.
  destruct (validation_keeps_complete_records "list the cart tests" [] prompt
              two_records_reply (PyList cases) cases
              Hprompt Hreply Hparsed Hiter Hcases) as (Hrun & _ & Hdrop & _).
  split_and!; [exact Hiter|exact Hcases|exact Hrun|].
  exact (Hdrop reference.ungrounded_case eq_refl).
Defined.

(** C2.  The answer [[record, 5]], whose record has the five mandatory
    fields: the field test raises [TypeError] on the number, the handler
    written for backend failures catches it, and the result is the single
    Generation Error diagnostic.  The complete record is not kept, while
    the same record next to an incomplete one is. *)
Theorem complete_record_is_lost :
  (∀ field, field ∈ rag.required_fields →
     dict_has field reference.valid_case = true)
  ∧ rag._validate_test_case (PyDict reference.valid_case) = Ok true
  ∧ rag._validate_test_case (PyInt 5)
    = Raise (Exn TypeError "argument of type 'int' is not iterable")
  ∧ (let E := reference.replying record_and_number_reply in
     json_loads (rag.clean_content record_and_number_reply)
       = Ok (PyList [PyDict reference.valid_case; PyInt 5])
     ∧ rag.generate_test_cases "list the cart tests" [] =
         Ok [rag.generation_error_case
               (Exn TypeError "argument of type 'int' is not iterable")]
     ∧ ¬ (∃ kept, rag.generate_test_cases "list the cart tests" [] = Ok kept
                  ∧ PyDict reference.valid_case ∈ kept))
  ∧ (let E := reference.replying two_records_reply in
     rag.generate_test_cases "list the cart tests" []
     = Ok [PyDict reference.valid_case]).
Proof.
  split_and!; [|reflexivity..| |intros E; reflexivity].
  - apply has_fields_dict. reflexivity.
  - intros E. split_and!; [reflexivity..|].
    intros (kept & Hrun & Hin).
    assert (Heq : rag.generate_test_cases "list the cart tests" [] =
      Ok [rag.generation_error_case
            (Exn TypeError "argument of type 'int' is not iterable")])
      by reflexivity.
    rewrite Hrun in Heq. injection Heq as ->.
    apply list_elem_of_singleton in Hin. discriminate.
Qed.

Lemma generation_failures_are_diagnostics_witness :
  let E := reference.offline in
  Forall well_formed_chunk [retrieved_chunk]
  ∧ rag.generate_test_cases "list the cart tests" [retrieved_chunk] =
      Ok [rag.generation_error_case (Exn LibraryError "429 quota exceeded")].
Proof.
  intros E.
  assert (Hwf : Forall well_formed_chunk [retrieved_chunk]).
  { repeat constructor. by eexists _, _, _. }
  split; [exact Hwf|].
  destruct (generation_failures_are_diagnostics "list the cart tests"
              [retrieved_chunk] Hwf) as (prompt & cases & Hprompt & Hrun & Hdown & _).
  rewrite Hrun. f_equal.
  injection Hprompt as <-.
  exact (proj1 (Hdown _ eq_refl)).
Defined.

(** C1, as stated, fails: the context is compiled before the [try] is
    entered, so a chunk that came back from the store without metadata
    raises [AttributeError] out of [generate_test_cases]. *)
Lemma chunk_without_metadata_counterexample :
  let E := reference.orphaned in
  rag.retrieve_context reference.empty_store "list the cart tests" 6
    = Ok [orphan_chunk]
  ∧ rag.generate_test_cases "list the cart tests" [orphan_chunk]
    = Raise (Exn AttributeError "'NoneType' object has no attribute 'get'")
  ∧ ¬ (∃ cases, rag.generate_test_cases "list the cart tests"
                  [orphan_chunk] = Ok cases).
Proof.
  intros E. split_and!; [reflexivity..|].
  intros (cases & Hrun). discriminate Hrun.
Qed.

Lemma script_is_never_empty_witness :
  let E := reference.offline in
  script_generation.retrieve_html_selectors None = Ok ""
  ∧ script_generation.retrieve_relevant_docs None reference.valid_case = Ok ""
  ∧ script_generation.generate_script None reference.valid_case =
      Ok (script_generation.error_script (Exn LibraryError "429 quota exceeded")
            "TC-001" "Cart")
  ∧ script_generation.error_script (Exn LibraryError "429 quota exceeded")
      "TC-001" "Cart" ≠ "".
Proof.
  intros E.
  assert (Hsel : script_generation.retrieve_html_selectors None = Ok "")
    by reflexivity.
  assert (Hdoc : script_generation.retrieve_relevant_docs None reference.valid_case
                 = Ok "") by reflexivity.
  destruct (script_is_never_empty None reference.valid_case "" "" Hsel Hdoc)
    as (script & Hrun & Hne & Hdown & _).
  destruct (Hdown (Exn LibraryError "429 quota exceeded") eq_refl) as (Hscript & _).
  rewrite Hscript in Hrun, Hne.
  split_and!; [exact Hsel|exact Hdoc|exact Hrun|exact Hne].
Defined.

(** C8, as stated, fails: the retrievals run before the [try], so a
    knowledge base whose query raises makes [generate_script] raise. *)
Lemma store_failure_counterexample :
  let E := reference.store_down in
  script_generation.generate_script (Some reference.empty_store) reference.valid_case
    = Raise (Exn LibraryError "collection does not exist")
  ∧ ¬ (∃ script, script_generation.generate_script (Some reference.empty_store)
                   reference.valid_case = Ok script).
Proof.
  intros E. split; [reflexivity|].
  intros (script & Hrun). discriminate Hrun.
Qed.

(** Two documents with the same stem: the counter keeps their identifiers
    apart. *)
Example same_stem_batch :
  let E := reference.offline in
  let files : list ingest.upload :=
    [("/tmp/a", list_byte_of_string "add to cart", "notes.txt");
     ("/tmp/b", list_byte_of_string "pay", "notes.md")] in
  map ingest.chunk_id
      (ingest.produced (ingest.ingest_documents files
                          (ingest.init reference.empty_store)).1)
  = ["notes_1"; "notes_2"; "notes_3"; "notes_4"].
Proof. reflexivity. Qed.

(** * Further properties *)

(** ** The selector catalogue *)

Section catalogue.
Import selectors.

Lemma append_if_semantic c b' info sd b :
  semantic (append_if c b' info sd) b =
  semantic sd b ++ (if c && bool_decide (b = b') then [info] else []).
Proof.
  destruct c; simpl; [|by rewrite app_nil_r].
  case_decide; [by rewrite bool_decide_true|].
  by rewrite bool_decide_false, app_nil_r.
Qed.

(** What one element adds to a bucket. *)
Lemma categorize_semantic e info sd b :
  semantic (_categorize_semantic e info sd) b =
  semantic sd b ++ replicate (hits b e) info.
Proof.
  unfold _categorize_semantic. cbv zeta.
  rewrite !append_if_semantic.
  destruct b; simpl;
    rewrite ?andb_false_r, ?andb_true_r, ?app_nil_r, <-?app_assoc;
    repeat match goal with
           | |- context [if ?c then _ else _] => destruct c
           end; simpl; rewrite ?app_nil_r; done.
Qed.

Lemma extract_element_semantic sd e b :
  semantic (extract_element sd e) b =
  semantic sd b ++ replicate (hits b e) (info_of e).
Proof.
  unfold extract_element.
  destruct (element_step sd e) as [sd' info] eqn:Hstep.
  rewrite categorize_semantic.
  replace info with (info_of e)
    by (by rewrite <-(element_step_snd sd e), Hstep).
  f_equal. change sd' with (sd', info).1.
  by rewrite <-Hstep, element_step_semantic.
Qed.

Lemma extract_all_semantic sd es b :
  semantic (foldl extract_element sd es) b =
  semantic sd b ++ flat_map (λ e, replicate (hits b e) (info_of e)) es.
Proof.
  revert sd. induction es as [|e es IH]; intros sd; simpl.
  - by rewrite app_nil_r.
  - by rewrite IH, extract_element_semantic, <-app_assoc.
Qed.

(** X1. Each semantic bucket lists the elements of the page in document
    order, an element once for every check of the bucket that fires on
    it: an element matched by text and by attributes is listed twice. *)
Theorem bucket_contents `{Environment} (html : string) (b : bucket) :
  semantic (extract_selectors html) b =
  flat_map (λ e, replicate (hits b e) (info_of e)) (soup_find_all html).
Proof. unfold extract_selectors. simpl. apply extract_all_semantic. Qed.

End catalogue.

Section selector_lists.
Import selectors.

Lemma recorded_record ty' s st ty :
  recorded (record_selector ty' s st) ty =
  ((recorded st ty).1.1 ++ [s],
   (recorded st ty).1.2 ++ (if decide (ty = ty') then [s] else []),
   (recorded st ty).2 ++ [s]).
Proof.
  destruct st as [sd info]. unfold recorded. simpl.
  case_decide; [done|]. by rewrite app_nil_r.
Qed.

Lemma recorded_set_id v st ty : recorded (set_id v st) ty = recorded st ty.
Proof. by destruct st. Qed.

Lemma recorded_set_name v st ty : recorded (set_name v st) ty = recorded st ty.
Proof. by destruct st. Qed.

Lemma recorded_classes tokens st ty :
  recorded (foldl (λ st cls, record_selector classes ("." +:+ cls) st) st tokens) ty =
  ((recorded st ty).1.1 ++ map (λ cls, "." +:+ cls) tokens,
   (recorded st ty).1.2 ++ (if decide (ty = classes)
                            then map (λ cls, "." +:+ cls) tokens else []),
   (recorded st ty).2 ++ map (λ cls, "." +:+ cls) tokens).
Proof.
  revert st. induction tokens as [|cls tokens IH]; intros st.
  - simpl. rewrite !app_nil_r. case_decide; rewrite ?app_nil_r; by destruct st.
  - simpl. rewrite IH, recorded_record. simpl.
    case_decide; by rewrite <-!app_assoc.
Qed.

Lemma recorded_element_step sd e ty :
  recorded (element_step sd e) ty =
  (all_selectors sd ++ element_selectors e,
   by_type sd ty ++ selectors_of ty e,
   element_selectors e).
Proof.
  unfold element_step, element_selectors, selectors_of, id_selectors,
    name_selectors, class_selectors, data_test_selectors.
  destruct (truthy (attr_id e)) as [i|], (truthy (attr_name e)) as [n|],
    (truthy (attr_data_test e)) as [d|];
    rewrite ?recorded_record, ?recorded_classes, ?recorded_set_name,
      ?recorded_record, ?recorded_set_id, ?recorded_record;
    unfold recorded; simpl;
    destruct ty; simpl; rewrite ?app_nil_r, <-?app_assoc; simpl; done.
Qed.

Lemma categorize_lists e info sd :
  all_selectors (_categorize_semantic e info sd) = all_selectors sd
  ∧ by_type (_categorize_semantic e info sd) = by_type sd.
Proof.
  unfold _categorize_semantic. cbv zeta.
  assert (Hall : ∀ c b i sd', all_selectors (append_if c b i sd') = all_selectors sd')
    by (by intros [] ? ? ?).
  assert (Hty : ∀ c b i sd', by_type (append_if c b i sd') = by_type sd')
    by (by intros [] ? ? ?).
  by rewrite !Hall, !Hty.
Qed.

Lemma extract_element_lists sd e ty :
  all_selectors (extract_element sd e) = all_selectors sd ++ element_selectors e
  ∧ by_type (extract_element sd e) ty = by_type sd ty ++ selectors_of ty e.
Proof.
  unfold extract_element.
  pose proof (recorded_element_step sd e ty) as Hrec.
  destruct (element_step sd e) as [sd' info].
  destruct (categorize_lists e info sd') as [-> ->].
  unfold recorded in Hrec. simpl in Hrec. by injection Hrec as -> -> _.
Qed.

Lemma extract_all_lists sd es ty :
  all_selectors (foldl extract_element sd es) =
    all_selectors sd ++ flat_map element_selectors es
  ∧ by_type (foldl extract_element sd es) ty =
    by_type sd ty ++ flat_map (selectors_of ty) es.
Proof.
  revert sd. induction es as [|e es IH]; intros sd; simpl.
  - by rewrite !app_nil_r.
  - destruct (IH (extract_element sd e)) as [-> ->].
    destruct (extract_element_lists sd e ty) as [-> ->].
    by rewrite <-!app_assoc.
Qed.

Lemma extract_selectors_by_type `{Environment} html ty :
  by_type (extract_selectors html) ty
  = flat_map (selectors_of ty) (soup_find_all html).
Proof.
  unfold extract_selectors. simpl.
  by destruct (extract_all_lists empty_selectors_data (soup_find_all html) ty)
    as [_ ->].
Qed.

Lemma info_of_selectors e : ei_selectors (info_of e) = element_selectors e.
Proof.
  pose proof (recorded_element_step empty_selectors_data e ids) as Hrec.
  unfold recorded in Hrec. unfold info_of. by injection Hrec as _ _ ->.
Qed.

(** The tag, [id] and [name] entries are set once and for all. *)
Lemma info_of_fields e :
  ei_tag (info_of e) = tag_name e
  ∧ ei_id (info_of e) = truthy (attr_id e)
  ∧ ei_name (info_of e) = truthy (attr_name e).
Proof.
  assert (Hrec : ∀ ty s st, ei_tag (record_selector ty s st).2 = ei_tag st.2
                            ∧ ei_id (record_selector ty s st).2 = ei_id st.2
                            ∧ ei_name (record_selector ty s st).2 = ei_name st.2)
    by (by intros ? ? [? ?]).
  assert (Hcls : ∀ tokens st,
    let st' := foldl (λ st cls, record_selector classes ("." +:+ cls) st) st tokens in
    ei_tag st'.2 = ei_tag st.2 ∧ ei_id st'.2 = ei_id st.2
    ∧ ei_name st'.2 = ei_name st.2).
  { induction tokens as [|cls tokens IH]; intros st; [done|].
    simpl. destruct (IH (record_selector classes ("." +:+ cls) st)) as (-> & -> & ->).
    apply Hrec. }
  unfold info_of, element_step.
  destruct (truthy (attr_id e)) as [i|], (truthy (attr_name e)) as [n|],
    (truthy (attr_data_test e)) as [d|];
    repeat match goal with
    | |- context [record_selector ?ty ?s ?st] =>
        destruct (Hrec ty s st) as (-> & -> & ->)
    | |- context [foldl ?f ?st ?l] =>
        destruct (Hcls l st) as (-> & -> & ->)
    end; simpl; done.
Qed.

(** X3. The selectors of an element are recorded in the order id, name,
    class tokens, data-test; an attribute whose value is empty gives no
    selector.  The per-type lists keep that order over the whole page,
    duplicates included. *)
Theorem selectors_in_document_order `{Environment} (html : string)
    (ty : selector_type) (e : Tag) :
  by_type (extract_selectors html) ty
    = flat_map (selectors_of ty) (soup_find_all html)
  ∧ ei_selectors (info_of e) = element_selectors e
  ∧ ei_tag (info_of e) = tag_name e
  ∧ ei_id (info_of e) = truthy (attr_id e)
  ∧ ei_name (info_of e) = truthy (attr_name e).
Proof.
  split_and!; [apply extract_selectors_by_type|apply info_of_selectors
              |apply info_of_fields..].
Qed.

Lemma elem_of_flat_map {A B} (f : A → list B) (l : list A) (y : B) :
  y ∈ flat_map f l ↔ ∃ x, x ∈ l ∧ y ∈ f x.
Proof.
  rewrite list_elem_of_In, in_flat_map.
  by setoid_rewrite list_elem_of_In.
Qed.

(** X2. The flat selector list has no duplicate, and holds exactly the
    selectors of the four per-type lists, that is exactly the selectors of
    the elements of the page. *)
Theorem all_selectors_is_a_set `{Environment} (html : string) :
  let sd := extract_selectors html in
  NoDup (all_selectors sd)
  ∧ (∀ x, x ∈ all_selectors sd ↔ ∃ ty, x ∈ by_type sd ty)
  ∧ (∀ x, x ∈ all_selectors sd ↔
          ∃ e, e ∈ soup_find_all html ∧ x ∈ ei_selectors (info_of e)).
Proof.
  intros sd.
  assert (Hall : ∀ x, x ∈ all_selectors sd ↔
                      ∃ e, e ∈ soup_find_all html ∧ x ∈ element_selectors e).
  { intros x. unfold sd, extract_selectors, list_set. simpl.
    rewrite elem_of_remove_dups.
    destruct (extract_all_lists empty_selectors_data (soup_find_all html) ids)
      as [-> _].
    simpl. apply elem_of_flat_map. }
  split_and!.
  - apply NoDup_remove_dups.
  - intros x. rewrite Hall. split.
    + intros (e & He & Hx). unfold element_selectors in Hx.
      rewrite !elem_of_app in Hx.
      destruct Hx as [Hx|[Hx|[Hx|Hx]]];
        [exists ids|exists names|exists classes|exists data_test];
        unfold sd; rewrite extract_selectors_by_type;
        apply elem_of_flat_map; by exists e.
    + intros (ty & Hx). unfold sd in Hx.
      rewrite extract_selectors_by_type in Hx.
      apply elem_of_flat_map in Hx as (e & He & Hx).
      exists e. split; [done|]. unfold element_selectors.
      rewrite !elem_of_app. destruct ty; simpl in Hx; auto.
  - intros x. rewrite Hall. by setoid_rewrite info_of_selectors.
Qed.

End selector_lists.

(** ** Ingestion statistics *)

Section statistics.
Context `{Environment}.
Import ingest.

Lemma count_processed_app a b :
  count_processed (a ++ b) = count_processed a + count_processed b.
Proof. unfold count_processed. by rewrite List.filter_app, length_app. Qed.

Lemma stored_chunks_app a b :
  stored_chunks (a ++ b) = stored_chunks a + stored_chunks b.
Proof.
  induction a as [|[f ty n|f err] a IH]; simpl; [done| |done]. rewrite IH. lia.
Qed.

Lemma count_tagged_app ty a b :
  count_tagged ty (a ++ b) = count_tagged ty a + count_tagged ty b.
Proof. unfold count_tagged. by rewrite List.filter_app, length_app. Qed.

Lemma doc_count_bump k k' d :
  doc_count k' (bump k d) = doc_count k' d + (if decide (k = k') then 1 else 0).
Proof.
  induction d as [|[k0 n] d IH]; simpl.
  - by destruct (decide (k = k')).
  - destruct (decide (k0 = k)) as [->|Hk0]; simpl.
    + destruct (decide (k = k')); [done|lia].
    + destruct (decide (k0 = k')) as [->|]; [|done].
      rewrite decide_False by done. lia.
Qed.

Lemma bump_keys k d :
  map fst (bump k d) = if decide (k ∈ map fst d) then map fst d else map fst d ++ [k].
Proof.
  induction d as [|[k0 n] d IH].
  - destruct (decide (k ∈ map fst [])) as [Hin|_]; [|done].
    by apply elem_of_nil in Hin.
  - change (bump k ((k0, n) :: d))
      with (if decide (k0 = k) then (k0, n + 1) :: d else (k0, n) :: bump k d).
    change (map fst ((k0, n) :: d)) with (k0 :: map fst d).
    destruct (decide (k0 = k)) as [->|Hk0].
    + destruct (decide (k ∈ k :: map fst d)) as [_|Hout]; [done|].
      exfalso. apply Hout. left.
    + change (map fst ((k0, n) :: bump k d)) with (k0 :: map fst (bump k d)).
      rewrite IH.
      destruct (decide (k ∈ map fst d)) as [Hin|Hin],
        (decide (k ∈ k0 :: map fst d)) as [Hin'|Hin']; try done.
      * exfalso. apply Hin'. by right.
      * apply elem_of_cons in Hin' as [?|?]; congruence.
Qed.

Lemma bump_NoDup k d : NoDup (map fst d) → NoDup (map fst (bump k d)).
Proof.
  intros Hd. rewrite bump_keys. case_decide; [done|].
  apply NoDup_app. split_and!; [done| |apply NoDup_singleton].
  intros x Hx ->%list_elem_of_singleton. done.
Qed.

Lemma count_tagged_processed ty' f ty n :
  count_tagged ty' [Processed f ty n] = if decide (ty = ty') then 1 else 0.
Proof.
  unfold count_tagged. simpl.
  destruct (decide (ty = ty')); [by rewrite bool_decide_true|].
  by rewrite bool_decide_false.
Qed.

(** One file keeps the statistics consistent, whether it fails or not. *)
Lemma ingest_file_consistent st file s :
  consistent st →
  ∃ st', ingest_file st file s = ((file_body file s).1, Ok st') ∧ consistent st'.
Proof.
  intros (Hfiles & Hchunks & Hkeys & Htypes).
  unfold ingest_file, try_method, mbind, method_bind.
  destruct (file_body file s) as [s' [[ty n]|e]]; simpl;
    eexists; (split; [done|]); unfold consistent; simpl;
    rewrite count_processed_app, stored_chunks_app.
  - split_and!; [by rewrite Hfiles|simpl; lia|by apply bump_NoDup|].
    intros ty'.
    by rewrite doc_count_bump, count_tagged_app, Htypes, count_tagged_processed.
  - split_and!; [rewrite Hfiles; unfold count_processed; simpl; lia
                |simpl; lia|done|].
    intros ty'. rewrite count_tagged_app, Htypes.
    unfold count_tagged. simpl. lia.
Qed.

Lemma ingest_loop_consistent st files s :
  consistent st →
  ∃ st', ingest_loop st files s = (state_after files s, Ok st') ∧ consistent st'.
Proof.
  revert st s. induction files as [|file rest IH]; intros st s Hst.
  - by exists st.
  - destruct (ingest_file_consistent st file s Hst) as (st1 & Hrun & Hst1).
    destruct (IH st1 (file_body file s).1 Hst1) as (st' & Hrest & Hst').
    exists st'. split; [|done].
    simpl. unfold mbind, method_bind. by rewrite Hrun.
Qed.

Lemma count_processed_le entries : count_processed entries ≤ length entries.
Proof. unfold count_processed. apply filter_length_le. Qed.

(** X4. The statistics [ingest_documents] returns agree with its list of
    entries: [total_files] counts the entries without error, so it is at
    most the size of the batch, and [total_chunks] adds up the chunk counts
    of those entries; a file that failed adds to neither. *)
Theorem statistics_match_entries (files : list upload) (s : ingestion) :
  ∃ st, ingest_documents files s = (state_after files s, Ok st)
    ∧ total_files st = count_processed (files_processed st)
    ∧ total_chunks st = stored_chunks (files_processed st)
    ∧ total_files st ≤ length files
    ∧ length (files_processed st) = length files.
Proof.
  destruct (ingest_loop_consistent
              {| total_files := 0; total_chunks := 0; files_processed := [];
                 doc_types := [] |} files s) as (st & Hrun & Hfiles & Hchunks & _).
  { split_and!; [done|done|constructor|done]. }
  destruct (ingest_documents_returns files s) as (st0 & Hrun0 & Hentries).
  unfold ingest_documents in Hrun0. rewrite Hrun in Hrun0.
  injection Hrun0 as <-.
  exists st. split_and!; [done|done|done| |].
  - rewrite Hfiles. etrans; [apply count_processed_le|].
    by rewrite Hentries, length_entries_of.
  - by rewrite Hentries, length_entries_of.
Qed.

(** X5. [doc_types] has one key per tag met, and the count under a tag is
    the number of files processed without error under that tag; the counts
    add up to [total_files]. *)
Theorem doc_types_count_processed_files (files : list upload) (s : ingestion) :
  ∃ st, ingest_documents files s = (state_after files s, Ok st)
    ∧ NoDup (map fst (doc_types st))
    ∧ (∀ ty, doc_count ty (doc_types st) = count_tagged ty (files_processed st))
    ∧ (∀ ty, ty ∈ map fst (doc_types st) ↔ 0 < count_tagged ty (files_processed st)).
Proof.
  assert (Hgen : ∀ files st s, consistent st →
    (∀ ty, ty ∈ map fst (doc_types st) ↔ 0 < doc_count ty (doc_types st)) →
    ∃ st', ingest_loop st files s = (state_after files s, Ok st') ∧ consistent st'
      ∧ (∀ ty, ty ∈ map fst (doc_types st') ↔ 0 < doc_count ty (doc_types st'))).
  { clear. intros files. induction files as [|file rest IH]; intros st s Hst Hpos.
    - by exists st.
    - destruct (ingest_file_consistent st file s Hst) as (st1 & Hrun & Hst1).
      assert (Hpos1 : ∀ ty, ty ∈ map fst (doc_types st1)
                            ↔ 0 < doc_count ty (doc_types st1)).
      { revert Hrun. unfold ingest_file, try_method, mbind, method_bind.
        destruct (file_body file s) as [s' [[ty n]|e]]; simpl;
          intros [= <-]; simpl; [|done].
        intros ty'. rewrite doc_count_bump, bump_keys.
        destruct (decide (ty ∈ map fst (doc_types st))) as [Hin|Hin].
        - rewrite Hpos. destruct (decide (ty = ty')) as [<-|]; [|lia].
          apply Hpos in Hin. lia.
        - rewrite elem_of_app, list_elem_of_singleton, Hpos.
          destruct (decide (ty = ty')) as [<-|]; [|intuition (try lia; congruence)].
          intuition lia. }
      destruct (IH st1 (file_body file s).1 Hst1 Hpos1) as (st' & Hrest & Hst' & Hpos').
      exists st'. split_and!; [|done|done].
      simpl. unfold mbind, method_bind. by rewrite Hrun. }
  destruct (Hgen files {| total_files := 0; total_chunks := 0;
                          files_processed := []; doc_types := [] |} s)
    as (st & Hrun & (_ & _ & Hkeys & Htypes) & Hpos).
  { split_and!; [done|done|constructor|done]. }
  { intros ty. simpl. split; [by intros ?%elem_of_nil|lia]. }
  exists st. split_and!; [done|done|done|].
  intros ty. by rewrite Hpos, Htypes.
Qed.

End statistics.

(** ** Chunks and the counter *)

Section chunk_facts.
Context `{Environment}.
Import ingest.

Lemma chunk_loop_fields source ty pieces idx s :
  ∃ chunks,
    (chunk_loop source ty idx pieces s).2 = Ok chunks
    ∧ map text chunks = pieces
    ∧ map chunk_index chunks = seq idx (length pieces)
    ∧ Forall (λ c, source_document c = source ∧ chunk_doc_type c = ty
                   ∧ has_selectors c =
                       if decide (ty = html_dom)
                       then Some (str_in "SELECTOR" (text c) || str_in "#" (text c)
                                  || str_in "class=" (text c))
                       else None) chunks.
Proof.
  revert idx s. induction pieces as [|piece rest IH]; intros idx s.
  - exists []. by split_and!.
  - simpl. unfold mbind, method_bind, next_counter.
    match goal with
    | |- context [chunk_loop source ty (S idx) rest ?s1] =>
        destruct (IH (S idx) s1) as (chunks & Hrun & Htext & Hidx & Hall);
        destruct (chunk_loop source ty (S idx) rest s1) as [s2 [chunks'|e]];
        simpl in Hrun; [injection Hrun as ->|done]
    end.
    eexists. split; [done|]. simpl. rewrite Htext, Hidx.
    split_and!; [done|done|]. constructor; [done|done].
Qed.

(** X6. [chunk_text] returns the pieces of the splitter, one chunk per
    piece and in the same order, numbered from 0, all with the source name
    and tag it was given; [has_selectors] is set on [html_dom] chunks only,
    and tells whether the piece contains [SELECTOR], [#] or [class=]. *)
Theorem chunk_text_keeps_pieces (text_content source : string) (ty : doc_type)
    (s : ingestion) :
  ∃ chunks,
    (chunk_text text_content source ty s).2 = Ok chunks
    ∧ map text chunks = split_text text_content
    ∧ map chunk_index chunks = seq 0 (length (split_text text_content))
    ∧ Forall (λ c, source_document c = source ∧ chunk_doc_type c = ty
                   ∧ has_selectors c =
                       if decide (ty = html_dom)
                       then Some (str_in "SELECTOR" (text c) || str_in "#" (text c)
                                  || str_in "class=" (text c))
                       else None) chunks.
Proof.
  destruct (chunk_loop_fields source ty (split_text text_content) 0 s)
    as (chunks & Hrun & Hfields).
  exists chunks. split; [|done].
  unfold chunk_text, mbind, method_bind.
  destruct (chunk_loop source ty 0 (split_text text_content) s) as [s' [c|e]];
    simpl in *; [by injection Hrun as ->|done].
Qed.

Lemma embed_and_store_result chunks s n :
  (embed_and_store chunks s).2 = Ok n → n = length chunks.
Proof.
  unfold embed_and_store. destruct chunks as [|c chunks]; simpl.
  - by intros [= <-].
  - unfold mbind, method_bind, lift.
    destruct (encode _) as [embeddings|e]; [|done].
    destruct (collection_add _ _ _ _ _) as [c' [e|]]; simpl; [done|].
    by intros [= <-].
Qed.

(** X7. [embed_and_store] returns the number of chunks it was given or
    raises; it never touches the counter; on an empty list it returns 0 and
    leaves the object as it is, whatever the embedding model and the store
    would do. *)
Theorem embed_and_store_counts (chunks : list chunk) (s : ingestion) :
  embed_and_store [] s = (s, Ok 0)
  ∧ (∀ n, (embed_and_store chunks s).2 = Ok n → n = length chunks)
  ∧ chunk_counter (embed_and_store chunks s).1 = chunk_counter s
  ∧ (∀ e, encode (map text chunks) = Raise e → chunks ≠ [] →
          embed_and_store chunks s = (s, Raise e)).
Proof.
  split_and!.
  - done.
  - intros n. apply embed_and_store_result.
  - apply embed_and_store_frame.
  - intros e He Hne. destruct chunks as [|c chunks]; [done|].
    unfold embed_and_store, mbind, method_bind, lift. by rewrite He.
Qed.

(** What one file adds: the chunks it produced, counted whether or not
    they were stored. *)
Lemma file_body_effect file s :
  ∃ chunks,
    produced (file_body file s).1 = produced s ++ chunks
    ∧ chunk_counter (file_body file s).1 = chunk_counter s + length chunks
    ∧ ∀ ty n, (file_body file s).2 = Ok (ty, n) → n = length chunks.
Proof.
  destruct file as [[file_path content] filename].
  unfold file_body, mbind, method_bind, lift.
  destruct (parse_document file_path content filename) as [[text ty]|e].
  - destruct (chunk_text_run text filename ty s) as (chunks & -> & _).
    exists chunks.
    match goal with
    | |- context [embed_and_store chunks ?s1] =>
        pose proof (embed_and_store_frame chunks s1) as [Hc Hp];
        pose proof (embed_and_store_result chunks s1) as Hn;
        destruct (embed_and_store chunks s1) as [s2 [n|e]]
    end; unfold mret, method_ret; simpl in *.
    + split_and!; [done|done|]. intros ty' n' [= _ <-]. by apply Hn.
    + by split_and!.
  - exists []. simpl. by rewrite app_nil_r, Nat.add_0_r.
Qed.

Lemma batch_effect files s :
  ∃ new,
    produced (state_after files s) = produced s ++ new
    ∧ chunk_counter (state_after files s) = chunk_counter s + length new
    ∧ stored_chunks (entries_of files s) ≤ length new.
Proof.
  revert s. induction files as [|file files IH]; intros s.
  - exists []. simpl. by rewrite app_nil_r, Nat.add_0_r.
  - destruct (file_body_effect file s) as (chunks & Hp & Hc & Hn).
    destruct (IH (file_body file s).1) as (new & Hp' & Hc' & Hle).
    exists (chunks ++ new). simpl.
    rewrite Hp', Hp, Hc', Hc, length_app, <-app_assoc.
    split_and!; [done|lia|].
    destruct (file_body file s).2 as [[ty n]|e]; simpl; [|lia].
    rewrite (Hn ty n eq_refl). lia.
Qed.

(** X8. The counter counts the chunks produced: after a batch it has
    grown by the number of chunks [chunk_text] returned during the batch,
    those of the files whose storing failed included, and [total_chunks]
    is at most that number. *)
Theorem counter_counts_produced_chunks (files : list upload) (s : ingestion) :
  ∃ st new,
    ingest_documents files s = (state_after files s, Ok st)
    ∧ produced (state_after files s) = produced s ++ new
    ∧ chunk_counter (state_after files s) = chunk_counter s + length new
    ∧ total_chunks st ≤ length new.
Proof.
  destruct (ingest_loop_consistent
              {| total_files := 0; total_chunks := 0; files_processed := [];
                 doc_types := [] |} files s) as (st & Hrun & _ & Hchunks & _).
  { split_and!; [done|done|constructor|done]. }
  destruct (ingest_documents_returns files s) as (st0 & Hrun0 & Hentries).
  unfold ingest_documents in Hrun0. rewrite Hrun in Hrun0. injection Hrun0 as <-.
  destruct (batch_effect files s) as (new & Hp & Hc & Hle).
  exists st, new. split_and!; [done|done|done|].
  by rewrite Hchunks, Hentries.
Qed.

Lemma state_after_app before after s :
  state_after (before ++ after) s = state_after after (state_after before s).
Proof.
  revert s. induction before as [|file before IH]; intros s; [done|].
  simpl. by rewrite IH.
Qed.

(** X9. Batches run one after the other on the same object never reuse an
    identifier: the counter goes on from where the batch before left it. *)
Theorem successive_batches_distinct_ids (first second : list upload)
    (store : Collection) :
  let s1 := state_after first (init store) in
  ∃ st1 st2,
    ingest_documents first (init store) = (s1, Ok st1)
    ∧ ingest_documents second s1 = (state_after second s1, Ok st2)
    ∧ NoDup (map chunk_id (produced (state_after second s1))).
Proof.
  intros s1.
  destruct (ingest_documents_returns first (init store)) as (st1 & Hrun1 & _).
  destruct (ingest_documents_returns second s1) as (st2 & Hrun2 & _).
  exists st1, st2. split_and!; [done|done|].
  destruct (state_after_counted first (init store) (counted_init store)) as [Hs1 _].
  destruct (state_after_counted second s1 Hs1) as [(ks & -> & Hnodup & _) _].
  by apply make_id_NoDup.
Qed.

Lemma chunk_loop_same source ty pieces idx s s' :
  chunk_counter s = chunk_counter s' →
  (chunk_loop source ty idx pieces s).2 = (chunk_loop source ty idx pieces s').2.
Proof.
  revert idx s s'. induction pieces as [|piece rest IH]; intros idx s s' Hc; [done|].
  simpl. unfold mbind, method_bind, next_counter.
  match goal with
  | |- context [chunk_loop source ty (S idx) rest ?s1] =>
      match goal with
      | |- _ = (match chunk_loop source ty (S idx) rest ?s2 with _ => _ end).2 =>
          pose proof (IH (S idx) s1 s2) as Hrec;
          destruct (chunk_loop source ty (S idx) rest s1) as [t1 r1],
                   (chunk_loop source ty (S idx) rest s2) as [t2 r2]
      end
  end.
  simpl in Hrec. rewrite <-Hrec by (simpl; by rewrite Hc).
  destruct r1; simpl; [|done]. by rewrite Hc.
Qed.

Lemma chunk_text_result text_content source ty s :
  (chunk_text text_content source ty s).2
  = (chunk_loop source ty 0 (split_text text_content) s).2.
Proof.
  unfold chunk_text, mbind, method_bind.
  by destruct (chunk_loop source ty 0 (split_text text_content) s) as [s' [c|e]].
Qed.

Lemma file_body_same_chunks file s s' :
  same_chunks s s' →
  same_chunks (file_body file s).1 (file_body file s').1.
Proof.
  intros [Hc Hp]. destruct file as [[file_path content] filename].
  unfold file_body, mbind, method_bind, lift.
  destruct (parse_document file_path content filename) as [[text ty]|e]; [|done].
  pose proof (chunk_text_result text filename ty s) as Hr.
  pose proof (chunk_text_result text filename ty s') as Hr'.
  rewrite (chunk_loop_same filename ty _ 0 s s' Hc), <-Hr' in Hr.
  destruct (chunk_text_run text filename ty s) as (chunks & Hrun & _).
  destruct (chunk_text_run text filename ty s') as (chunks' & Hrun' & _).
  rewrite Hrun, Hrun' in Hr. simpl in Hr. injection Hr as <-.
  rewrite Hrun, Hrun'.
  repeat match goal with
  | |- context [embed_and_store chunks ?s1] =>
      let Hf := fresh in
      pose proof (embed_and_store_frame chunks s1) as Hf;
      destruct (embed_and_store chunks s1) as [? [?|?]]
  end; unfold mret, method_ret, same_chunks; simpl in *;
    intuition congruence.
Qed.

Lemma state_after_same_chunks files s s' :
  same_chunks s s' → same_chunks (state_after files s) (state_after files s').
Proof.
  revert s s'. induction files as [|file files IH]; intros s s' Hs; [done|].
  simpl. by apply IH, file_body_same_chunks.
Qed.

(** X10. The identifiers a batch produces depend on the batch and on the
    counter at its start only, not on what the store holds or answers: two
    new [DocumentIngestion] objects name the chunks of the same files
    identically. *)
Theorem ids_do_not_depend_on_store (files : list upload) (store store' : Collection) :
  map chunk_id (produced (ingest_documents files (init store)).1)
  = map chunk_id (produced (ingest_documents files (init store')).1)
  ∧ chunk_counter (ingest_documents files (init store)).1
    = chunk_counter (ingest_documents files (init store')).1.
Proof.
  destruct (ingest_documents_returns files (init store)) as (st & -> & _).
  destruct (ingest_documents_returns files (init store')) as (st' & -> & _).
  destruct (state_after_same_chunks files (init store) (init store'))
    as [Hc Hp]; [done|].
  simpl. by rewrite Hp, Hc.
Qed.

End chunk_facts.

(** ** JSON documents *)

Section json_documents.
Context `{Environment}.
Import ingest.

(** X11. A [.json] file whose bytes decode is never rejected for being
    malformed: when [json.loads] raises [JSONDecodeError] the raw text is
    returned, tagged [api]; well-formed JSON is returned flattened; any
    other exception of the reader leaves [parse_document]. *)
Theorem json_file_falls_back_to_raw_text file_path content filename raw :
  lower (path_suffix filename) = ".json" →
  decode_utf8 content = Ok raw →
  (∀ data, json_loads raw = Ok data →
     parse_document file_path content filename = Ok (_flatten_json data "", api))
  ∧ (∀ e, json_loads raw = Raise e → exn_cls e = JSONDecodeError →
     parse_document file_path content filename = Ok (raw, api))
  ∧ (∀ e, json_loads raw = Raise e → exn_cls e ≠ JSONDecodeError →
     parse_document file_path content filename = Raise e).
Proof.
  intros Hext Hraw. unfold parse_document. rewrite Hext. simpl.
  rewrite Hraw. simpl. unfold _parse_json.
  split_and!.
  - by intros data ->.
  - intros e -> He. simpl. by rewrite decide_True.
  - intros e -> He. simpl. by rewrite decide_False.
Qed.

Lemma flat_object_under_prefix (d : pydict) (prefix : string) :
  flat_object d → nonempty prefix = true →
  _flatten_json (PyDict d) prefix = join nl (map (dotted_line prefix) d).
Proof.
  intros Hd Hp. rewrite flatten_object_unfold, Hp. f_equal.
  apply flat_map_singletons. eapply Forall_impl; [exact Hd|].
  intros [k v] Hv. unfold dotted_line. simpl.
  destruct v; try done; by rewrite !app_assoc_str.
Qed.

Lemma scalar_array_lines (items : list pyval) (prefix : string) (idx : nat) :
  Forall (λ v, is_container v = false) items →
  (fix go (idx : nat) (items : list pyval) : list string :=
     match items with
     | [] => []
     | item :: rest =>
         let new_prefix := prefix +:+ "[" +:+ pretty idx +:+ "]" in
         match item with
         | PyDict _ | PyList _ => _flatten_json item new_prefix
         | _ => new_prefix +:+ ": " +:+ py_str container_repr item
         end :: go (S idx) rest
     end) idx items
  = imap (λ i, indexed_line prefix (idx + i)) items.
Proof.
  intros Hitems. revert idx.
  induction Hitems as [|item rest Hitem _ IH]; intros idx; [done|].
  rewrite IH. simpl. f_equal.
  - unfold indexed_line. rewrite Nat.add_0_r, !app_assoc_str. by destruct item.
  - apply imap_ext. intros i x _. simpl. do 2 f_equal. lia.
Qed.

(** X12. Below the top level the path is written in front of every value:
    a scalar entry of an object reached under [prefix] gives the line
    [prefix.key: value], and item [i] of an array of scalars gives
    [prefix[i]: value], indices from 0, in the order of the array; at top
    level a key holding an object or an array gives the line [key:]
    followed by the lines of its value. *)
Theorem flatten_writes_paths (d : pydict) (items : list pyval)
    (prefix k l : string) :
  flat_object d → Forall (λ v, is_container v = false) items →
  nonempty prefix = true → nonempty k = true →
  _flatten_json (PyDict d) prefix = join nl (map (dotted_line prefix) d)
  ∧ _flatten_json (PyList items) prefix = join nl (imap (indexed_line prefix) items)
  ∧ _flatten_json (PyDict [(k, PyDict d); (l, PyList items)]) ""
    = join nl [k +:+ ":"; join nl (map (dotted_line k) d);
               l +:+ ":"; join nl (imap (indexed_line l) items)].
Proof.
  intros Hd Hitems Hp Hk.
  assert (Harr : ∀ p, _flatten_json (PyList items) p
                      = join nl (imap (indexed_line p) items)).
  { intros p. change (_flatten_json (PyList items) p) with (join nl (
      (fix go (idx : nat) (items : list pyval) : list string :=
         match items with
         | [] => []
         | item :: rest =>
             let new_prefix := p +:+ "[" +:+ pretty idx +:+ "]" in
             match item with
             | PyDict _ | PyList _ => _flatten_json item new_prefix
             | _ => new_prefix +:+ ": " +:+ py_str container_repr item
             end :: go (S idx) rest
         end) 0 items)).
    by rewrite (scalar_array_lines items p 0 Hitems). }
  split_and!.
  - by apply flat_object_under_prefix.
  - apply Harr.
  - rewrite flatten_object_unfold. cbn [flat_map app nonempty].
    by rewrite (flat_object_under_prefix d k Hd Hk), Harr.
Qed.

End json_documents.

(** ** Retrieval and context *)

Section retrieval.
Context `{Environment}.
Import rag.

Lemma context_parts_blocks idx chunks :
  Forall compilable chunks →
  context_parts idx chunks = Ok (imap (λ i, chunk_block (idx + i)) chunks).
Proof.
  intros Hall. revert idx.
  induction Hall as [|chunk chunks (md & text & Hmd & Htext) _ IH]; intros idx;
    [done|].
  simpl. rewrite !(metadata_get_ok _ _ _ Hmd). simpl.
  unfold dict_getitem. rewrite Htext. simpl. rewrite IH. simpl.
  do 2 f_equal.
  - unfold chunk_block. by rewrite Hmd, Htext, Nat.add_0_r.
  - apply imap_ext. intros i c _. simpl. f_equal. lia.
Qed.

Lemma context_parts_compilable idx chunks parts :
  context_parts idx chunks = Ok parts → Forall compilable chunks.
Proof.
  revert idx parts. induction chunks as [|chunk chunks IH]; intros idx parts;
    [constructor|].
  simpl. unfold metadata_get, dict_getitem, mbind, result_bind.
  destruct (dict_lookup "metadata" chunk) as [md|] eqn:Hmd; [|done].
  destruct md; simpl; try done.
  destruct (dict_lookup "text" chunk) as [text|] eqn:Htext; [|done].
  destruct (context_parts (S idx) chunks) as [rest|e] eqn:Hrest; [|done].
  intros _. constructor; [by eexists _, _|by eapply IH].
Qed.

(** X13. [compile_context] returns exactly when every chunk has a text and
    a metadata dictionary; the context is then one block per chunk, in the
    order given and numbered from 1, joined by a line of three dashes, and
    a chunk without source name or tag is rendered with [unknown].  No
    chunk gives the empty context. *)
Theorem compile_context_blocks (chunks : list pydict) :
  (Forall compilable chunks ↔ ∃ context, compile_context chunks = Ok context)
  ∧ (Forall compilable chunks →
     compile_context chunks
     = Ok (join (nl +:+ "---" +:+ nl) (imap (λ i, chunk_block (S i)) chunks)))
  ∧ compile_context [] = Ok "".
Proof.
  assert (Hblocks : Forall compilable chunks →
     compile_context chunks
     = Ok (join (nl +:+ "---" +:+ nl) (imap (λ i, chunk_block (S i)) chunks))).
  { intros Hall. unfold compile_context.
    by rewrite (context_parts_blocks 1 chunks Hall). }
  split_and!; [|done|done].
  split; [by eauto|].
  intros [context Hrun]. unfold compile_context in Hrun.
  destruct (context_parts 1 chunks) as [parts|e] eqn:Hparts; [|done].
  by eapply context_parts_compilable.
Qed.

Lemma retrieved_from_shape results idx docs chunks :
  retrieved_from results idx docs = Ok chunks →
  Forall retrieved_shape chunks ∧ length chunks = length docs.
Proof.
  revert idx chunks. induction docs as [|doc docs IH]; intros idx chunks.
  - intros [= <-]. by split.
  - simpl. unfold mbind, result_bind.
    destruct (metadata_at results idx) as [md|e] eqn:Hmd; [|done].
    destruct (distance_at results idx) as [dist|e] eqn:Hdist; [|done].
    destruct (retrieved_from results (S idx) docs) as [rest|e] eqn:Hrest; [|done].
    intros [= <-]. destruct (IH _ _ Hrest) as [Hall Hlen].
    split; [|simpl; by rewrite Hlen].
    constructor; [|done]. exists doc, md, dist. split_and!; [done| |].
    + unfold metadata_at in Hmd. repeat case_match; simplify_eq; eauto.
    + unfold distance_at in Hdist. repeat case_match; simplify_eq; eauto.
Qed.

Lemma metadata_at_ranked results idx :
  (idx < length (first_metadatas results) →
   metadata_at results idx
   = Ok (match first_metadatas results !! idx with
         | Some (Some md) => PyDict md
         | _ => PyNone
         end))
  ∧ (∀ v, metadata_at results idx = Ok v → idx < length (first_metadatas results)).
Proof.
  unfold metadata_at, first_metadatas.
  destruct (metadatas results) as [[|mds more]|]; simpl;
    [split; [lia|done]| |split; [lia|done]].
  destruct (mds !! idx) as [md|] eqn:Hmd.
  - apply lookup_lt_Some in Hmd. split; [by destruct md|done].
  - apply lookup_ge_None in Hmd. split; [|done].
    intros Hlt. unfold pydict in *. lia.
Qed.

Lemma distance_at_ranked results idx :
  ((∀ ds, first_distances results = Some ds → idx < length ds) →
   distance_at results idx
   = Ok (match first_distances results with
         | Some ds => from_option PyFloat PyNone (ds !! idx)
         | None => PyNone
         end))
  ∧ (∀ v ds, distance_at results idx = Ok v →
       first_distances results = Some ds → idx < length ds).
Proof.
  unfold distance_at, first_distances.
  destruct (distances results) as [[|ds more]|]; simpl; [done| |done].
  destruct (ds !! idx) as [d|] eqn:Hd.
  - apply lookup_lt_Some in Hd. split; [done|]. by intros ? ? _ [= <-].
  - apply lookup_ge_None in Hd. split; [|done].
    intros Hlt. specialize (Hlt ds eq_refl). lia.
Qed.

(** The loop pairs documents, metadata and distances by rank, and returns
    exactly when the answer has enough of both. *)
Lemma retrieved_from_ranked results idx docs :
  let enough :=
    docs = []
    ∨ (idx + length docs ≤ length (first_metadatas results)
       ∧ ∀ ds, first_distances results = Some ds → idx + length docs ≤ length ds) in
  (enough → retrieved_from results idx docs
            = Ok (imap (λ i, ranked_chunk results (idx + i)) docs))
  ∧ (∀ chunks, retrieved_from results idx docs = Ok chunks → enough).
Proof.
  revert idx. induction docs as [|doc docs IH]; intros idx enough.
  { split; [done|]. by left. }
  destruct (IH (S idx)) as [IHrun IHenough].
  destruct (metadata_at_ranked results idx) as [Hmd Hmd'].
  destruct (distance_at_ranked results idx) as [Hd Hd'].
  split.
  - intros [?|[Hmds Hds]]; [done|]. simpl in Hmds.
    simpl. rewrite Hmd by lia.
    rewrite Hd by (intros ds Hsome; specialize (Hds ds Hsome); simpl in Hds; lia).
    simpl. rewrite IHrun; simpl.
    + do 2 f_equal.
      * unfold ranked_chunk. by rewrite Nat.add_0_r.
      * apply imap_ext. intros i c _. simpl. f_equal. lia.
    + right. split; [lia|].
      intros ds Hsome. specialize (Hds ds Hsome). simpl in Hds. lia.
  - intros chunks. simpl. unfold mbind, result_bind.
    destruct (metadata_at results idx) as [md|e] eqn:Hmd1; [|done].
    destruct (distance_at results idx) as [dist|e] eqn:Hd1; [|done].
    destruct (retrieved_from results (S idx) docs) as [rest|e] eqn:Hrest; [|done].
    intros _. right.
    specialize (Hmd' _ eq_refl).
    destruct (IHenough _ eq_refl) as [->|[Hmds Hds]]; simpl.
    + split; [lia|]. intros ds Hsome. specialize (Hd' _ ds eq_refl Hsome). lia.
    + split; [lia|]. intros ds Hsome. specialize (Hds ds Hsome). lia.
Qed.

(** X14. When the query is embedded and the store answers,
    [retrieve_context] returns exactly when the answer has a metadata entry
    for every document of its first list and, if it has distances, a
    distance for every document; otherwise it raises and no partial list
    comes back.  The result is one chunk per document, in rank order: the
    chunk at rank [i] pairs document [i] with metadata [i] ([None] for an
    entry stored without metadata) and distance [i] ([None] when the
    answer has no distances).  An answer without documents gives no
    chunk. *)
Theorem retrieval_pairs_by_rank (collection : Collection) (query : string)
    (top_k : nat) (q : Embedding) (results : query_result) :
  encode [query] = Ok [q] →
  collection_query collection q top_k None = Ok results →
  let docs := script_generation.first_documents results in
  ((∃ chunks, retrieve_context collection query top_k = Ok chunks) ↔
   length docs ≤ length (first_metadatas results)
   ∧ ∀ ds, first_distances results = Some ds → length docs ≤ length ds)
  ∧ (∀ chunks, retrieve_context collection query top_k = Ok chunks →
       chunks = imap (ranked_chunk results) docs)
  ∧ (docs = [] → retrieve_context collection query top_k = Ok []).
Proof.
  intros Henc Hres docs.
  assert (Hrun : retrieve_context collection query top_k
                 = retrieved_from results 0 docs).
  { unfold retrieve_context. rewrite Henc. simpl. rewrite Hres. simpl.
    unfold docs, script_generation.first_documents.
    by destruct (documents results) as [[|? ?]|]. }
  destruct (retrieved_from_ranked results 0 docs) as [Hok Henough].
  rewrite Hrun. split_and!.
  - split.
    + intros [chunks Hchunks].
      destruct (Henough _ Hchunks) as [->|?]; [|done].
      split; [simpl; lia|]. intros; simpl; lia.
    + intros Hfits. eexists. apply Hok. by right.
  - intros chunks Hchunks. rewrite Hok in Hchunks by eauto.
    by injection Hchunks as <-.
  - by intros ->.
Qed.

Lemma generate_test_cases_returns user_query chunks :
  Forall well_formed_chunk chunks →
  ∃ cases, generate_test_cases user_query chunks = Ok cases.
Proof.
  intros Hwf. destruct (build_prompt_ok user_query chunks Hwf) as [prompt Hprompt].
  rewrite (generate_unfold _ _ _ Hprompt).
  destruct (generate_content system_prompt prompt) as [content|e]; simpl;
    [|by eexists].
  destruct (parse_and_validate (clean_content content)); simpl; by eexists.
Qed.

Lemma retrieved_from_ingested results idx docs mds ds rest rest' :
  metadatas results = Some (mds :: rest) →
  distances results = Some (ds :: rest') →
  (∀ i doc, docs !! i = Some doc →
     ∃ c d, mds !! (idx + i) = Some (Some (ingest.chunk_metadata c))
            ∧ ds !! (idx + i) = Some d) →
  ∃ chunks, retrieved_from results idx docs = Ok chunks
            ∧ Forall well_formed_chunk chunks.
Proof.
  intros Hmds Hds. revert idx.
  induction docs as [|doc docs IH]; intros idx Hdocs; [by eexists|].
  destruct (Hdocs 0 doc eq_refl) as (c & d & Hmd & Hd).
  rewrite Nat.add_0_r in Hmd, Hd.
  destruct (IH (S idx)) as (chunks & Hrest & Hwf).
  { intros i doc' Hi. destruct (Hdocs (S i) doc' Hi) as (c' & d' & ? & ?).
    exists c', d'. by replace (S idx + i) with (idx + S i) by lia. }
  simpl. unfold metadata_at, distance_at. rewrite Hmds, Hds.
  unfold pydict in *. rewrite Hmd, Hd. simpl.
  rewrite Hrest. simpl. eexists. split; [done|].
  constructor; [|done]. by eexists _, _, _.
Qed.

(** X15. Retrieval and generation compose on the knowledge base this code
    builds: when every returned document comes with the metadata
    [embed_and_store] writes for a chunk, and with a distance,
    [retrieve_context] returns chunks on which [generate_test_cases]
    returns a list. *)
Theorem retrieval_feeds_generation (collection : Collection) (query : string)
    (top_k : nat) (q : Embedding) (results : query_result)
    (docs : list string) (mds : list (option pydict)) (ds : list string)
    (more_docs : list (list string)) (more_mds : list (list (option pydict)))
    (more_ds : list (list string)) :
  encode [query] = Ok [q] →
  collection_query collection q top_k None = Ok results →
  documents results = Some (docs :: more_docs) →
  metadatas results = Some (mds :: more_mds) →
  distances results = Some (ds :: more_ds) →
  (∀ i doc, docs !! i = Some doc →
     ∃ c d, mds !! i = Some (Some (ingest.chunk_metadata c)) ∧ ds !! i = Some d) →
  ∃ chunks cases,
    retrieve_context collection query top_k = Ok chunks
    ∧ length chunks = length docs
    ∧ Forall well_formed_chunk chunks
    ∧ generate_test_cases query chunks = Ok cases.
Proof.
  intros Henc Hres Hdocs Hmds Hds Hall.
  destruct (retrieved_from_ingested results 0 docs mds ds more_mds more_ds
              Hmds Hds Hall) as (chunks & Hrun & Hwf).
  destruct (generate_test_cases_returns query chunks Hwf) as [cases Hcases].
  exists chunks, cases. split_and!; [|by eapply retrieved_from_shape|done|done].
  unfold retrieve_context. rewrite Henc. simpl. rewrite Hres. simpl.
  by rewrite Hdocs.
Qed.

End retrieval.

(** ** Validation and its results *)

Section validation.
Context `{Environment}.
Import rag.

Lemma mapM_Ok {A B} (f : A → result B) (l : list A) (ys : list B) :
  mapM f l = Ok ys → Forall2 (λ x y, f x = Ok y) l ys.
Proof.
  revert ys. induction l as [|x l IH]; intros ys; simpl.
  - intros [= <-]. constructor.
  - unfold mbind, result_bind.
    destruct (f x) as [y|e] eqn:Hx; [|done].
    destruct (mapM f l) as [ys'|e]; [|done].
    intros [= <-]. constructor; [done|by apply IH].
Qed.

Lemma all_str_Some vs names : all_str vs = Some names → vs = map PyStr names.
Proof.
  revert names. induction vs as [|v vs IH]; intros names; simpl.
  - by intros [= <-].
  - destruct v; try done.
    destruct (all_str vs) as [names'|]; [|done].
    intros [= <-]. simpl. by rewrite (IH names').
Qed.

(** X16. The source names listed in the prompt have no duplicate, and are
    exactly the [source_document] values of the chunks, [unknown] standing
    for a chunk that has none. *)
Theorem source_docs_are_distinct (chunks : list pydict) (docs : list string) :
  source_docs chunks = Ok docs →
  NoDup docs
  ∧ ∀ name, name ∈ docs ↔
      ∃ chunk, chunk ∈ chunks
               ∧ metadata_get chunk "source_document" = Ok (PyStr name).
Proof.
  unfold source_docs, mbind, result_bind.
  destruct (mapM _ chunks) as [sources|e] eqn:Hsources; [|done].
  destruct (List.find is_container sources); [done|].
  destruct (all_str sources) as [names|] eqn:Hnames; [|done].
  intros [= <-]. split; [apply NoDup_remove_dups|].
  apply all_str_Some in Hnames as ->. apply mapM_Ok in Hsources.
  intros name. rewrite elem_of_remove_dups. split.
  - intros Hin.
    assert (Hin' : PyStr name ∈ map PyStr names)
      by (apply list_elem_of_fmap; eauto).
    apply list_elem_of_lookup in Hin' as [i Hi].
    destruct (Forall2_lookup_r _ _ _ _ _ Hsources Hi) as (chunk & Hchunk & Hget).
    exists chunk. split; [|done]. by eapply list_elem_of_lookup_2.
  - intros (chunk & Hchunk & Hget).
    apply list_elem_of_lookup in Hchunk as [i Hi].
    destruct (Forall2_lookup_l _ _ _ _ _ Hsources Hi) as (v & Hv & Hget').
    rewrite Hget in Hget'. injection Hget' as <-.
    apply list_elem_of_lookup_2 in Hv.
    apply list_elem_of_fmap in Hv as (name' & [= ->] & Hin). done.
Qed.

Lemma all_in_spec fields v b :
  all_in fields v = Ok b →
  (b = true ↔ ∀ field, field ∈ fields → py_in field v = Ok true).
Proof.
  revert b. induction fields as [|f fields IH]; intros b; simpl.
  - intros [= <-]. split; [|done]. by intros _ ? ?%elem_of_nil.
  - unfold mbind, result_bind.
    destruct (py_in f v) as [[]|e] eqn:Hf; [| |done].
    + intros Hrest. rewrite (IH _ Hrest). split.
      * intros Hall field [->|?]%elem_of_cons; auto.
      * intros Hall field Hfield. apply Hall. by right.
    + intros [= <-]. split; [done|].
      intros Hall. specialize (Hall f (ltac:(left))). congruence.
Qed.

(** X17. The field test asks whether the five names occur in the
    candidate, whatever the candidate is: a string passes when it contains
    them as substrings, an array when it holds them as items, and a number,
    a boolean or [None] makes the test raise [TypeError]. *)
Theorem validation_of_other_candidates (v : pyval) :
  (∀ text, v = PyStr text →
     ∃ b, _validate_test_case v = Ok b
          ∧ (b = true ↔ ∀ field, field ∈ required_fields → str_in field text = true))
  ∧ (∀ items, v = PyList items →
     ∃ b, _validate_test_case v = Ok b
          ∧ (b = true ↔ ∀ field, field ∈ required_fields → PyStr field ∈ items))
  ∧ (iterable v = false ↔
     ∃ e, _validate_test_case v = Raise e ∧ exn_cls e = TypeError).
Proof.
  split_and!.
  - intros text ->.
    destruct (_validate_test_case (PyStr text)) as [b|e] eqn:Hv.
    + exists b. split; [done|]. rewrite (all_in_spec _ _ _ Hv). simpl.
      split; intros Hall field Hfield; specialize (Hall field Hfield);
        congruence.
    + by rewrite validate_iterable in Hv.
  - intros items ->.
    destruct (_validate_test_case (PyList items)) as [b|e] eqn:Hv.
    + exists b. split; [done|]. rewrite (all_in_spec _ _ _ Hv). simpl.
      assert (Hmem : ∀ field, existsb (λ x, match x with
                                            | PyStr s => String.eqb s field
                                            | _ => false
                                            end) items = true
                              ↔ PyStr field ∈ items).
      { intros field. rewrite existsb_exists, list_elem_of_In. split.
        - intros (x & Hx & Heq). destruct x; try done.
          by apply String.eqb_eq in Heq as ->.
        - intros Hin. exists (PyStr field). by rewrite String.eqb_refl. }
      split; intros Hall field Hfield; specialize (Hall field Hfield).
      * apply Hmem. congruence.
      * apply Hmem in Hall. congruence.
    + by rewrite validate_iterable in Hv.
  - split.
    + intros Hv. destruct v; try done; by eexists.
    + intros (e & Hv & _). destruct (iterable v) eqn:Hit; [|done].
      by rewrite validate_iterable in Hv.
Qed.

Lemma validated_cases_kept cases kept :
  validated_cases cases = Ok kept →
  ∀ tc, tc ∈ kept → tc ∈ cases ∧ _validate_test_case tc = Ok true.
Proof.
  revert kept. induction cases as [|c cases IH]; intros kept; simpl.
  - intros [= <-] tc ?%elem_of_nil. done.
  - unfold mbind, result_bind.
    destruct (_validate_test_case c) as [[]|e] eqn:Hc; [| |done];
      (destruct (validated_cases cases) as [rest|e]; [|done]);
      intros [= <-] tc Htc.
    + apply elem_of_cons in Htc as [->|Htc].
      * split; [left|done].
      * destruct (IH rest eq_refl tc Htc). split; [by right|done].
    + destruct (IH rest eq_refl tc Htc). split; [by right|done].
Qed.

Lemma complete_dict d :
  _validate_test_case (PyDict d) = Ok true →
  ∀ field, field ∈ required_fields → dict_has field d = true.
Proof.
  intros Hv. apply has_fields_dict. unfold has_fields. by rewrite Hv.
Qed.

(** X18. Whatever the backend answers, every object in the list
    [generate_test_cases] returns has the five mandatory keys, the
    diagnostic records included; so [get_sources_for_test_case] finds a
    [Grounded_In] entry in each of them and never falls back to the empty
    list. *)
Theorem returned_records_are_complete (user_query : string)
    (chunks : list pydict) (cases : list pyval) (d : pydict) :
  generate_test_cases user_query chunks = Ok cases →
  PyDict d ∈ cases →
  (∀ field, field ∈ required_fields → dict_has field d = true)
  ∧ dict_lookup "Grounded_In" d = Some (get_sources_for_test_case d).
Proof.
  intros Hrun Hd.
  assert (Hall : ∀ field, field ∈ required_fields → dict_has field d = true).
  { revert Hrun. unfold generate_test_cases, mbind, result_bind.
    destruct (build_prompt user_query chunks) as [prompt|e]; [|done].
    destruct (generate_content system_prompt prompt) as [content|e]; simpl.
    - unfold parse_and_validate, mbind, result_bind.
      destruct (json_loads (clean_content content)) as [parsed|je]; simpl.
      + destruct (py_iter (select_test_cases parsed)) as [items|e] eqn:Hiter; simpl.
        * destruct (validated_cases items) as [kept|e] eqn:Hkept; simpl.
          -- intros [= <-].
             destruct (validated_cases_kept _ _ Hkept _ Hd) as [_ Hv].
             by apply complete_dict.
          -- rewrite (validated_cases_class _ _ Hkept). simpl. intros [= <-].
             apply list_elem_of_singleton in Hd. injection Hd as ->.
             by apply complete_dict.
        * rewrite (py_iter_class _ _ Hiter). simpl. intros [= <-].
          apply list_elem_of_singleton in Hd. injection Hd as ->.
          by apply complete_dict.
      + case_decide; simpl; intros [= <-];
          apply list_elem_of_singleton in Hd; injection Hd as ->;
          by apply complete_dict.
    - intros [= <-]. apply list_elem_of_singleton in Hd. injection Hd as ->.
      by apply complete_dict. }
  split; [done|].
  specialize (Hall "Grounded_In" ltac:(repeat constructor)).
  unfold dict_has in Hall. unfold get_sources_for_test_case, dict_get.
  by destruct (dict_lookup "Grounded_In" d).
Qed.

Lemma slice_to_prefix n s :
  String.prefix (slice_to n s) s = true
  ∧ String.length (slice_to n s) = n `min` String.length s.
Proof.
  revert s. induction n as [|n IH]; intros s.
  - split; [by destruct s|done].
  - destruct s as [|c s]; [done|]. destruct (IH s) as [Hp Hl].
    simpl. rewrite Hl. split; [|done]. by destruct (ascii_dec c c).
Qed.

Lemma str_in_prefix needle p s :
  String.prefix p s = true → str_in needle p = true → str_in needle s = true.
Proof. intros [r ->]%prefix_split. apply str_in_app_l. Qed.

(** X19. When the answer, once its fence markers are removed, is not JSON,
    the result is one Parse Error record, and its second step quotes the
    first 200 characters of the answer as cleaned, not as received: no
    fence marker is quoted from an answer that starts with one, the start
    of the trimmed inside is quoted from a fenced answer, and the start of
    the answer itself only when it does not start with a marker. *)
Theorem parse_diagnostic_quotes_the_answer (q : string) (chunks : list pydict)
    (prompt content : string) (je : exn) :
  build_prompt q chunks = Ok prompt →
  generate_content system_prompt prompt = Ok content →
  json_loads (clean_content content) = Raise je →
  exn_cls je = JSONDecodeError →
  ∃ d quoted,
    generate_test_cases q chunks = Ok [PyDict d]
    ∧ dict_lookup "Feature" d = Some (PyStr "Parse Error")
    ∧ dict_lookup "Steps" d
      = Some (PyList [PyStr "Check LLM output format";
                      PyStr ("Raw content: " +:+ quoted)])
    ∧ String.prefix quoted (clean_content content) = true
    ∧ String.length quoted = 200 `min` String.length (clean_content content)
    ∧ (startswith content "```" = true → str_in "```" quoted = false)
    ∧ (∀ body, fenced content body → String.prefix quoted (strip body) = true)
    ∧ (startswith content "```" = false → String.prefix quoted content = true).
Proof.
  intros Hprompt Hreply Hje Hcls.
  destruct (slice_to_prefix 200 (clean_content content)) as [Hpre Hlen].
  assert (Hrun : generate_test_cases q chunks
                 = Ok [parse_error_case je (clean_content content)]).
  { rewrite (generate_unfold _ _ _ Hprompt), Hreply. simpl.
    rewrite (parse_and_validate_failed _ _ Hje). by rewrite decide_True. }
  unfold parse_error_case in Hrun.
  eexists _, (slice_to 200 (clean_content content)).
  split_and!; [exact Hrun|reflexivity|reflexivity|exact Hpre|exact Hlen| | |].
  - intros Hfence.
    destruct (str_in "```" (slice_to 200 (clean_content content))) eqn:Hin; [|done].
    apply (str_in_prefix _ _ _ Hpre) in Hin.
    by rewrite (clean_content_fence_free _ Hfence) in Hin.
  - intros body Hbody. by rewrite <-(clean_content_fenced _ _ Hbody).
  - intros Hplain. by rewrite <-(clean_content_unfenced _ Hplain) at 2.
Qed.

End validation.

(** ** Evidence for the script *)

Lemma concat_empty_cons (x : string) (l : list string) :
  String.concat "" (x :: l) = x +:+ String.concat "" l.
Proof. destruct l; simpl; [by rewrite app_nil_r_str|done]. Qed.

Section evidence.
Context `{Environment}.
Import script_generation.

Lemma selector_context_fold (docs : list string) (acc : string) :
  foldl (λ selector_context doc, selector_context +:+ doc +:+ nl +:+ nl) acc docs
  = acc +:+ String.concat "" (map (λ doc, doc +:+ nl +:+ nl) docs).
Proof.
  revert acc. induction docs as [|doc docs IH]; intros acc.
  - by rewrite app_nil_r_str.
  - change (map (λ doc, doc +:+ nl +:+ nl) (doc :: docs))
      with ((doc +:+ nl +:+ nl) :: map (λ doc, doc +:+ nl +:+ nl) docs).
    rewrite concat_empty_cons. simpl. rewrite IH. by rewrite !app_assoc_str.
Qed.

Lemma app_empty_inv (a b : string) : a +:+ b = "" → a = "" ∧ b = "".
Proof. destruct a; [done|]. by rewrite app_cons_str. Qed.

Lemma evidence_block_nonempty (doc : string) (blocks : list string) :
  String.concat "" ((doc +:+ nl +:+ nl) :: blocks) ≠ "".
Proof.
  rewrite concat_empty_cons. intros Hempty.
  apply app_empty_inv in Hempty as [Hdoc _].
  apply app_empty_inv in Hdoc as [_ Hnl]. done.
Qed.

(** X20. The selector evidence is the documents of the answer, each
    followed by an empty line, in rank order; it is empty exactly when
    the query filtered on [html_dom] returns no document.  Without a
    knowledge base it is empty and neither the embedding model nor the
    store is called. *)
Theorem selector_evidence (collection : Collection) (q : Embedding)
    (results : query_result) :
  encode ["HTML selectors buttons inputs forms cart payment shipping discount"]
    = Ok [q] →
  collection_query collection q 5 (Some [("doc_type", PyStr "html_dom")])
    = Ok results →
  retrieve_html_selectors (Some collection)
    = Ok (String.concat "" (map (λ doc, doc +:+ nl +:+ nl) (first_documents results)))
  ∧ (retrieve_html_selectors (Some collection) = Ok "" ↔ first_documents results = [])
  ∧ retrieve_html_selectors None = Ok "".
Proof.
  intros Henc Hres.
  assert (Hrun : retrieve_html_selectors (Some collection)
    = Ok (String.concat "" (map (λ doc, doc +:+ nl +:+ nl) (first_documents results)))).
  { unfold retrieve_html_selectors. rewrite Henc. simpl. rewrite Hres. simpl.
    by rewrite selector_context_fold. }
  split_and!; [done| |done].
  rewrite Hrun. destruct (first_documents results) as [|doc docs]; [done|].
  split; [|done]. intros Hempty. injection Hempty as Hempty.
  exfalso. exact (evidence_block_nonempty doc _ Hempty).
Qed.

Lemma doc_context_loop_blocks results mds more idx docs acc :
  metadatas results = Some (mds :: more) →
  (∀ i, i < length docs → ∃ md, mds !! (idx + i) = Some (Some md)) →
  doc_context_loop results idx docs acc
  = Ok (acc +:+ String.concat "" (imap (λ i, doc_block mds (idx + i)) docs)).
Proof.
  intros Hmds. revert idx acc.
  induction docs as [|doc docs IH]; intros idx acc Hall.
  - simpl. by rewrite app_nil_r_str.
  - destruct (Hall 0) as [md Hmd]; [simpl; lia|]. rewrite Nat.add_0_r in Hmd.
    change (imap (λ i, doc_block mds (idx + i)) (doc :: docs))
      with (doc_block mds (idx + 0) doc
            :: imap (λ i, doc_block mds (idx + S i)) docs).
    rewrite concat_empty_cons. simpl. unfold source_at. rewrite Hmds.
    unfold pydict in *. rewrite Hmd. simpl.
    rewrite IH.
    + f_equal. rewrite !app_assoc_str. f_equal.
      unfold doc_block. unfold pydict in *.
      rewrite Nat.add_0_r, Hmd, !app_assoc_str. do 7 f_equal.
      f_equal. apply imap_ext. intros i d _. simpl.
      by replace (S (idx + i)) with (idx + S i) by lia.
    + intros i Hi. destruct (Hall (S i)) as [md' Hmd']; [simpl; lia|].
      exists md'. by replace (S idx + i) with (idx + S i) by lia.
Qed.

Lemma doc_context_loop_returns results mds more idx docs acc ctx :
  metadatas results = Some (mds :: more) →
  doc_context_loop results idx docs acc = Ok ctx →
  ∀ i, i < length docs → ∃ md, mds !! (idx + i) = Some (Some md).
Proof.
  intros Hmds. revert idx acc.
  induction docs as [|doc docs IH]; intros idx acc Hrun i Hi; [simpl in Hi; lia|].
  simpl in Hrun. unfold mbind, result_bind, source_at in Hrun.
  rewrite Hmds in Hrun. unfold pydict in *.
  destruct (mds !! idx) as [[md|]|] eqn:Hmd; [|done|done].
  destruct i as [|i].
  - exists md. by rewrite Nat.add_0_r.
  - destruct (IH _ _ Hrun i) as [md' Hmd']; [simpl in Hi; lia|].
    exists md'. by replace (idx + S i) with (S idx + i) by lia.
Qed.

(** X21. [retrieve_relevant_docs] returns exactly when every document of
    the answer comes with a metadata dictionary; the context is then one
    block per document, the source name in brackets above the text, in
    rank order.  A document stored without metadata, or an answer with
    fewer metadata than documents, makes it raise. *)
Theorem relevant_docs_need_metadata (collection : Collection)
    (test_case : pydict) (q : Embedding) (results : query_result)
    (mds : list (option pydict)) (more : list (list (option pydict))) :
  encode [docs_query test_case] = Ok [q] →
  collection_query collection q 3 None = Ok results →
  metadatas results = Some (mds :: more) →
  let docs := first_documents results in
  ((∀ i, i < length docs → ∃ md, mds !! i = Some (Some md))
   ↔ ∃ context, retrieve_relevant_docs (Some collection) test_case = Ok context)
  ∧ ((∀ i, i < length docs → ∃ md, mds !! i = Some (Some md)) →
     retrieve_relevant_docs (Some collection) test_case
     = Ok (String.concat "" (imap (doc_block mds) docs))).
Proof.
  intros Henc Hres Hmds docs.
  assert (Hrun : retrieve_relevant_docs (Some collection) test_case
                 = doc_context_loop results 0 docs "").
  { unfold retrieve_relevant_docs. fold (docs_query test_case).
    rewrite Henc. simpl. by rewrite Hres. }
  assert (Hblocks : (∀ i, i < length docs → ∃ md, mds !! i = Some (Some md)) →
     retrieve_relevant_docs (Some collection) test_case
     = Ok (String.concat "" (imap (doc_block mds) docs))).
  { intros Hall. rewrite Hrun.
    by rewrite (doc_context_loop_blocks results mds more 0 docs "" Hmds Hall). }
  split; [|done]. split; [by eauto|].
  intros [context Hctx]. rewrite Hrun in Hctx.
  exact (doc_context_loop_returns results mds more 0 docs "" context Hmds Hctx).
Qed.

Lemma clean_script_fenced body :
  no_match_in "```" body "```" = true →
  clean_script ("```python" +:+ body +:+ "```") = strip body
  ∧ (startswith ("```" +:+ body +:+ "```") "```python" = false →
     clean_script ("```" +:+ body +:+ "```") = strip body).
Proof.
  intros Hb. unfold clean_script. split.
  - unfold startswith. rewrite prefix_app. f_equal. unfold replace.
    rewrite (replace_go_match "`" "``python" "" (body +:+ "```")), app_nil_l_str.
    rewrite (replace_go_copy "```python" "" body "```")
      by (by apply (no_match_in_longer "```")).
    change (replace_go "```python" "" 0 "```") with "```".
    rewrite (replace_go_copy "```" "" body "```" Hb).
    change (replace_go "```" "" 0 "```") with "".
    apply app_nil_r_str.
  - intros ->. unfold startswith. rewrite prefix_app. f_equal. unfold replace.
    rewrite (replace_go_match "`" "``" "" (body +:+ "```")), app_nil_l_str.
    rewrite (replace_go_copy "```" "" body "```" Hb).
    change (replace_go "```" "" 0 "```") with "".
    apply app_nil_r_str.
Qed.

(** X22. A script the backend wraps in a [python] fence, or in a bare
    fence, is returned without the fence and without the blank space
    around it, when the closing fence is the first fence marker after the
    opening one; an answer that does not start with a fence is kept as it
    is, spaces included. *)
Theorem script_fences_are_removed (body script : string) :
  no_match_in "```" body "```" = true →
  startswith script "```" = false →
  clean_script ("```python" +:+ body +:+ "```") = strip body
  ∧ (startswith ("```" +:+ body +:+ "```") "```python" = false →
     clean_script ("```" +:+ body +:+ "```") = strip body)
  ∧ clean_script script = script.
Proof.
  intros Hb Hs. destruct (clean_script_fenced body Hb) as [Hpy Hbare].
  split_and!; [done|done|].
  unfold clean_script, startswith in *.
  by rewrite (prefix_trans_false "```" "```python" script eq_refl Hs), Hs.
Qed.

Lemma all_str_first_non_str items :
  rag.all_str items = None → ∃ idx item, first_non_str 0 items = Some (idx, item).
Proof.
  generalize 0. induction items as [|v items IH]; intros n; [done|].
  simpl. destruct v; try (by eexists _, _).
  destruct (rag.all_str items) eqn:Hrest; [done|]. intros _. by apply IH.
Qed.

(** X23. A test case whose [Grounded_In] is a list holding something that
    is not a string gets the fallback script although the backend has
    answered: joining the sources raises [TypeError] inside the [try]. *)
Theorem unjoinable_sources_give_fallback (collection : option Collection)
    (test_case : pydict) (selector_context doc_context reply : string)
    (items : list pyval) :
  retrieve_html_selectors collection = Ok selector_context →
  retrieve_relevant_docs collection test_case = Ok doc_context →
  generate_content system_prompt
    (user_prompt (json_dumps (PyDict test_case)) selector_context doc_context)
    = Ok reply →
  dict_lookup "Grounded_In" test_case = Some (PyList items) →
  rag.all_str items = None →
  ∃ e, exn_cls e = TypeError
       ∧ generate_script collection test_case
         = Ok (error_script e
                 (py_str container_repr
                    (dict_get "Test_ID" (PyStr "Unknown") test_case))
                 (py_str container_repr
                    (dict_get "Feature" (PyStr "Unknown") test_case))).
Proof.
  intros Hsel Hdoc Hreply Hsources Hitems.
  destruct (all_str_first_non_str items Hitems) as (idx & item & Hfirst).
  unfold generate_script. rewrite Hsel, Hdoc. simpl. rewrite Hreply. simpl.
  unfold join_value, dict_get. rewrite Hsources. simpl.
  rewrite Hitems, Hfirst. simpl. eexists. split; [|reflexivity]. done.
Qed.

End evidence.

(** ** Further runs in the reference environment *)

Lemma json_file_falls_back_to_raw_text_witness :
  let E := reference.offline in
  let content := list_byte_of_string "{oops" in
  lower (path_suffix "api.JSON") = ".json"
  ∧ decode_utf8 content = Ok "{oops"
  ∧ ingest.parse_document "/tmp/a" content "api.JSON" = Ok ("{oops", ingest.api).
Proof.
  intros E content.
  assert (Hext : lower (path_suffix "api.JSON") = ".json") by reflexivity.
  assert (Hraw : decode_utf8 content = Ok "{oops") by reflexivity.
  split_and!; [exact Hext|exact Hraw|].
  exact (proj1 (proj2 (json_file_falls_back_to_raw_text "/tmp/a" content "api.JSON"
                         "{oops" Hext Hraw)) _ eq_refl eq_refl).
Defined.

Lemma flatten_writes_paths_witness :
  let E := reference.offline in
  let d := [("host", PyStr "localhost"); ("port", PyInt 8080)] in
  let items := [PyStr "GET"; PyStr "POST"] in
  flat_object d
  ∧ Forall (λ v, is_container v = false) items
  ∧ ingest._flatten_json (PyDict [("k", PyDict d); ("l", PyList items)]) ""
    = join nl ["k:"; "k.host: localhost"; "k.port: 8080";
               "l:"; "l[0]: GET"; "l[1]: POST"].
Proof.
  intros E d items.
  assert (Hd : flat_object d) by (by repeat constructor).
  assert (Hitems : Forall (λ v, is_container v = false) items)
    by (by repeat constructor).
  split_and!; [exact Hd|exact Hitems|].
  exact (proj2 (proj2 (flatten_writes_paths d items "p" "k" "l" Hd Hitems
                         eq_refl eq_refl))).
Defined.

Lemma retrieval_pairs_by_rank_witness :
  let E := stocked in
  rag.retrieve_context reference.empty_store "cart total" 6
  = Ok [[("text", PyStr "The cart shows a total.");
         ("metadata", PyDict (ingest.chunk_metadata stored_chunk));
         ("distance", PyFloat "0.25")]].
Proof.
  intros E.
  destruct (@retrieval_pairs_by_rank E reference.empty_store "cart total" 6 ()
              stored_hit eq_refl eq_refl) as (Hiff & Hchunks & _).
  destruct (proj2 Hiff) as [chunks Hrun].
  { split; [simpl; lia|]. intros ds [= <-]. simpl. lia. }
  rewrite Hrun. f_equal. exact (Hchunks chunks Hrun).
Defined.

Lemma retrieval_feeds_generation_witness :
  let E := stocked in
  ∃ chunks cases,
    rag.retrieve_context reference.empty_store "list the cart tests" 6 = Ok chunks
    ∧ length chunks = 1
    ∧ Forall well_formed_chunk chunks
    ∧ rag.generate_test_cases "list the cart tests" chunks = Ok cases.
Proof.
  intros E.
  assert (Hall : ∀ i doc, [ingest.text stored_chunk] !! i = Some doc →
            ∃ c d, [Some (ingest.chunk_metadata stored_chunk)] !! i
                     = Some (Some (ingest.chunk_metadata c))
                   ∧ ["0.25"] !! i = Some d).
  { intros [|i] doc Hi; [|done]. by exists stored_chunk, "0.25". }
  exact (retrieval_feeds_generation reference.empty_store "list the cart tests" 6
           () stored_hit _ _ _ [] [] [] eq_refl eq_refl eq_refl eq_refl eq_refl Hall).
Defined.

Lemma source_docs_are_distinct_witness :
  let E := reference.offline in
  rag.source_docs [retrieved_chunk; retrieved_chunk] = Ok ["spec.md"]
  ∧ NoDup ["spec.md"].
Proof.
  intros E.
  assert (Hrun : rag.source_docs [retrieved_chunk; retrieved_chunk] = Ok ["spec.md"])
    by reflexivity.
  split; [exact Hrun|].
  exact (proj1 (source_docs_are_distinct _ _ Hrun)).
Defined.

Lemma returned_records_are_complete_witness :
  let E := reference.replying two_records_reply in
  rag.generate_test_cases "list the cart tests" [] = Ok [PyDict reference.valid_case]
  ∧ dict_lookup "Grounded_In" reference.valid_case
    = Some (rag.get_sources_for_test_case reference.valid_case).
Proof.
  intros E.
  assert (Hrun : rag.generate_test_cases "list the cart tests" []
                 = Ok [PyDict reference.valid_case]) by reflexivity.
  split; [exact Hrun|].
  exact (proj2 (returned_records_are_complete "list the cart tests" []
                  [PyDict reference.valid_case] reference.valid_case Hrun
                  (list_elem_of_here _ _))).
Defined.

Lemma selector_evidence_witness :
  let E := stocked in
  script_generation.retrieve_html_selectors (Some reference.empty_store)
  = Ok ("The cart shows a total." +:+ nl +:+ nl).
Proof.
  intros E.
  exact (proj1 (selector_evidence reference.empty_store () stored_hit
                  eq_refl eq_refl)).
Defined.

Lemma relevant_docs_need_metadata_witness :
  let E := stocked in
  script_generation.retrieve_relevant_docs (Some reference.empty_store)
    reference.valid_case
  = Ok ("[spec.md]" +:+ nl +:+ "The cart shows a total." +:+ nl +:+ nl).
Proof.
  intros E.
  assert (Hall : ∀ i, i < length (script_generation.first_documents stored_hit) →
            ∃ md, [Some (ingest.chunk_metadata stored_chunk)] !! i = Some (Some md)).
  { intros [|i] Hi; [by eexists|]. simpl in Hi. lia. }
  exact (proj2 (relevant_docs_need_metadata reference.empty_store
                  reference.valid_case () stored_hit _ [] eq_refl eq_refl eq_refl)
           Hall).
Defined.

Lemma script_fences_are_removed_witness :
  let body := nl +:+ "driver.get(url)" +:+ nl in
  no_match_in "```" body "```" = true
  ∧ startswith "driver.quit()" "```" = false
  ∧ script_generation.clean_script ("```python" +:+ body +:+ "```")
    = "driver.get(url)".
Proof.
  intros body.
  assert (Hb : no_match_in "```" body "```" = true) by reflexivity.
  assert (Hs : startswith "driver.quit()" "```" = false) by reflexivity.
  split_and!; [exact Hb|exact Hs|].
  exact (proj1 (script_fences_are_removed body "driver.quit()" Hb Hs)).
Defined.

Lemma unjoinable_sources_give_fallback_witness :
  let E := reference.replying "driver.quit()" in
  rag.all_str [PyStr "spec.md"; PyInt 3] = None
  ∧ ∃ e, exn_cls e = TypeError
         ∧ script_generation.generate_script None numbered_sources_case
           = Ok (script_generation.error_script e "TC-003" "Cart").
Proof.
  intros E.
  assert (Hitems : rag.all_str [PyStr "spec.md"; PyInt 3] = None) by reflexivity.
  split; [exact Hitems|].
  exact (unjoinable_sources_give_fallback None numbered_sources_case "" ""
           "driver.quit()" [PyStr "spec.md"; PyInt 3]
           eq_refl eq_refl eq_refl eq_refl Hitems).
Defined.

Lemma parse_diagnostic_quotes_the_answer_witness :
  let E := reference.replying capital_tag_reply in
  let je := Exn JSONDecodeError "Expecting value: line 1 column 1 (char 0)" in
  json_loads (rag.clean_content capital_tag_reply) = Raise je
  ∧ startswith capital_tag_reply "```" = true
  ∧ ∃ d quoted,
      rag.generate_test_cases "list the cart tests" [] = Ok [PyDict d]
      ∧ dict_lookup "Steps" d
        = Some (PyList [PyStr "Check LLM output format";
                        PyStr ("Raw content: " +:+ quoted)])
      ∧ String.length quoted = 7
      ∧ str_in "```" quoted = false.
Proof.
  intros E je.
  assert (Hje : json_loads (rag.clean_content capital_tag_reply) = Raise je)
    by reflexivity.
  assert (Hfence : startswith capital_tag_reply "```" = true) by reflexivity.
  split_and!; [exact Hje|exact Hfence|].
  destruct (@parse_diagnostic_quotes_the_answer E "list the cart tests" []
              (rag.user_prompt "list the cart tests" "" []) capital_tag_reply je
              eq_refl eq_refl Hje eq_refl)
    as (d & quoted & Hrun & _ & Hsteps & _ & Hlen & Hfree & _).
  exists d, quoted.
  split_and!; [exact Hrun|exact Hsteps|exact Hlen|exact (Hfree Hfence)].
Defined.
